(** * eth-devnet: load generator and controller

    A shallow embedding of [loadgen/loadgen.py] and of the preset
    arithmetic of [controller/main.py], with the properties the design
    document states about them.

    Numeric conventions.
    - Python [int] is [Z].
    - In [loadgen.py] floats only carry measurements (clock readings,
      gauge values, configured rates); they are read as exact rationals
      [Q].  Division goes through [truediv], which raises
      [ZeroDivisionError] as Python does.
    - In [controller/main.py] floats are rounded to integers that end up
      in the deployment, so there binary64 is modelled bit for bit with
      the specification floats of the standard library ([spec_float],
      precision 53, emax 1024). *)

From Stdlib Require Import ZArith QArith Qround Qabs String Ascii List Bool Lia.
From Stdlib Require Import HexString SpecFloat FinFun.
From Stdlib Require Import DecimalString.

Set Warnings "-register-all".
Import ListNotations.

Local Open Scope string_scope.
Local Open Scope list_scope.
Local Open Scope Z_scope.

(* ================================================================== *)
(** * Python values and builtins *)
(* ================================================================== *)

Module Py.

(** Decoded JSON, as [json.loads] / [httpx.Response.json] return it.
    A [dict] is kept as an association list with first-match lookup. *)
Inductive json : Type :=
| JNull
| JBool (b : bool)
| JInt (n : Z)
| JFloat (q : Q)
| JStr (s : string)
| JArr (l : list json)
| JObj (kv : list (string * json)).

(** The exception classes the modelled code can meet; all of them derive
    from [Exception]. *)
Inductive exn : Type :=
| TransportError              (* httpx: the request itself failed *)
| HTTPStatusError (code : Z)  (* httpx: raise_for_status *)
| JSONDecodeError             (* body is not JSON *)
| RuntimeError (payload : json)
| KeyError (k : string)
| TypeError
| ValueError
| OverflowError
| ZeroDivisionError.

Definition result (A : Type) : Type := (exn + A)%type.

Fixpoint assoc (k : string) (kv : list (string * json)) : option json :=
  match kv with
  | [] => None
  | (k', v) :: rest => if String.eqb k k' then Some v else assoc k rest
  end.

(** [isinstance(v, str)] *)
Definition isinstance_str (v : json) : bool :=
  match v with JStr _ => true | _ => false end.

(** Substring test, for [k in s] on a [str]. *)
Fixpoint is_substring (k s : string) : bool :=
  if String.prefix k s then true
  else match s with
       | EmptyString => false
       | String _ s' => is_substring k s'
       end.

(** [k in v] for a string key [k]. *)
Definition contains (k : string) (v : json) : result bool :=
  match v with
  | JObj kv => inr (match assoc k kv with Some _ => true | None => false end)
  | JArr l =>
      inr (existsb (fun x => match x with JStr s => String.eqb s k | _ => false end) l)
  | JStr s => inr (is_substring k s)
  | _ => inl TypeError
  end.

(** [v[k]] for a string key [k]. *)
Definition getitem (v : json) (k : string) : result json :=
  match v with
  | JObj kv => match assoc k kv with Some x => inr x | None => inl (KeyError k) end
  | _ => inl TypeError
  end.

(** [hex(n)] *)
Definition hex (n : Z) : string := HexString.of_Z n.

(** ** [int(s, 16)] *)

(** The blanks [int] skips around the number.  A character is a code
    point below 256: the blanks are tab to carriage return and the space
    and, above the ASCII range, NEL and the no-break space.  The
    separators 28 to 31 are no blanks for [int]. *)
Definition is_space (c : ascii) : bool :=
  let n := N_of_ascii c in
  ((9 <=? n) && (n <=? 13) || (n =? 32) || (n =? 133) || (n =? 160))%N.

Fixpoint lstrip (s : string) : string :=
  match s with
  | String c s' => if is_space c then lstrip s' else s
  | EmptyString => s
  end.

Fixpoint all_space (s : string) : bool :=
  match s with
  | String c s' => is_space c && all_space s'
  | EmptyString => true
  end.

Definition is_underscore (c : ascii) : bool := Ascii.eqb c "_".

(** The digit scan of [int]: hexadecimal digits, single underscores
    between them, then only white space up to the end.  [acc] is the
    value read so far, [prev_us] tells whether the previous character
    was an underscore, [seen] whether a digit was read. *)
Fixpoint scan_digits (s : string) (acc : N) (prev_us seen : bool) : option N :=
  match s with
  | EmptyString => if prev_us || negb seen then None else Some acc
  | String c s' =>
      if is_underscore c then
        if prev_us then None else scan_digits s' acc true seen
      else
        match HexString.ascii_to_digit c with
        | Some d => scan_digits s' (d + 16 * acc)%N false true
        | None =>
            if prev_us || negb seen then None
            else if all_space s then Some acc else None
        end
  end.


(** After the sign: an optional [0x] / [0X], then one optional
    underscore right after that prefix. *)
Definition strip_prefix (s : string) : string :=
  match s with
  | String z (String x s') =>
      if Ascii.eqb z "0" && (Ascii.eqb x "x" || Ascii.eqb x "X") then
        match s' with
        | String u s'' => if is_underscore u then s'' else s'
        | EmptyString => s'
        end
      else s
  | _ => s
  end.

(** The digits may not start with an underscore. *)
Definition parse_magnitude (s : string) : option N :=
  let body := strip_prefix s in
  match body with
  | String u _ => if is_underscore u then None else scan_digits body 0%N false false
  | EmptyString => None
  end.

Definition signed (negative : bool) (magnitude : option N) : result Z :=
  match magnitude with
  | Some n => inr (if negative then - Z.of_N n else Z.of_N n)
  | None => inl ValueError
  end.

Definition int16_str (s : string) : result Z :=
  match lstrip s with
  | String c s' =>
      if Ascii.eqb c "-" then signed true (parse_magnitude s')
      else if Ascii.eqb c "+" then signed false (parse_magnitude s')
      else signed false (parse_magnitude (String c s'))
  | EmptyString => inl ValueError
  end.

(** [int(v, 16)]: only strings are accepted with an explicit base. *)
Definition int16 (v : json) : result Z :=
  match v with
  | JStr s => int16_str s
  | _ => inl TypeError
  end.

(** [int(v[k], 16)] *)
Definition field16 (v : json) (k : string) : result Z :=
  match getitem v k with
  | inr x => int16 x
  | inl e => inl e
  end.

(** Truncation toward zero, for [int] of a float. *)
Definition Qtrunc (q : Q) : Z :=
  if Qle_bool 0 q then Qfloor q else Qceiling q.

(** [int(v)] with a single argument.  The only use in the source sits
    behind [isinstance(tip, str)], so the [str] case (decimal parsing) is
    never reached and is not modelled further. *)
Definition int1 (v : json) : result Z :=
  match v with
  | JBool b => inr (if b then 1 else 0)
  | JInt n => inr n
  | JFloat q => inr (Qtrunc q)
  | JStr _ => inl ValueError
  | _ => inl TypeError
  end.

(** [a / b] on floats. *)
Definition truediv (a b : Q) : result Q :=
  if Qeq_bool b 0 then inl ZeroDivisionError else inr (a / b)%Q.

(** [a < b] on floats. *)
Definition Qltb (a b : Q) : bool := negb (Qle_bool b a).

(** Where the floats end: a quotient of magnitude [2^1024 - 2^970] or
    more has no float next to it. *)
Definition float_limit : Q := inject_Z (2 ^ 1024 - 2 ^ 970).

(** [a / b] on two ints: the quotient as a float, [OverflowError] when
    it is too large for one. *)
Definition int_truediv (a b : Z) : result Q :=
  if b =? 0 then inl ZeroDivisionError
  else if Qle_bool float_limit (Qabs (inject_Z a / inject_Z b)) then inl OverflowError
  else inr (inject_Z a / inject_Z b)%Q.

End Py.

(* ================================================================== *)
(** * loadgen/loadgen.py *)
(* ================================================================== *)

Module Loadgen.
Import Py.

(** ** The process state *)

(** The JSON-RPC request body built by [Rpc.call]. *)
Record payload : Type := mkPayload {
  jsonrpc : string;
  method : string;
  params : json;
  req_id : Z
}.

(** What [httpx.AsyncClient.post] can come back with: an exception of the
    transport, or a response with a status code and a body that decodes
    as JSON or does not. *)
Inductive http_outcome : Type :=
| ConnectionFailed
| Response (status : Z) (body : option json).

(** The instance attributes of [Rpc] that change ([self._id],
    [self._rpc_counter]); the client and the url are fixed. *)
Record Rpc : Type := mkRpc {
  _id : Z;
  _rpc_counter : Z
}.

(** The Prometheus registry: three counters, a counter and a histogram
    labelled by method, four gauges.  A histogram keeps its observations. *)
Record Registry : Type := mkRegistry {
  TX_SENT : Z;
  TX_OK : Z;
  TX_ERR : Z;
  RPC_REQ : string -> Z;
  RPC_LAT : string -> list Q;
  ACH_TPS : Q;
  RPS : Q;
  MGAS_S : Q;
  FAIL_RT : Q
}.

Inductive counter : Type := CTxSent | CTxOk | CTxErr.

(** Effects in the order in which they happen. *)
Inductive event : Type :=
| EvInc (c : counter)
| EvPost (p : payload)
| EvSleep (d : Q).

(** Everything the coroutines of the process share, and their
    environment: the endpoint answers a request with [http], the
    [n]-th reading of [time.perf_counter] is [clock n]. *)
Record World : Type := mkWorld {
  rpc : Rpc;
  reg : Registry;
  http : payload -> http_outcome;
  clock : nat -> Q;
  reads : nat;
  log : list event
}.

Definition with_rpc (f : Rpc -> Rpc) (w : World) : World :=
  mkWorld (f (rpc w)) (reg w) (http w) (clock w) (reads w) (log w).

Definition with_reg (f : Registry -> Registry) (w : World) : World :=
  mkWorld (rpc w) (f (reg w)) (http w) (clock w) (reads w) (log w).

Definition with_log (e : event) (w : World) : World :=
  mkWorld (rpc w) (reg w) (http w) (clock w) (reads w) (log w ++ [e]).

Definition upd {A : Type} (f : string -> A) (k : string) (v : A) : string -> A :=
  fun k' => if String.eqb k' k then v else f k'.

(** ** State and exceptions *)

(** A computation runs on the world and ends with a value or with a
    raised exception; the effects made before a [raise] stay.  It is one
    coroutine taken on its own: what other coroutines do while it waits
    at an [await] is the subject of the module [Schedule] below. *)
Definition M (A : Type) : Type := World -> result A * World.

Definition ret {A : Type} (a : A) : M A := fun w => (inr a, w).

Definition raise {A : Type} (e : exn) : M A := fun w => (inl e, w).

Definition bind {A B : Type} (c : M A) (k : A -> M B) : M B :=
  fun w =>
    match c w with
    | (inr a, w') => k a w'
    | (inl e, w') => (inl e, w')
    end.

(** [try: c  except Exception as e: h e] *)
Definition try_except {A : Type} (c : M A) (h : exn -> M A) : M A :=
  fun w =>
    match c w with
    | (inr a, w') => (inr a, w')
    | (inl e, w') => h e w'
    end.

Definition lift {A : Type} (r : result A) : M A := fun w => (r, w).

Definition gets {A : Type} (f : World -> A) : M A := fun w => (inr (f w), w).

Definition modify (f : World -> World) : M unit := fun w => (inr tt, f w).

Declare Scope py_scope.
Delimit Scope py_scope with py.
Notation "x <- c ;; k" := (bind c (fun x => k))
  (at level 61, c at next level, right associativity) : py_scope.
Notation "c ;; k" := (bind c (fun _ => k))
  (at level 61, right associativity) : py_scope.
Local Open Scope py_scope.

(** ** Metrics and environment primitives *)

Definition bump (c : counter) (r : Registry) : Registry :=
  match c with
  | CTxSent => mkRegistry (TX_SENT r + 1) (TX_OK r) (TX_ERR r) (RPC_REQ r) (RPC_LAT r)
                 (ACH_TPS r) (RPS r) (MGAS_S r) (FAIL_RT r)
  | CTxOk => mkRegistry (TX_SENT r) (TX_OK r + 1) (TX_ERR r) (RPC_REQ r) (RPC_LAT r)
                 (ACH_TPS r) (RPS r) (MGAS_S r) (FAIL_RT r)
  | CTxErr => mkRegistry (TX_SENT r) (TX_OK r) (TX_ERR r + 1) (RPC_REQ r) (RPC_LAT r)
                 (ACH_TPS r) (RPS r) (MGAS_S r) (FAIL_RT r)
  end.

(** [TX_SENT.inc()], [TX_OK.inc()], [TX_ERR.inc()] *)
Definition inc (c : counter) : M unit :=
  modify (fun w => with_log (EvInc c) (with_reg (bump c) w)).

(** [RPC_REQ.labels(m).inc()] *)
Definition RPC_REQ_inc (m : string) : M unit :=
  modify (with_reg (fun r =>
    mkRegistry (TX_SENT r) (TX_OK r) (TX_ERR r) (upd (RPC_REQ r) m (RPC_REQ r m + 1))
      (RPC_LAT r) (ACH_TPS r) (RPS r) (MGAS_S r) (FAIL_RT r))).

(** [RPC_LAT.labels(m).observe(v)] *)
Definition RPC_LAT_observe (m : string) (v : Q) : M unit :=
  modify (with_reg (fun r =>
    mkRegistry (TX_SENT r) (TX_OK r) (TX_ERR r) (RPC_REQ r)
      (upd (RPC_LAT r) m (RPC_LAT r m ++ [v])) (ACH_TPS r) (RPS r) (MGAS_S r) (FAIL_RT r))).

Definition ACH_TPS_set (v : Q) : M unit :=
  modify (with_reg (fun r =>
    mkRegistry (TX_SENT r) (TX_OK r) (TX_ERR r) (RPC_REQ r) (RPC_LAT r)
      v (RPS r) (MGAS_S r) (FAIL_RT r))).

Definition RPS_set (v : Q) : M unit :=
  modify (with_reg (fun r =>
    mkRegistry (TX_SENT r) (TX_OK r) (TX_ERR r) (RPC_REQ r) (RPC_LAT r)
      (ACH_TPS r) v (MGAS_S r) (FAIL_RT r))).

Definition MGAS_S_set (v : Q) : M unit :=
  modify (with_reg (fun r =>
    mkRegistry (TX_SENT r) (TX_OK r) (TX_ERR r) (RPC_REQ r) (RPC_LAT r)
      (ACH_TPS r) (RPS r) v (FAIL_RT r))).

Definition FAIL_RT_set (v : Q) : M unit :=
  modify (with_reg (fun r =>
    mkRegistry (TX_SENT r) (TX_OK r) (TX_ERR r) (RPC_REQ r) (RPC_LAT r)
      (ACH_TPS r) (RPS r) (MGAS_S r) v)).

(** [time.perf_counter()] *)
Definition perf_counter : M Q :=
  fun w => (inr (clock w (reads w)),
            mkWorld (rpc w) (reg w) (http w) (clock w) (S (reads w)) (log w)).

(** [await asyncio.sleep(d)] *)
Definition asyncio_sleep (d : Q) : M unit := modify (with_log (EvSleep d)).

(** [await self.c.post(self.url, json=payload)] *)
Definition post (p : payload) : M http_outcome :=
  fun w =>
    match http w p with
    | ConnectionFailed => (inl TransportError, with_log (EvPost p) w)
    | r => (inr r, with_log (EvPost p) w)
    end.

(** [r.raise_for_status()]: httpx raises on every status that is not a
    2xx. *)
Definition raise_for_status (r : http_outcome) : M unit :=
  match r with
  | Response status _ =>
      if (200 <=? status) && (status <=? 299) then ret tt
      else raise (HTTPStatusError status)
  | ConnectionFailed => raise TransportError
  end.

(** [r.json()] *)
Definition response_json (r : http_outcome) : M json :=
  match r with
  | Response _ (Some v) => ret v
  | _ => raise JSONDecodeError
  end.

(** ** class Rpc *)

Definition Rpc_init : Rpc := mkRpc 0 0.

Definition call (method : string) (params : json) : M json :=
  (* async with self._lock: *)
  modify (with_rpc (fun r => mkRpc (_id r + 1) (_rpc_counter r))) ;;
  rid <- gets (fun w => _id (rpc w)) ;;
  let payload := mkPayload "2.0" method params rid in
  RPC_REQ_inc method ;;
  modify (with_rpc (fun r => mkRpc (_id r) (_rpc_counter r + 1))) ;;
  start <- perf_counter ;;
  try_except
    (r <- post payload ;;
     t <- perf_counter ;;
     let latency := (t - start)%Q in
     RPC_LAT_observe method latency ;;
     raise_for_status r ;;
     data <- response_json r ;;
     has_error <- lift (contains "error" data) ;;
     if has_error : bool then
       e <- lift (getitem data "error") ;;
       raise (RuntimeError e)
     else
       lift (getitem data "result"))
    (fun e =>
       t <- perf_counter ;;
       RPC_LAT_observe method (t - start)%Q ;;
       raise e).

(** The request [call] sends from world [w]. *)
Definition request (method : string) (params : json) (w : World) : payload :=
  mkPayload "2.0" method params (_id (rpc w) + 1).

(** What the body of the [try] makes of the endpoint's answer: the lines
    from [r.raise_for_status()] to [return data["result"]], which touch
    no state. *)
Definition decode (r : http_outcome) : result json :=
  match r with
  | ConnectionFailed => inl TransportError
  | Response status body =>
      if (200 <=? status) && (status <=? 299) then
        match body with
        | None => inl JSONDecodeError
        | Some data =>
            match contains "error" data with
            | inl e => inl e
            | inr true =>
                match getitem data "error" with
                | inl e => inl e
                | inr e => inl (RuntimeError e)
                end
            | inr false => getitem data "result"
            end
        end
      else inl (HTTPStatusError status)
  end.

(** How many latency observations the source makes for an answer: the one
    after [post] when a response arrived, and the one of the [except]
    clause when anything was raised. *)
Definition observations (r : http_outcome) : nat :=
  match r with
  | ConnectionFailed => 1
  | _ => match decode r with inr _ => 1 | inl _ => 2 end
  end.

Definition drain_rpc_counter : M Z :=
  v <- gets (fun w => _rpc_counter (rpc w)) ;;
  modify (with_rpc (fun r => mkRpc (_id r) 0)) ;;
  ret v.

(** Calls made one after the other, each result or exception dropped, the
    way [rps_loop] drives the transport. *)
Fixpoint calls (cs : list (string * json)) : M unit :=
  match cs with
  | [] => ret tt
  | (method, params) :: cs' =>
      try_except (_ <- call method params ;; ret tt) (fun _ => ret tt) ;;
      calls cs'
  end.

(** ** Transactions *)

(** [hex(int(eth * 10**18))].  [eth] is read as an exact number and the
    product is exact; the program rounds the product to a float before
    it truncates, which can change the last digits.  The properties of
    the transactions pass this field on as it comes. *)
Definition to_wei_hex (eth : Q) : string :=
  hex (Qtrunc (eth * inject_Z (10 ^ 18))%Q).

(** [int(tip, 16) if isinstance(tip, str) else int(tip)] *)
Definition tip_to_int (tip : json) : result Z :=
  if isinstance_str tip then int16 tip else int1 tip.

(** The one-element parameter list of [eth_sendTransaction]. *)
Definition tx_params (sender to_addr : string) (value_eth : Q) (priority maxfee : Z) : json :=
  JArr [JObj [("from", JStr sender);
              ("to", JStr to_addr);
              ("value", JStr (to_wei_hex value_eth));
              ("gas", JStr (hex 21000));
              ("maxPriorityFeePerGas", JStr (hex priority));
              ("maxFeePerGas", JStr (hex maxfee))]].

Definition send_tx (sender to_addr : string) (value_eth : Q) : M unit :=
  inc CTxSent ;;
  try_except
    (tip <- call "eth_maxPriorityFeePerGas" (JArr []) ;;
     tip_wei <- lift (tip_to_int tip) ;;
     let priority := Z.max tip_wei 1000000000 in
     let maxfee := priority * 2 in
     let params := tx_params sender to_addr value_eth priority maxfee in
     _ <- call "eth_sendTransaction" params ;;
     inc CTxOk)
    (fun e =>
       inc CTxErr ;;
       (* print(...) *)
       raise e).

(** The requests posted, oldest first. *)
Fixpoint posts (l : list event) : list payload :=
  match l with
  | [] => []
  | EvPost p :: l' => p :: posts l'
  | _ :: l' => posts l'
  end.


(** The unit of work the dispatch loop schedules on every tick.  The
    semaphore only delays its start, so it does not appear here. *)
Definition one (sender to_addr : string) (value_eth : Q) : M unit :=
  try_except (send_tx sender to_addr value_eth) (fun _ => ret tt).

(** The stations of one [send_tx] on world [w]: the world in which the
    fee is asked for, the fee call, the submission once the fee is known
    to be [tip_wei], and the exception or success the [try] body ends
    with. *)
Definition attempted (w : World) : World := snd (inc CTxSent w).

Definition fee_call (w : World) : result json * World :=
  call "eth_maxPriorityFeePerGas" (JArr []) (attempted w).

Definition submit_call (sender to_addr : string) (value_eth : Q) (tip_wei : Z) (w : World)
  : result json * World :=
  let priority := Z.max tip_wei 1000000000 in
  call "eth_sendTransaction" (tx_params sender to_addr value_eth priority (priority * 2))
    (snd (fee_call w)).



(** ** The pacer *)

(** The generator as a part of the process: what it reads from the
    clock, when it sleeps, what it leaves alone.  Times are rationals
    here; what the binary64 additions of the program do to the deadlines
    is the subject of [Pacer] below. *)

(** The local variables of the generator [rate_limiter]. *)
Record limiter : Type := mkLimiter {
  interval : Q;
  next_t : Q
}.

(** [next_t += interval] *)
Definition advance (g : limiter) : limiter :=
  mkLimiter (interval g) (next_t g + interval g)%Q.

(** An asynchronous generator is either not started or suspended at its
    [yield]. *)
Inductive generator : Type :=
| Unstarted (tps : Q)
| AtYield (g : limiter).

(** From the top of the loop body to the [yield]. *)
Definition wait_deadline (g : limiter) : M unit :=
  now <- perf_counter ;;
  if Qltb now (next_t g) then asyncio_sleep (next_t g - now)%Q else ret tt.

(** [await limiter.__anext__()]: run the generator to its next [yield]. *)
Definition anext (gen : generator) : M generator :=
  match gen with
  | Unstarted tps =>
      interval <- (if Qltb 0 tps then lift (truediv 1 tps) else ret 0%Q) ;;
      next_t <- perf_counter ;;
      let g := mkLimiter interval next_t in
      wait_deadline g ;;
      ret (AtYield g)
  | AtYield g =>
      let g' := advance g in
      wait_deadline g' ;;
      ret (AtYield g')
  end.

Definition rate_limiter (tps : Q) : generator := Unstarted tps.

(** [n] ticks in a row. *)
Fixpoint ticks (n : nat) (gen : generator) : M generator :=
  match n with
  | O => ret gen
  | S n' => gen' <- anext gen ;; ticks n' gen'
  end.

(** ** The sampler *)

(** The local variables of [sampler] that live across windows. *)
Record sampler_state : Type := mkSampler {
  last_ok : Z;
  last_err : Z;
  last_num : Z;
  last_mgas : Q
}.

Definition latest_block : json := JArr [JStr "latest"; JBool false].

(** Before the loop: snapshot the counters, prime with the current head. *)
Definition sampler_prime : M sampler_state :=
  last_ok <- gets (fun w => TX_OK (reg w)) ;;
  last_err <- gets (fun w => TX_ERR (reg w)) ;;
  head <- call "eth_getBlockByNumber" latest_block ;;
  last_num <- lift (field16 head "number") ;;
  ret (mkSampler last_ok last_err last_num 0%Q).

(** Steps 1 and 2 of a window: achieved TPS, failure rate, RPS. *)
Definition sampler_rates (window : Q) (st : sampler_state) : M sampler_state :=
  ok <- gets (fun w => TX_OK (reg w)) ;;
  err <- gets (fun w => TX_ERR (reg w)) ;;
  let okd := ok - last_ok st in
  let errd := err - last_err st in
  let total := okd + errd in
  tps <- (if Qltb 0 window then lift (truediv (inject_Z okd) window) else ret 0%Q) ;;
  ACH_TPS_set tps ;;
  rate <- (if 0 <? total then lift (truediv (inject_Z errd) (inject_Z total)) else ret 0%Q) ;;
  FAIL_RT_set rate ;;
  drained <- drain_rpc_counter ;;
  rps <- lift (truediv (inject_Z drained) window) ;;
  RPS_set rps ;;
  ret (mkSampler ok err (last_num st) (last_mgas st)).

(** Step 3 of a window: MGas/s from the head block. *)
Definition sampler_mgas (st : sampler_state) : M sampler_state :=
  blk <- call "eth_getBlockByNumber" latest_block ;;
  num <- lift (field16 blk "number") ;;
  if last_num st <? num then
    parentHash <- lift (getitem blk "parentHash") ;;
    parent <- call "eth_getBlockByHash" (JArr [parentHash; JBool false]) ;;
    ts <- lift (field16 blk "timestamp") ;;
    pts <- lift (field16 parent "timestamp") ;;
    let dt := Z.max (ts - pts) 1 in
    gas <- lift (field16 blk "gasUsed") ;;
    per_s <- lift (int_truediv gas dt) ;;
    mgas <- lift (truediv per_s (inject_Z 1000000)) ;;
    MGAS_S_set mgas ;;
    ret (mkSampler (last_ok st) (last_err st) num mgas)
  else
    MGAS_S_set (last_mgas st) ;;
    ret st.

(** The two requests a window can make, as made from world [w] at the
    start of the window. *)
Definition head_request (w : World) : payload :=
  mkPayload "2.0" "eth_getBlockByNumber" latest_block (_id (rpc w) + 1).

Definition parent_request (w : World) (parentHash : json) : payload :=
  mkPayload "2.0" "eth_getBlockByHash" (JArr [parentHash; JBool false]) (_id (rpc w) + 2).

(** The sampler state and the world between step 2 and step 3 of a
    window that started in state [st] and world [w], when the window
    length is not zero. *)
Definition rated (st : sampler_state) (w : World) : sampler_state :=
  mkSampler (TX_OK (reg w)) (TX_ERR (reg w)) (last_num st) (last_mgas st).

Definition sampled (W : Q) (st : sampler_state) (w : World) : World :=
  let r := reg w in
  let okd := TX_OK r - last_ok st in
  let errd := TX_ERR r - last_err st in
  mkWorld (mkRpc (_id (rpc w)) 0)
    (mkRegistry (TX_SENT r) (TX_OK r) (TX_ERR r) (RPC_REQ r) (RPC_LAT r)
       (if Qltb 0 W then inject_Z okd / W else 0)%Q
       (inject_Z (_rpc_counter (rpc w)) / W)%Q
       (MGAS_S r)
       (if 0 <? okd + errd then inject_Z errd / inject_Z (okd + errd) else 0)%Q)
    (http w) (clock w) (reads w) (log w ++ [EvSleep W]).

(** Two registries that agree on the transaction counters and on the
    gauges of steps 1 and 2. *)
Definition same_rates (r r' : Registry) : Prop :=
  TX_SENT r' = TX_SENT r /\ TX_OK r' = TX_OK r /\ TX_ERR r' = TX_ERR r /\
  ACH_TPS r' = ACH_TPS r /\ RPS r' = RPS r /\ FAIL_RT r' = FAIL_RT r.

(** One turn of the [while True] loop of [sampler]. *)
Definition sampler_window (window : Q) (st : sampler_state) : M sampler_state :=
  asyncio_sleep window ;;
  st' <- sampler_rates window st ;;
  sampler_mgas st'.


(** [n] turns of the loop. *)
Fixpoint windows (window : Q) (n : nat) (st : sampler_state) : M sampler_state :=
  match n with
  | O => ret st
  | S n' => st' <- sampler_window window st ;; windows window n' st'
  end.

(** [sampler(rpc, window)], cut after [n] windows; it ends earlier when a
    request of the sampler fails. *)
Definition sampler (window : Q) (n : nat) : M sampler_state :=
  st <- sampler_prime ;;
  windows window n st.

End Loadgen.

(* ================================================================== *)
(** * Concurrent callers of the transport *)
(* ================================================================== *)

(** The coroutines of the process run on one event loop and give up
    control only at an [await].  Here the head of [Rpc.call] and
    [Rpc.drain_rpc_counter] are cut into their statements, and a
    scheduler runs one statement of one caller at a time, in any order:
    every interleaving the event loop can produce is among those, and
    so are many it cannot.  A caller stands for one invocation of
    [call]. *)

Module Schedule.

(** Where an invocation of [call] stands. *)
Inductive pc : Type :=
| Entered                (* before [async with self._lock] *)
| Locked                 (* lock taken, before [self._id += 1] *)
| Bumped                 (* before [rid = self._id] *)
| Holding (rid : Z)      (* [rid] bound, lock still held *)
| Unlocked (rid : Z)     (* lock released, before [self._rpc_counter += 1] *)
| InFlight (rid : Z)     (* request posted, awaiting the response *)
| Finished (rid : Z).

(** What has happened so far, oldest first. *)
Inductive obs : Type :=
| Assigned (t : nat) (rid : Z)   (* caller [t] bound [rid] *)
| Counted (t : nat)              (* caller [t] did [self._rpc_counter += 1] *)
| Drained (v : Z).               (* [drain_rpc_counter] returned [v] *)

Record state : Type := mkState {
  _id : Z;
  _rpc_counter : Z;
  locked : bool;                 (* [asyncio.Lock._locked] *)
  pcs : nat -> pc;
  trace : list obs
}.

Definition init : state := mkState 0 0 false (fun _ => Entered) [].

Inductive action : Type :=
| Run (t : nat)    (* caller [t] runs its next statement *)
| Drain.           (* the sampler calls [drain_rpc_counter] *)

Definition set_pc (t : nat) (p : pc) (f : nat -> pc) : nat -> pc :=
  fun t' => if Nat.eqb t' t then p else f t'.

(** One statement.  [None]: the action cannot run now (the lock is
    taken, or the caller has finished). *)
Definition step (a : action) (s : state) : option state :=
  match a with
  | Run t =>
      match pcs s t with
      | Entered =>
          if locked s then None
          else Some (mkState (_id s) (_rpc_counter s) true (set_pc t Locked (pcs s)) (trace s))
      | Locked =>
          Some (mkState (_id s + 1) (_rpc_counter s) (locked s)
                  (set_pc t Bumped (pcs s)) (trace s))
      | Bumped =>
          Some (mkState (_id s) (_rpc_counter s) (locked s)
                  (set_pc t (Holding (_id s)) (pcs s)) (trace s ++ [Assigned t (_id s)]))
      | Holding rid =>
          Some (mkState (_id s) (_rpc_counter s) false
                  (set_pc t (Unlocked rid) (pcs s)) (trace s))
      | Unlocked rid =>
          Some (mkState (_id s) (_rpc_counter s + 1) (locked s)
                  (set_pc t (InFlight rid) (pcs s)) (trace s ++ [Counted t]))
      | InFlight rid =>
          Some (mkState (_id s) (_rpc_counter s) (locked s)
                  (set_pc t (Finished rid) (pcs s)) (trace s))
      | Finished _ => None
      end
  | Drain =>
      Some (mkState (_id s) 0 (locked s) (pcs s) (trace s ++ [Drained (_rpc_counter s)]))
  end.

(** A schedule is any list of actions; one that cannot run is skipped. *)
Definition exec1 (s : state) (a : action) : state :=
  match step a s with
  | Some s' => s'
  | None => s
  end.

Definition exec (sched : list action) (s : state) : state :=
  fold_left exec1 sched s.

(** The request ids in the order in which they were bound. *)
Fixpoint assigned (tr : list obs) : list Z :=
  match tr with
  | [] => []
  | Assigned _ rid :: tr' => rid :: assigned tr'
  | _ :: tr' => assigned tr'
  end.

(** The id a caller holds, once it has one. *)
Definition rid_of (p : pc) : option Z :=
  match p with
  | Holding r | Unlocked r | InFlight r | Finished r => Some r
  | _ => None
  end.

(** Inside [async with self._lock]. *)
Definition critical (p : pc) : bool :=
  match p with
  | Locked | Bumped | Holding _ => true
  | _ => false
  end.

(** Past [self._rpc_counter += 1]. *)
Definition counted_pc (p : pc) : bool :=
  match p with
  | InFlight _ | Finished _ => true
  | _ => false
  end.

(** Who was given which id, oldest first. *)
Fixpoint owners_of (tr : list obs) : list (nat * Z) :=
  match tr with
  | [] => []
  | Assigned t rid :: tr' => (t, rid) :: owners_of tr'
  | _ :: tr' => owners_of tr'
  end.

(** The list 1, 2, ..., n. *)
Definition upto (n : nat) : list Z := map Z.of_nat (seq 1 n).

(** The callers that were counted, oldest first. *)
Fixpoint counted (tr : list obs) : list nat :=
  match tr with
  | [] => []
  | Counted t :: tr' => t :: counted tr'
  | _ :: tr' => counted tr'
  end.

(** The values the drains returned, oldest first. *)
Fixpoint drained (tr : list obs) : list Z :=
  match tr with
  | [] => []
  | Drained v :: tr' => v :: drained tr'
  | _ :: tr' => drained tr'
  end.

(** Reading a trace against the contract of the drain: [pending] calls
    were counted since the last drain; a drain must return exactly that
    many.  The result is the number pending at the end, or [None] when
    some drain returned something else. *)
Fixpoint audit (tr : list obs) (pending : Z) : option Z :=
  match tr with
  | [] => Some pending
  | Counted _ :: tr' => audit tr' (pending + 1)
  | Drained v :: tr' => if v =? pending then audit tr' 0 else None
  | Assigned _ _ :: tr' => audit tr' pending
  end.

Definition sum (l : list Z) : Z := fold_right Z.add 0 l.

(** ** Invariants of the reachable states *)

(** The lock: nobody is inside when it is free, at most one caller is
    inside at any time. *)
Record LockInv (s : state) : Prop := {
  lock_free : locked s = false -> forall t, critical (pcs s t) = false;
  lock_one : forall t1 t2,
    critical (pcs s t1) = true -> critical (pcs s t2) = true -> t1 = t2
}.

(** The ids: those bound so far are 1..n, the counter stands at n, or at
    n + 1 between the increment and the binding, and every caller that
    holds an id was given it. *)
Record IdInv (s : state) : Prop := {
  ids_seq : assigned (trace s) = upto (length (assigned (trace s)));
  ids_bumped : forall t,
    pcs s t = Bumped -> _id s = Z.of_nat (length (assigned (trace s))) + 1;
  ids_rest :
    (forall t, pcs s t <> Bumped) -> _id s = Z.of_nat (length (assigned (trace s)));
  ids_owner : forall t r, rid_of (pcs s t) = Some r -> In (t, r) (owners_of (trace s))
}.

(** The call counter: every drain returned what was pending, the counter
    holds what is pending now, nobody was counted twice. *)
Record CountInv (s : state) : Prop := {
  cnt_audit : audit (trace s) 0 = Some (_rpc_counter s);
  cnt_pc : forall t, In t (counted (trace s)) <-> counted_pc (pcs s t) = true;
  cnt_nodup : NoDup (counted (trace s));
  cnt_sum :
    sum (drained (trace s)) + _rpc_counter s = Z.of_nat (length (counted (trace s)))
}.

Record Inv (s : state) : Prop := {
  inv_lock : LockInv s;
  inv_id : IdInv s;
  inv_count : CountInv s
}.

End Schedule.

(* ================================================================== *)
(** * controller/main.py: preset arithmetic *)
(* ================================================================== *)

Module Controller.
Import Py.

(** ** binary64 *)

Definition prec : Z := 53.
Definition emax : Z := 1024.

Definition float : Type := spec_float.

(** An integer literal read as a float (exact below 2^53). *)
Definition of_int (n : Z) : float := binary_normalize prec emax n 0 false.

Definition fmul : float -> float -> float := SFmul prec emax.
Definition fdiv : float -> float -> float := SFdiv prec emax.
Definition fltb : float -> float -> bool := SFltb.
Definition fleb : float -> float -> bool := SFleb.

(** The float literals of [compute_mix].  A decimal literal denotes the
    double nearest to it, which is what the correctly rounded quotient
    of two small integers gives. *)
Definition lit_0_0 : float := S754_zero false.
Definition lit_5_0 : float := of_int 5.
Definition lit_0_35 : float := fdiv (of_int 35) (of_int 100).
Definition lit_0_10 : float := fdiv (of_int 10) (of_int 100).

(** [max(a, b)]: the first argument unless the second is greater. *)
Definition max (a b : float) : float := if fltb a b then b else a.

(** The integer nearest to [m * 2^e], ties to the even one. *)
Definition nearest_even (m : positive) (e : Z) : Z :=
  match e with
  | Z0 => Zpos m
  | Zpos _ => Zpos m * 2 ^ e
  | Zneg p =>
      let d := 2 ^ Zpos p in
      let q := Zpos m / d in
      let r := Zpos m mod d in
      match 2 * r ?= d with
      | Lt => q
      | Gt => q + 1
      | Eq => if Z.even q then q else q + 1
      end
  end.

(** One-argument [round(x)] on a float. *)
Definition round (x : float) : result Z :=
  match x with
  | S754_zero _ => inr 0
  | S754_infinity _ => inl OverflowError
  | S754_nan => inl ValueError
  | S754_finite s m e => inr (if s then - nearest_even m e else nearest_even m e)
  end.

(** The number a float stands for, as the fraction
    [numerator / denominator] with a positive denominator; 0 / 1 for
    what is not finite. *)
Definition numerator (x : float) : Z :=
  match x with
  | S754_finite s m e =>
      let a := match e with
               | Zneg _ => Zpos m
               | _ => Zpos m * 2 ^ e
               end in
      if s then - a else a
  | _ => 0
  end.

Definition denominator (x : float) : Z :=
  match x with
  | S754_finite _ _ (Zneg p) => 2 ^ Zpos p
  | _ => 1
  end.

(** [n] is the integer nearest to [p / q], for [q > 0], and the even one
    when two integers are equally near: what [round] is documented to
    return. *)
Definition nearest_int (p q n : Z) : Prop :=
  Z.abs (2 * (n * q - p)) <= q /\
  (Z.abs (2 * (n * q - p)) = q -> Z.even n = true).

Definition rounds_to (x : float) (n : Z) : Prop :=
  nearest_int (numerator x) (denominator x) n.

(** Not negative: a zero of either sign, a NaN, or the sign bit clear. *)
Definition nonneg (x : float) : Prop :=
  match x with
  | S754_zero _ | S754_nan => True
  | S754_infinity s | S754_finite s _ _ => s = false
  end.

(** Neither an infinity nor a NaN. *)
Definition is_finite (x : float) : bool :=
  match x with
  | S754_zero _ | S754_finite _ _ _ => true
  | _ => false
  end.

(** A value of the binary64 format: a mantissa of at most 53 bits in
    canonical position, the exponent in range. *)
Definition binary64 (x : float) : bool := valid_binary prec emax x.

(** The dict [compute_mix] returns. *)
Record mix : Type := mkMix {
  tps : Z;
  rps_block : Z;
  rps_bal : Z;
  rps_call : Z
}.

Definition compute_mix (total_tps : float) (preset : string) : result mix :=
  let t := max total_tps lit_0_0 in
  if String.eqb preset "even" then
    match round (fdiv t lit_5_0) with
    | inl e => inl e
    | inr per => inr (mkMix per per per per)
    end
  else
    match round (fmul lit_0_35 t) with
    | inl e => inl e
    | inr send =>
        match round (fmul lit_0_10 t) with
        | inl e => inl e
        | inr read => inr (mkMix send read read read)
        end
    end.

End Controller.

(* ================================================================== *)
(** * loadgen/loadgen.py: the deadlines of the pacer in binary64 *)
(* ================================================================== *)

(** [rate_limiter] with the clock readings, the interval and the
    deadlines as the binary64 floats they are in the program.  The
    generator touches nothing but the clock and the sleeps, so they are
    all there is of the process here. *)

Module Pacer.
Import Controller.

Definition fadd : float -> float -> float := SFadd prec emax.
Definition fsub : float -> float -> float := SFsub prec emax.
Definition lit_1_0 : float := of_int 1.

(** The clock: its readings in the order in which they are taken, how
    many were taken, and the sleeps asked for, oldest first. *)
Record timeline : Type := mkTimeline {
  clock : nat -> float;
  reads : nat;
  slept : list float
}.

(** [time.perf_counter()] *)
Definition perf_counter (tl : timeline) : float * timeline :=
  (clock tl (reads tl), mkTimeline (clock tl) (S (reads tl)) (slept tl)).

(** [await asyncio.sleep(d)] *)
Definition asyncio_sleep (d : float) (tl : timeline) : timeline :=
  mkTimeline (clock tl) (reads tl) (slept tl ++ [d]).

(** The local variables of the generator. *)
Record limiter : Type := mkLimiter {
  interval : float;
  next_t : float
}.

(** [next_t += interval] *)
Definition advance (g : limiter) : limiter :=
  mkLimiter (interval g) (fadd (next_t g) (interval g)).

Inductive generator : Type :=
| Unstarted (tps : float)
| AtYield (g : limiter).

(** From the top of the loop body to the [yield]. *)
Definition wait_deadline (g : limiter) (tl : timeline) : timeline :=
  let (now, tl1) := perf_counter tl in
  if fltb now (next_t g) then asyncio_sleep (fsub (next_t g) now) tl1 else tl1.

(** [await limiter.__anext__()]: run the generator to its next [yield].
    The division is reached for [tps > 0] only and so cannot raise. *)
Definition anext (gen : generator) (tl : timeline) : generator * timeline :=
  match gen with
  | Unstarted tps =>
      let interval := if fltb lit_0_0 tps then fdiv lit_1_0 tps else lit_0_0 in
      let (next_t, tl1) := perf_counter tl in
      let g := mkLimiter interval next_t in
      (AtYield g, wait_deadline g tl1)
  | AtYield g =>
      let g' := advance g in
      (AtYield g', wait_deadline g' tl)
  end.

Definition rate_limiter (tps : float) : generator := Unstarted tps.

(** [n] ticks in a row. *)
Fixpoint ticks (n : nat) (gen : generator) (tl : timeline) : generator * timeline :=
  match n with
  | O => (gen, tl)
  | S n' => let (gen', tl') := anext gen tl in ticks n' gen' tl'
  end.

(** The deadline [t0] after [k] additions of the interval. *)
Fixpoint deadline (k : nat) (t0 interval : float) : float :=
  match k with
  | O => t0
  | S k' => fadd (deadline k' t0 interval) interval
  end.

(** The deadline the generator holds at its tick [k], counting from 0. *)
Definition nth_deadline (k : nat) (tps : float) (tl : timeline) : float :=
  match fst (ticks (S k) (rate_limiter tps) tl) with
  | AtYield g => next_t g
  | Unstarted _ => clock tl (reads tl)
  end.

(** A clock that is late and jumps: reading [n] shows [n * n] seconds;
    and one that runs evenly, a second per reading.  Both start at 0. *)
Definition late : timeline :=
  mkTimeline (fun n => of_int (Z.of_nat (n * n))) 0 [].

Definition even_paced : timeline :=
  mkTimeline (fun n => of_int (Z.of_nat n)) 0 [].

End Pacer.

(* ================================================================== *)
(** * Concrete runs *)
(* ================================================================== *)

(** Endpoints, clocks and worlds on which the properties below are
    evaluated. *)

Module Fixtures.
Import Py Loadgen.

Definition registry0 : Registry :=
  mkRegistry 0 0 0 (fun _ => 0) (fun _ => []) 0 0 0 0.

(** A clock that advances ten milliseconds per reading. *)
Definition clock10ms : nat -> Q := fun n => (inject_Z (Z.of_nat n) / 100)%Q.

(** A clock that jumps: reading [n] shows [n * n] seconds. *)
Definition clock_jumps : nat -> Q := fun n => inject_Z (Z.of_nat (n * n)).

(** A process whose event loop is held up: its clock is [clock_jumps]. *)
Definition held_up : World :=
  mkWorld Rpc_init registry0 (fun _ => ConnectionFailed) clock_jumps 0 [].

(** A fresh process talking to endpoint [node]. *)
Definition fresh (node : payload -> http_outcome) : World :=
  mkWorld Rpc_init registry0 node clock10ms 0 [].

Definition result_body (v : json) : http_outcome :=
  Response 200 (Some (JObj [("jsonrpc", JStr "2.0"); ("id", JInt 1); ("result", v)])).

Definition rpc_error : json :=
  JObj [("code", JInt (-32000)); ("message", JStr "insufficient funds")].

Definition error_body : http_outcome :=
  Response 200 (Some (JObj [("jsonrpc", JStr "2.0"); ("id", JInt 1); ("error", rpc_error)])).

(** A node that rejects every request with a JSON-RPC error. *)
Definition rejecting_node : payload -> http_outcome := fun _ => error_body.


(** Block 16: 15,000,000 gas, time stamp 112; its parent has time stamp
    100. *)
Definition block16 : json :=
  JObj [("number", JStr "0x10"); ("timestamp", JStr "0x70");
        ("gasUsed", JStr "0xe4e1c0"); ("parentHash", JStr "0xaa")].

Definition block15 : json :=
  JObj [("number", JStr "0xf"); ("timestamp", JStr "0x64");
        ("gasUsed", JStr "0x5208"); ("parentHash", JStr "0xa9")].

Definition chain_node : payload -> http_outcome :=
  fun p =>
    if String.eqb (method p) "eth_getBlockByNumber"
    then result_body block16
    else result_body block15.

(** Block 16 as a node could report it with 2^1040 gas used, and a
    process talking to such a node. *)
Definition block16_flooded : json :=
  JObj [("number", JStr "0x10"); ("timestamp", JStr "0x70");
        ("gasUsed", JStr (hex (2 ^ 1040))); ("parentHash", JStr "0xaa")].

Definition flooded_node : payload -> http_outcome :=
  fun p =>
    if String.eqb (method p) "eth_getBlockByNumber"
    then result_body block16_flooded
    else result_body block15.

Definition flooded : World :=
  mkWorld (mkRpc 410 300)
    (mkRegistry 55 45 10 (fun _ => 0) (fun _ => []) 0 0 0 0)
    flooded_node clock10ms 0 [].

(** A process in mid run: 45 transactions accepted, 10 failed, 300 calls
    since the last drain, the MGas/s gauge at [mgas]. *)
Definition busy (mgas : Q) : World :=
  mkWorld (mkRpc 410 300)
    (mkRegistry 55 45 10 (fun _ => 0) (fun _ => []) 0 0 mgas 0)
    chain_node clock10ms 0 [].

(** The sampler after a window that ended at 20 accepted and 5 failed. *)
Definition seen15 : sampler_state := mkSampler 20 5 15 0.
Definition seen16 : sampler_state := mkSampler 20 5 16 (5 # 4).

End Fixtures.

(* ================================================================== *)
(** * loadgen/loadgen.py: start-up and read traffic *)
(* ================================================================== *)

Module Traffic.
Import Py Loadgen.
Local Open Scope py_scope.

Definition no_accounts : string :=
  "No unlocked accounts returned by eth_accounts; geth --dev should expose one.".

(** [get_sender(rpc)].  The test [if not accs] and the index [accs[0]] are
    taken together, value by value: the falsy values raise the
    [RuntimeError]; of the others a list gives its first element, a string
    its first character, a dict has no key 0 ([KeyError(0)], the key
    written here as text) and a number or [True] cannot be
    subscripted. *)
Definition get_sender : M json :=
  accs <- call "eth_accounts" (JArr []) ;;
  (* print(...) *)
  match accs with
  | JArr (a :: _) => ret a
  | JStr (String c _) => ret (JStr (String c ""))
  | JObj (_ :: _) => raise (KeyError "0")
  | JBool true => raise TypeError
  | JInt n => if Z.eqb n 0 then raise (RuntimeError (JStr no_accounts)) else raise TypeError
  | JFloat q =>
      if Qeq_bool q 0 then raise (RuntimeError (JStr no_accounts)) else raise TypeError
  | JNull | JBool false | JStr EmptyString | JArr [] | JObj [] =>
      raise (RuntimeError (JStr no_accounts))
  end.

(** The body of the [while True] of [rps_loop], [n] times: wait for the
    deadline, make one call and drop whatever it raises, move the
    deadline. *)
Fixpoint rps_iterations (method : string) (params_fn : unit -> json) (n : nat) (g : limiter)
  : M limiter :=
  match n with
  | O => ret g
  | S n' =>
      wait_deadline g ;;
      try_except (_ <- call method (params_fn tt) ;; ret tt) (fun _ => ret tt) ;;
      rps_iterations method params_fn n' (advance g)
  end.

(** [rps_loop(rpc, method, params_fn, rps)], cut after [n] turns of its
    loop.  [None] is the immediate [return] for a rate that is not
    positive; otherwise the result is the state of the loop. *)
Definition rps_loop (method : string) (params_fn : unit -> json) (rps : Q) (n : nat)
  : M (option limiter) :=
  if Qle_bool rps 0 then ret None
  else
    interval <- lift (truediv 1 rps) ;;
    next_t <- perf_counter ;;
    g <- rps_iterations method params_fn n (mkLimiter interval next_t) ;;
    ret (Some g).

(** What [send_tx] gets out of its fee request on world [w]: the fee as
    an integer, or the failure of the call or of the conversion. *)
Definition fee_reading (w : World) : result Z :=
  match fst (fee_call w) with
  | inl e => inl e
  | inr tip => tip_to_int tip
  end.

(** [n] units of work of the dispatch loop, run to their end one after
    the other. *)
Fixpoint units (n : nat) (sender to_addr : string) (value_eth : Q) : M unit :=
  match n with
  | O => ret tt
  | S n' => one sender to_addr value_eth ;; units n' sender to_addr value_eth
  end.

(** The sleeps in a log, oldest first. *)
Fixpoint sleeps (l : list event) : list Q :=
  match l with
  | [] => []
  | EvSleep d :: l' => d :: sleeps l'
  | _ :: l' => sleeps l'
  end.

(** A clock that never runs backwards. *)
Definition monotone (clock : nat -> Q) : Prop :=
  forall i j, (i <= j)%nat -> (clock i <= clock j)%Q.

End Traffic.

(* ================================================================== *)
(** * Concurrent callers: the lock is given back *)
(* ================================================================== *)

Module Liveness.
Import Schedule.

(** When the lock is taken, somebody is inside [async with self._lock]. *)
Definition Held (s : state) : Prop :=
  locked s = true -> exists t, critical (pcs s t) = true.

(** Caller [t] runs [n] statements in a row. *)
Definition run (t : nat) (n : nat) : list action := repeat (Run t) n.

End Liveness.

(* ================================================================== *)
(** * controller/main.py: the environment of the Deployment *)
(* ================================================================== *)

Module Deploy.

Inductive exn : Type :=
| IndexError.

Definition result (A : Type) : Type := (exn + A)%type.

(** What the controller reads of the objects the Kubernetes client
    returns: [V1EnvVar], [V1Container], and of [V1Deployment] the
    containers and the annotations of the pod template. *)
Record V1EnvVar : Type := mkEnvVar {
  ev_name : string;
  ev_value : option string
}.

Record V1Container : Type := mkContainer {
  c_name : string;
  c_env : option (list V1EnvVar)
}.

Record V1Deployment : Type := mkDeployment {
  containers : list V1Container;
  annotations : option (list (string * string))
}.

(** A dict with string keys, in insertion order, no key twice. *)
Definition dict (A : Type) : Type := list (string * A).

(** [d[k] = v] *)
Fixpoint setitem {A : Type} (d : dict A) (k : string) (v : A) : dict A :=
  match d with
  | [] => [(k, v)]
  | (k', v') :: d' =>
      if String.eqb k' k then (k', v) :: d' else (k', v') :: setitem d' k v
  end.

(** [d.get(k)]; on a list of pairs, the first pair with key [k]. *)
Fixpoint get {A : Type} (d : list (string * A)) (k : string) : option A :=
  match d with
  | [] => None
  | (k', v) :: d' => if String.eqb k' k then Some v else get d' k
  end.

(** The dict [{"name": ..., "value": ...}] of one variable. *)
Abbreviation entry := (string * option string)%type (only parsing).

(** [_env_list(container)] *)
Definition _env_list (container : V1Container) : list entry :=
  map (fun e => (ev_name e, ev_value e))
    (match c_env container with
     | Some l => l
     | None => []
     end).

(** [{e["name"]: e["value"] for e in env_list}] *)
Definition env_dict (env_list : list entry) : dict (option string) :=
  fold_left (fun d e => setitem d (fst e) (snd e)) env_list [].

(** [env.get(k, default)] *)
Definition env_get (env : dict (option string)) (k default : string) : option string :=
  match get env k with
  | Some v => v
  | None => Some default
  end.

Section Str.

(** The values handed to [_set_env], and [str] on them. *)
Context {V : Type} (str : V -> string).

(** The [for] loop of [_set_env], and what follows it. *)
Fixpoint _set_env_loop (env_list : list entry) (name value : string) : list entry :=
  match env_list with
  | [] => [(name, Some value)]
  | e :: rest =>
      if String.eqb (fst e) name then (fst e, Some value) :: rest
      else e :: _set_env_loop rest name value
  end.

(** [_set_env(env_list, name, value)]; the result is the list after the
    call. *)
Definition _set_env (env_list : list entry) (name : string) (value : option V) : list entry :=
  let value := match value with
               | None => ""
               | Some v => str v
               end in
  _set_env_loop env_list name value.

(** [next((c for c in containers if c.name == CONTAINER), containers[0])]:
    the default is evaluated before the search. *)
Definition target (CONTAINER : string) (containers : list V1Container) : result V1Container :=
  match containers with
  | [] => inl IndexError
  | c0 :: _ =>
      inr (match find (fun c => String.eqb (c_name c) CONTAINER) containers with
           | Some c => c
           | None => c0
           end)
  end.

Definition lastUpdate : string := "loadgen-controller/lastUpdate".

(** The body handed to [patch_namespaced_deployment]. *)
Record body : Type := mkBody {
  body_annotations : dict string;
  body_container : string;
  body_env : list entry
}.

(** [patch_env_simple], from the Deployment that [get_deploy] returned
    and the reading [now] of [time.time()] to the body it sends. *)
Definition patch_env_simple (CONTAINER : string) (dep : V1Deployment) (now : V)
    (tps conc rps_block rps_bal rps_call : V) : result body :=
  match target CONTAINER (containers dep) with
  | inl e => inl e
  | inr target =>
      let env_list := _env_list target in
      let env_list := _set_env env_list "TPS" (Some tps) in
      let env_list := _set_env env_list "CONCURRENCY" (Some conc) in
      let env_list := _set_env env_list "RPS_BLOCK" (Some rps_block) in
      let env_list := _set_env env_list "RPS_BAL" (Some rps_bal) in
      let env_list := _set_env env_list "RPS_CALL" (Some rps_call) in
      let anns := match annotations dep with
                  | Some a => a
                  | None => []
                  end in
      let anns := setitem anns lastUpdate (str now) in
      inr (mkBody anns CONTAINER env_list)
  end.

(** The strings [read_env] takes from the environment of the target
    container, before it turns them into numbers. *)
Definition read_env_strings (CONTAINER : string) (dep : V1Deployment)
  : result (list (string * option string)) :=
  match target CONTAINER (containers dep) with
  | inl e => inl e
  | inr target =>
      let env := env_dict (_env_list target) in
      inr [("tps", env_get env "TPS" "80");
           ("concurrency", env_get env "CONCURRENCY" "200");
           ("rps_block", env_get env "RPS_BLOCK" "0");
           ("rps_bal", env_get env "RPS_BAL" "0");
           ("rps_call", env_get env "RPS_CALL" "0")]
  end.

End Str.

(** [str] on an [int]. *)
Definition str_int (n : Z) : string := NilZero.string_of_int (Z.to_int n).

(** The names [patch_env_simple] sets. *)
Definition knobs : list string :=
  ["TPS"; "CONCURRENCY"; "RPS_BLOCK"; "RPS_BAL"; "RPS_CALL"].

(** How often a name occurs in a list of variables. *)
Definition occurrences (env_list : list entry) (name : string) : nat :=
  length (filter (fun e => String.eqb (fst e) name) env_list).

(** The entries with another name than [name], in order. *)
Definition others (name : string) (env_list : list entry) : list entry :=
  filter (fun e => negb (String.eqb (fst e) name)) env_list.

(** The entries that are none of the knobs, in order. *)
Definition unmanaged (env_list : list entry) : list entry :=
  filter (fun e => negb (existsb (String.eqb (fst e)) knobs)) env_list.

End Deploy.

(* ================================================================== *)
(** * controller/main.py: the presets on whole totals *)
(* ================================================================== *)

Module Totals.
Import Py Controller.

(** What is checked of both presets at the whole total [n]: the even
    share is the integer nearest to n/5, the write shares are within one
    half of 0.35 n and 0.10 n, and the rates implied, with the fee
    request counted like a send, are within 2 of [n]. *)
Definition near (n : Z) : bool :=
  match compute_mix (of_int n) "even", compute_mix (of_int n) "write" with
  | inr e, inr w =>
      (tps e =? (n + 2) / 5)
      && (Z.abs (20 * tps w - 7 * n) <=? 10)
      && (Z.abs (10 * rps_block w - n) <=? 5)
      && (Z.abs (2 * tps w + 3 * rps_block w - n) <=? 2)
  | _, _ => false
  end.

(** [f] holds at [n], [n + 1], ..., [n + k - 1]. *)
Fixpoint all_from (k : nat) (n : Z) (f : Z -> bool) : bool :=
  match k with
  | O => true
  | S k' => f n && all_from k' (n + 1) f
  end.

End Totals.

(* ================================================================== *)
(** * More concrete runs *)
(* ================================================================== *)

Module Cases.
Import Py Loadgen.

(** A node whose answer carries a result and an error at once. *)
Definition confused_body : option json :=
  Some (JObj [("result", JStr "0x1"); ("error", Fixtures.rpc_error)]).

Definition confused_node : payload -> http_outcome :=
  fun _ => Response 200 confused_body.

(** A node with two unlocked accounts, and one with none. *)
Definition two_accounts : list json := [JStr "0xf0"; JStr "0xf1"].

Definition funded_node : payload -> http_outcome :=
  fun _ => Fixtures.result_body (JArr two_accounts).

(** A node that answers the fee request with something that is no
    number. *)
Definition vague_node : payload -> http_outcome :=
  fun _ => Fixtures.result_body (JStr "soon").

Definition locked_node : payload -> http_outcome :=
  fun _ => Fixtures.result_body (JArr []).

(** A Deployment whose container lists TPS twice, next to a variable the
    controller does not manage. *)
Definition twice : list Deploy.entry :=
  [("TPS", Some "10"); ("RPC_URL", Some "http://geth-devnet:8545"); ("TPS", Some "20")].

Definition loadgen_env : list Deploy.V1EnvVar :=
  [Deploy.mkEnvVar "RPC_URL" (Some "http://geth-devnet:8545");
   Deploy.mkEnvVar "TPS" (Some "10")].

Definition deployed : Deploy.V1Deployment :=
  Deploy.mkDeployment
    [Deploy.mkContainer "sidecar" None; Deploy.mkContainer "loadgen" (Some loadgen_env)]
    (Some [("app", "loadgen")]).

End Cases.

(* ================================================================== *)
(** * Properties *)
(* ================================================================== *)

Import Py.

(** ** [hex] and [int(_, 16)] *)

Section HexRoundTrip.







End HexRoundTrip.

(** ** The transport: [Rpc.call] *)

Import Loadgen.
Local Open Scope py_scope.

Ltac run_M :=
  unfold call, drain_rpc_counter, inc, RPC_REQ_inc, RPC_LAT_observe, perf_counter, post,
    raise_for_status, response_json, asyncio_sleep,
    ACH_TPS_set, RPS_set, MGAS_S_set, FAIL_RT_set,
    bind, ret, raise, try_except, lift, gets, modify; cbn.

(** Every path through [call]: the answer of the endpoint, the status
    test, the body, the [error] member, the [result] member. *)
Ltac call_cases w method params :=
  run_M;
  destruct (http w (mkPayload "2.0" method params (_id (rpc w) + 1)))
    as [|?status ?body]; cbn;
  [|destruct ((200 <=? status) && (status <=? 299)); cbn;
    [destruct body as [?data|]; cbn;
     [destruct (contains "error" data) as [?e|[]]; cbn;
      [|destruct (getitem data "error"); cbn|destruct (getitem data "result"); cbn]|]|]].

Lemma upd_same {A} (f : string -> A) k v : upd f k v k = v.
Proof. unfold upd. now rewrite String.eqb_refl. Qed.

Lemma upd_other {A} (f : string -> A) k k' v : k' <> k -> upd f k v k' = f k'.
Proof. unfold upd. intros H. apply String.eqb_neq in H. now rewrite H. Qed.

Section Transport.

Variables (method : string) (params : json) (w : World).

Lemma call_result :
  fst (call method params w) = decode (http w (request method params w)).
Proof. unfold request. call_cases w method params; reflexivity. Qed.

Lemma call_rpc :
  rpc (snd (call method params w)) = mkRpc (_id (rpc w) + 1) (_rpc_counter (rpc w) + 1).
Proof. call_cases w method params; reflexivity. Qed.

Lemma call_log :
  log (snd (call method params w)) = log w ++ [EvPost (request method params w)].
Proof. call_cases w method params; reflexivity. Qed.

Lemma call_env :
  http (snd (call method params w)) = http w /\
  clock (snd (call method params w)) = clock w.
Proof. call_cases w method params; split; reflexivity. Qed.

(** [call] leaves the transaction counters and the gauges alone and adds
    one to the request counter of its method. *)
Lemma call_registry :
  let r := reg w in
  let r' := reg (snd (call method params w)) in
  TX_SENT r' = TX_SENT r /\ TX_OK r' = TX_OK r /\ TX_ERR r' = TX_ERR r /\
  ACH_TPS r' = ACH_TPS r /\ RPS r' = RPS r /\ MGAS_S r' = MGAS_S r /\
  FAIL_RT r' = FAIL_RT r /\
  RPC_REQ r' = upd (RPC_REQ r) method (RPC_REQ r method + 1).
Proof. call_cases w method params; repeat split; reflexivity. Qed.

(** The latency observations [call] adds for its method: one when the
    request itself fails or when a result comes back, two when a response
    arrived and was then rejected. *)
Lemma call_latency :
  exists obs,
    RPC_LAT (reg (snd (call method params w))) method = RPC_LAT (reg w) method ++ obs /\
    length obs = observations (http w (request method params w)).
Proof.
  unfold observations, request.
  call_cases w method params; rewrite ?upd_same.
  all: try (eexists [_]; split; reflexivity).
  all: try (rewrite <- app_assoc; eexists [_; _]; split; reflexivity).
Qed.

End Transport.

(** C1. Claim: every invocation of [call], whether it returns or fails,
    records exactly one latency observation for its method and adds
    exactly one to that method's request counter.  The code does add one
    to the request counter on every path, but against a node that answers
    with a JSON-RPC error it records two latency observations: the one
    made when the response arrived and the one of the [except] clause. *)
Theorem call_rpc_error_observes_twice :
  let w := Fixtures.fresh Fixtures.rejecting_node in
  let r := call "eth_sendTransaction" (JArr []) w in
  fst r = inl (RuntimeError Fixtures.rpc_error) /\
  RPC_REQ (reg (snd r)) "eth_sendTransaction" = RPC_REQ (reg w) "eth_sendTransaction" + 1 /\
  length (RPC_LAT (reg w) "eth_sendTransaction") = 0%nat /\
  length (RPC_LAT (reg (snd r)) "eth_sendTransaction") = 2%nat.
Proof. cbv zeta. repeat split. Qed.

(** On every path the request counter of the method goes up by one and
    the histogram of the method receives one observation or two. *)
Lemma call_counts method params w :
  let w' := snd (call method params w) in
  RPC_REQ (reg w') method = RPC_REQ (reg w) method + 1 /\
  length (RPC_LAT (reg w') method) =
    (length (RPC_LAT (reg w) method) + observations (http w (request method params w)))%nat.
Proof.
  cbv zeta. split.
  - destruct (call_registry method params w) as (_ & _ & _ & _ & _ & _ & _ & ->).
    apply upd_same.
  - destruct (call_latency method params w) as (obs & -> & <-). apply length_app.
Qed.

(** ** A run of calls *)

Lemma posts_app l1 l2 : posts (l1 ++ l2) = posts l1 ++ posts l2.
Proof.
  induction l1 as [|[c|p|d] l1 IH]; cbn; rewrite ?IH; reflexivity.
Qed.

Lemma calls_cons method params cs w :
  calls ((method, params) :: cs) w = calls cs (snd (call method params w)).
Proof.
  cbn [calls]. unfold bind, try_except, ret.
  destruct (call method params w) as [[e|v] w']; reflexivity.
Qed.

(** [n] calls in a row use the [n] ids after the current one, in order,
    and leave the call counter [n] higher, whatever the node answers. *)
Lemma calls_ids cs : forall w,
  let w' := snd (calls cs w) in
  map req_id (posts (log w')) =
    map req_id (posts (log w))
      ++ map (fun k => _id (rpc w) + Z.of_nat k) (seq 1 (length cs)) /\
  _rpc_counter (rpc w') = _rpc_counter (rpc w) + Z.of_nat (length cs) /\
  _id (rpc w') = _id (rpc w) + Z.of_nat (length cs).
Proof.
  induction cs as [|[method params] cs IH]; intros w; cbv zeta.
  - cbn. rewrite app_nil_r. repeat split; lia.
  - rewrite calls_cons.
    destruct (IH (snd (call method params w))) as (Hp & Hc & Hi).
    rewrite Hp, Hc, Hi, call_log, call_rpc, posts_app, map_app.
    cbn [length seq map posts app _id _rpc_counter req_id request].
    rewrite <- app_assoc. cbn [app]. repeat split; try lia.
    f_equal. f_equal.
    rewrite <- (seq_shift (length cs) 1), map_map. apply map_ext. intros k. lia.
Qed.

(** ** Transactions: [send_tx] and the unit of work *)

Lemma send_tx_unfold sender to_addr value_eth w :
  send_tx sender to_addr value_eth w =
  match fee_call w with
  | (inl e, w1) => (inl e, snd (inc CTxErr w1))
  | (inr tip, w1) =>
      match tip_to_int tip with
      | inl e => (inl e, snd (inc CTxErr w1))
      | inr tip_wei =>
          match submit_call sender to_addr value_eth tip_wei w with
          | (inl e, w2) => (inl e, snd (inc CTxErr w2))
          | (inr _, w2) => (inr tt, snd (inc CTxOk w2))
          end
      end
  end.
Proof.
  unfold submit_call, fee_call, attempted, send_tx.
  unfold bind at 1. unfold inc at 1. unfold modify at 1. cbv iota.
  unfold try_except, bind. cbn [snd inc modify].
  destruct (call "eth_maxPriorityFeePerGas" _ _) as [[e|tip] w1]; [reflexivity|].
  unfold lift. destruct (tip_to_int tip) as [e|tip_wei]; [reflexivity|].
  cbn [snd].
  destruct (call "eth_sendTransaction" _ _) as [[e|v] w2]; reflexivity.
Qed.

Lemma inc_effect c w :
  let r := reg w in
  let r' := reg (snd (inc c w)) in
  TX_SENT r' = TX_SENT r + match c with CTxSent => 1 | _ => 0 end /\
  TX_OK r' = TX_OK r + match c with CTxOk => 1 | _ => 0 end /\
  TX_ERR r' = TX_ERR r + match c with CTxErr => 1 | _ => 0 end /\
  log (snd (inc c w)) = log w ++ [EvInc c] /\
  rpc (snd (inc c w)) = rpc w.
Proof. destruct c; cbn; repeat split; lia. Qed.






(** ** The sampler *)

Lemma Qltb_lt a b : Qltb a b = true <-> (a < b)%Q.
Proof.
  unfold Qltb. rewrite negb_true_iff. split; intros H.
  - apply Qnot_le_lt. intros Hle. apply Qle_bool_iff in Hle. congruence.
  - destruct (Qle_bool b a) eqn:E; [|reflexivity].
    apply Qle_bool_iff in E. exfalso. exact (Qlt_not_le _ _ H E).
Qed.

Lemma truediv_nonzero a b : ~ (b == 0)%Q -> truediv a b = inr (a / b)%Q.
Proof.
  intros H. unfold truediv. destruct (Qeq_bool b 0) eqn:E; [|reflexivity].
  apply Qeq_bool_iff in E. contradiction.
Qed.

Lemma truediv_pos a b : (0 < b)%Q -> truediv a b = inr (a / b)%Q.
Proof.
  intros H. apply truediv_nonzero. intros E. rewrite E in H. exact (Qlt_irrefl _ H).
Qed.

Lemma inject_Z_pos n : 0 < n -> (0 < inject_Z n)%Q.
Proof. intros H. change 0%Q with (inject_Z 0). now rewrite <- Zlt_Qlt. Qed.

Lemma inject_Z_nonzero n : n <> 0 -> ~ (inject_Z n == 0)%Q.
Proof. intros H E. apply H. unfold Qeq in E. cbn in E. lia. Qed.

(** Steps 1 and 2 of a window never raise when the window length is not
    zero; they end in the state [rated] and, up to the sleep that came
    before, in the world [sampled]. *)
Lemma sampler_rates_run W st w :
  ~ (W == 0)%Q ->
  sampler_rates W st (snd (asyncio_sleep W w)) = (inr (rated st w), sampled W st w).
Proof.
  intros HW. unfold sampler_rates, rated, sampled, asyncio_sleep.
  unfold bind at 1. unfold gets at 1. cbv iota beta.
  unfold bind at 1. unfold gets at 1. cbv iota beta.
  cbn [snd modify with_log reg TX_OK TX_ERR].
  set (ok := TX_OK (reg w)). set (err := TX_ERR (reg w)).
  unfold bind at 1.
  destruct (Qltb 0 W) eqn:EW.
  - apply Qltb_lt in EW. unfold lift at 1. rewrite (truediv_pos _ _ EW).
    destruct (0 <? ok - last_ok st + (err - last_err st)) eqn:ET.
    + apply Z.ltb_lt in ET. run_M.
      rewrite (truediv_pos _ _ (inject_Z_pos _ ET)). cbn.
      rewrite (truediv_nonzero _ _ HW). reflexivity.
    + run_M. rewrite (truediv_nonzero _ _ HW). reflexivity.
  - destruct (0 <? ok - last_ok st + (err - last_err st)) eqn:ET.
    + apply Z.ltb_lt in ET. run_M.
      rewrite (truediv_pos _ _ (inject_Z_pos _ ET)). cbn.
      rewrite (truediv_nonzero _ _ HW). reflexivity.
    + run_M. rewrite (truediv_nonzero _ _ HW). reflexivity.
Qed.

Lemma sampler_window_unfold W st w :
  ~ (W == 0)%Q ->
  sampler_window W st w = sampler_mgas (rated st w) (sampled W st w).
Proof.
  intros HW. unfold sampler_window. unfold bind at 1.
  change (asyncio_sleep W w) with (inr tt : result unit, snd (asyncio_sleep W w)).
  cbv iota. unfold bind at 1. rewrite (sampler_rates_run _ _ _ HW). reflexivity.
Qed.

Lemma same_rates_trans r1 r2 r3 : same_rates r1 r2 -> same_rates r2 r3 -> same_rates r1 r3.
Proof. unfold same_rates. intuition congruence. Qed.

Lemma call_same_rates m ps w : same_rates (reg w) (reg (snd (call m ps w))).
Proof.
  pose proof (call_registry m ps w) as H. cbv zeta in H. unfold same_rates. tauto.
Qed.

(** One [x <- lift r ;; ...]: splits on [r]. *)
Ltac step_lift :=
  match goal with
  | |- context [bind (lift ?x) _ ?w] =>
      unfold bind at 1; unfold lift at 1;
      destruct x as [?e|?v] eqn:?E; cbn [fst snd]
  end.

(** Step 3 leaves the transaction counters and the gauges of steps 1 and
    2 as they are, however it ends. *)
Lemma sampler_mgas_frame st w :
  same_rates (reg w) (reg (snd (sampler_mgas st w))).
Proof.
  unfold sampler_mgas. unfold bind at 1.
  pose proof (call_same_rates "eth_getBlockByNumber" latest_block w) as H1.
  destruct (call "eth_getBlockByNumber" latest_block w) as [[e|blk] w1];
    cbn [fst snd] in *; [exact H1|].
  step_lift; [exact H1|].
  destruct (last_num st <? v).
  - step_lift; [exact H1|].
    unfold bind at 1.
    pose proof (call_same_rates "eth_getBlockByHash" (JArr [v0; JBool false]) w1) as H2.
    destruct (call "eth_getBlockByHash" _ w1) as [[e|parent] w2]; cbn [fst snd] in *;
      [exact (same_rates_trans _ _ _ H1 H2)|].
    pose proof (same_rates_trans _ _ _ H1 H2) as H.
    do 5 (step_lift; [exact H|]).
    exact H.
  - exact H1.
Qed.

Lemma getitem_raises v k e : getitem v k = inl e -> e <> ZeroDivisionError.
Proof.
  destruct v; cbn; try (intros [= <-]; discriminate).
  destruct (assoc k kv); intros [= <-]; discriminate.
Qed.

Lemma field16_raises v k e : field16 v k = inl e -> e <> ZeroDivisionError.
Proof.
  unfold field16. destruct (getitem v k) as [e'|x] eqn:G.
  - intros [= <-]. eapply getitem_raises, G.
  - destruct x; cbn; try (intros [= <-]; discriminate).
    unfold int16_str, signed.
    destruct (lstrip s) as [|c s']; [intros [= <-]; discriminate|].
    destruct (Ascii.eqb c "-"); [|destruct (Ascii.eqb c "+")];
      destruct (parse_magnitude _); intros [= <-]; discriminate.
Qed.

Lemma decode_raises r e : decode r = inl e -> e <> ZeroDivisionError.
Proof.
  destruct r as [|status body]; cbn; [intros [= <-]; discriminate|].
  destruct ((200 <=? status) && (status <=? 299)); [|intros [= <-]; discriminate].
  destruct body as [data|]; [|intros [= <-]; discriminate].
  destruct (contains "error" data) as [e'|[]] eqn:C.
  - destruct data; cbn in C; try discriminate; intros [= <-]; injection C as <-; discriminate.
  - destruct (getitem data "error") eqn:G; intros [= <-]; [eapply getitem_raises, G|discriminate].
  - apply getitem_raises.
Qed.

Lemma call_raises m ps w e : fst (call m ps w) = inl e -> e <> ZeroDivisionError.
Proof. rewrite call_result. apply decode_raises. Qed.

Lemma int_truediv_in_range a b :
  b <> 0 -> (Qabs (inject_Z a / inject_Z b) < float_limit)%Q ->
  int_truediv a b = inr (inject_Z a / inject_Z b)%Q.
Proof.
  intros Hb Hr. unfold int_truediv.
  apply Z.eqb_neq in Hb. rewrite Hb.
  destruct (Qle_bool float_limit _) eqn:E; [|reflexivity].
  apply Qle_bool_iff in E. exfalso. exact (Qlt_not_le _ _ Hr E).
Qed.

Lemma int_truediv_overflow a b :
  b <> 0 -> (float_limit <= Qabs (inject_Z a / inject_Z b))%Q ->
  int_truediv a b = inl OverflowError.
Proof.
  intros Hb Hr. unfold int_truediv.
  apply Z.eqb_neq in Hb. rewrite Hb.
  apply Qle_bool_iff in Hr. now rewrite Hr.
Qed.

Lemma int_truediv_raises a b e :
  b <> 0 -> int_truediv a b = inl e -> e = OverflowError.
Proof.
  intros Hb. unfold int_truediv. apply Z.eqb_neq in Hb. rewrite Hb.
  destruct (Qle_bool float_limit _); congruence.
Qed.

(** Step 3 never divides by zero, and when it completes it leaves the
    counter baseline alone and the gauge at the value it remembers. *)
Lemma sampler_mgas_result st w r w' :
  sampler_mgas st w = (r, w') ->
  match r with
  | inl e => e <> ZeroDivisionError
  | inr st' =>
      last_ok st' = last_ok st /\ last_err st' = last_err st /\
      MGAS_S (reg w') = last_mgas st'
  end.
Proof.
  unfold sampler_mgas. unfold bind at 1.
  pose proof (call_raises "eth_getBlockByNumber" latest_block w) as H1.
  destruct (call "eth_getBlockByNumber" latest_block w) as [[e|blk] w1];
    cbn [fst snd] in *; [intros [= <- <-]; now apply H1|].
  step_lift; [intros [= <- <-]; eapply field16_raises; eassumption|].
  destruct (last_num st <? v); [|cbn; intros [= <- <-]; auto].
  step_lift; [intros [= <- <-]; eapply getitem_raises; eassumption|].
  unfold bind at 1.
  pose proof (call_raises "eth_getBlockByHash" (JArr [v0; JBool false]) w1) as H2.
  destruct (call "eth_getBlockByHash" _ w1) as [[e|parent] w2]; cbn [fst snd] in *;
    [intros [= <- <-]; now apply H2|].
  do 3 (step_lift; [intros [= <- <-]; eapply field16_raises; eassumption|]).
  step_lift.
  { intros [= <- <-].
    match goal with H : int_truediv _ _ = inl _ |- _ =>
      apply int_truediv_raises in H; [|lia]; rewrite H end.
    discriminate. }
  unfold bind at 1. unfold lift at 1.
  rewrite (truediv_nonzero _ (inject_Z 1000000)) by (apply inject_Z_nonzero; lia).
  cbn. intros [= <- <-]. auto.
Qed.

(** C3. In a window of length [W > 0] the achieved-TPS gauge is set to
    okD / W and the failure-rate gauge to errD / (okD + errD) when that
    sum is positive and to 0 otherwise, where okD and errD are the
    increases of the ok and error counters since the previous snapshot;
    no division by zero is raised, and the snapshot moves to the current
    counters. *)
Theorem sampler_window_rates W st w :
  (0 < W)%Q ->
  let okd := TX_OK (reg w) - last_ok st in
  let errd := TX_ERR (reg w) - last_err st in
  let r := sampler_window W st w in
  ACH_TPS (reg (snd r)) = (inject_Z okd / W)%Q /\
  FAIL_RT (reg (snd r)) =
    (if 0 <? okd + errd then inject_Z errd / inject_Z (okd + errd) else 0)%Q /\
  fst r <> inl ZeroDivisionError /\
  (forall st', fst r = inr st' ->
     last_ok st' = TX_OK (reg w) /\ last_err st' = TX_ERR (reg w)).
Proof.
  intros HW okd errd r.
  assert (HW0 : ~ (W == 0)%Q) by (intros E; rewrite E in HW; exact (Qlt_irrefl _ HW)).
  subst r. rewrite (sampler_window_unfold _ _ _ HW0).
  destruct (sampler_mgas_frame (rated st w) (sampled W st w)) as (_ & _ & _ & HA & _ & HF).
  pose proof (sampler_mgas_result (rated st w) (sampled W st w)) as HR.
  destruct (sampler_mgas (rated st w) (sampled W st w)) as [r w'].
  specialize (HR r w' eq_refl). cbn [fst snd] in *.
  rewrite HA, HF. cbn [sampled reg ACH_TPS FAIL_RT].
  apply Qltb_lt in HW. rewrite HW. repeat split.
  - intros ->. now apply HR.
  - subst r. apply HR.
  - subst r. apply HR.
Qed.

(** With W = 5, ok going from 20 to 45 and err from 5 to 10, the
    achieved TPS is 5 and the failure rate 5/30. *)
Lemma sampler_window_rates_example :
  let r := sampler_window 5 Fixtures.seen15 (Fixtures.busy 0) in
  TX_OK (reg (Fixtures.busy 0)) - last_ok Fixtures.seen15 = 25 /\
  TX_ERR (reg (Fixtures.busy 0)) - last_err Fixtures.seen15 = 5 /\
  (ACH_TPS (reg (snd r)) == 5)%Q /\
  (FAIL_RT (reg (snd r)) == 5 # 30)%Q.
Proof.
  destruct (sampler_window_rates 5 Fixtures.seen15 (Fixtures.busy 0) eq_refl)
    as (HA & HF & _).
  cbv zeta. rewrite HA, HF. repeat split.
Defined.

(** C5. In a window that finds a head block newer than the recorded one,
    the divisor max(ts - pts, 1) is at least one.  When the quotient
    gasUsed / max(ts - pts, 1) is within the range of a float, the MGas/s
    gauge is set to that quotient over 10^6 and the recorded block number
    moves to the new head; when it is not, the division raises
    [OverflowError], the window ends with it and the gauge keeps its
    value. *)
Theorem sampler_new_block W st w blk parent hash num ts pts gas :
  ~ (W == 0)%Q ->
  decode (http w (head_request w)) = inr blk ->
  field16 blk "number" = inr num ->
  last_num st < num ->
  getitem blk "parentHash" = inr hash ->
  decode (http w (parent_request w hash)) = inr parent ->
  field16 blk "timestamp" = inr ts ->
  field16 parent "timestamp" = inr pts ->
  field16 blk "gasUsed" = inr gas ->
  let dt := Z.max (ts - pts) 1 in
  let mgas := ((inject_Z gas / inject_Z dt) / inject_Z 1000000)%Q in
  let r := sampler_window W st w in
  1 <= dt /\
  ((Qabs (inject_Z gas / inject_Z dt) < float_limit)%Q ->
   fst r = inr (mkSampler (TX_OK (reg w)) (TX_ERR (reg w)) num mgas) /\
   MGAS_S (reg (snd r)) = mgas) /\
  ((float_limit <= Qabs (inject_Z gas / inject_Z dt))%Q ->
   fst r = inl OverflowError /\
   MGAS_S (reg (snd r)) = MGAS_S (reg w)).
Proof.
  intros HW Hblk Hnum Hlt Hhash Hparent Hts Hpts Hgas dt mgas r.
  split; [unfold dt; lia|].
  assert (Hdt0 : dt <> 0) by (unfold dt; lia).
  subst r. rewrite (sampler_window_unfold _ _ _ HW).
  enough (H : exists w2,
            MGAS_S (reg w2) = MGAS_S (reg w) /\
            sampler_mgas (rated st w) (sampled W st w) =
            match int_truediv gas dt with
            | inl e => (inl e, w2)
            | inr per_s =>
                (inr (mkSampler (TX_OK (reg w)) (TX_ERR (reg w)) num
                        (per_s / inject_Z 1000000)%Q),
                 snd (MGAS_S_set (per_s / inject_Z 1000000)%Q w2))
            end).
  { destruct H as (w2 & HM & ->). split; intros Hr.
    - rewrite (int_truediv_in_range _ _ Hdt0 Hr). split; reflexivity.
    - rewrite (int_truediv_overflow _ _ Hdt0 Hr). split; [reflexivity|exact HM]. }
  unfold sampler_mgas. unfold bind at 1.
  pose proof (call_result "eth_getBlockByNumber" latest_block (sampled W st w)) as R1.
  pose proof (call_rpc "eth_getBlockByNumber" latest_block (sampled W st w)) as I1.
  pose proof (call_env "eth_getBlockByNumber" latest_block (sampled W st w)) as [E1 _].
  destruct (call_registry "eth_getBlockByNumber" latest_block (sampled W st w))
    as (_ & _ & _ & _ & _ & M1 & _).
  change (request "eth_getBlockByNumber" latest_block (sampled W st w))
    with (head_request w) in R1.
  change (http (sampled W st w)) with (http w) in R1, E1.
  change (MGAS_S (reg (sampled W st w))) with (MGAS_S (reg w)) in M1.
  rewrite Hblk in R1.
  destruct (call "eth_getBlockByNumber" latest_block (sampled W st w)) as [r1 w1].
  cbn [fst snd] in *. subst r1.
  unfold bind at 1. unfold lift at 1. rewrite Hnum.
  change (last_num (rated st w)) with (last_num st).
  apply Z.ltb_lt in Hlt. rewrite Hlt.
  unfold bind at 1. unfold lift at 1. rewrite Hhash.
  unfold bind at 1.
  pose proof (call_result "eth_getBlockByHash" (JArr [hash; JBool false]) w1) as R2.
  destruct (call_registry "eth_getBlockByHash" (JArr [hash; JBool false]) w1)
    as (_ & _ & _ & _ & _ & M2 & _).
  assert (Hreq : request "eth_getBlockByHash" (JArr [hash; JBool false]) w1
                 = parent_request w hash).
  { unfold request, parent_request. rewrite I1. cbn. f_equal. lia. }
  rewrite Hreq, E1, Hparent in R2.
  destruct (call "eth_getBlockByHash" _ w1) as [r2 w2]. cbn [fst snd] in *. subst r2.
  unfold bind at 1. unfold lift at 1. rewrite Hts.
  unfold bind at 1. unfold lift at 1. rewrite Hpts.
  unfold bind at 1. unfold lift at 1. rewrite Hgas.
  fold dt.
  exists w2. split; [congruence|].
  unfold bind at 1. unfold lift at 1.
  destruct (int_truediv gas dt) as [e|per_s]; [reflexivity|].
  unfold bind at 1. unfold lift at 1.
  rewrite (truediv_nonzero _ (inject_Z 1000000)) by (apply inject_Z_nonzero; lia).
  reflexivity.
Qed.

(** A block that used 15,000,000 gas, stamped 112 after a parent stamped
    100, gives 12 seconds and 1.25 MGas/s. *)
Lemma sampler_new_block_example :
  let r := sampler_window 5 Fixtures.seen15 (Fixtures.busy 0) in
  Z.max (112 - 100) 1 = 12 /\
  (MGAS_S (reg (snd r)) == 5 # 4)%Q /\
  (exists st', fst r = inr st' /\ last_num st' = 16 /\ (last_mgas st' == 5 # 4)%Q).
Proof.
  assert (HW : ~ (5 == 0)%Q) by discriminate.
  destruct (sampler_new_block 5 Fixtures.seen15 (Fixtures.busy 0)
              Fixtures.block16 Fixtures.block15 (JStr "0xaa") 16 112 100 15000000
              HW eq_refl eq_refl eq_refl eq_refl eq_refl eq_refl eq_refl eq_refl)
    as (_ & Hin & _).
  destruct (Hin eq_refl) as (Hst & Hg).
  cbv zeta. rewrite Hg, Hst. split; [reflexivity|]. split; [reflexivity|].
  eexists. split; [reflexivity|]. split; reflexivity.
Defined.

(** A head block that reports 2^1040 gas: the quotient is too large for
    a float, the window ends in [OverflowError], and the gauge is still
    at 0, not at 2^1040 / 12 / 10^6. *)
Lemma sampler_new_block_out_of_range :
  field16 Fixtures.block16_flooded "gasUsed" = inr (2 ^ 1040) /\
  fst (sampler_window 5 Fixtures.seen15 Fixtures.flooded) = inl OverflowError /\
  MGAS_S (reg (snd (sampler_window 5 Fixtures.seen15 Fixtures.flooded))) = 0%Q /\
  ~ (MGAS_S (reg (snd (sampler_window 5 Fixtures.seen15 Fixtures.flooded)))
     == (inject_Z (2 ^ 1040) / inject_Z 12) / inject_Z 1000000)%Q.
Proof.
  split; [vm_compute; reflexivity|]. split; [vm_compute; reflexivity|].
  split; [vm_compute; reflexivity|].
  assert (E : MGAS_S (reg (snd (sampler_window 5 Fixtures.seen15 Fixtures.flooded))) = 0%Q)
    by (vm_compute; reflexivity).
  rewrite E. intros H. vm_compute in H. discriminate.
Qed.

(** C6. In a window that finds no newer head block, the MGas/s gauge is
    set again to the value computed last, so it keeps the value it had,
    the recorded block number and that value stay as they were, and the
    parent block is not asked for. *)
Theorem sampler_quiet_window W st w blk num :
  ~ (W == 0)%Q ->
  decode (http w (head_request w)) = inr blk ->
  field16 blk "number" = inr num ->
  num <= last_num st ->
  MGAS_S (reg w) = last_mgas st ->
  let r := sampler_window W st w in
  fst r = inr (mkSampler (TX_OK (reg w)) (TX_ERR (reg w)) (last_num st) (last_mgas st)) /\
  MGAS_S (reg (snd r)) = MGAS_S (reg w) /\
  posts (log (snd r)) = posts (log w) ++ [head_request w].
Proof.
  intros HW Hblk Hnum Hle Hinv r.
  subst r. rewrite (sampler_window_unfold _ _ _ HW).
  enough (H : exists w', sampler_mgas (rated st w) (sampled W st w) = (inr (rated st w), w')
              /\ MGAS_S (reg w') = MGAS_S (reg w)
              /\ posts (log w') = posts (log w) ++ [head_request w]).
  { destruct H as (w' & -> & H). split; [reflexivity|exact H]. }
  unfold sampler_mgas. unfold bind at 1.
  pose proof (call_result "eth_getBlockByNumber" latest_block (sampled W st w)) as R1.
  pose proof (call_log "eth_getBlockByNumber" latest_block (sampled W st w)) as L1.
  change (request "eth_getBlockByNumber" latest_block (sampled W st w))
    with (head_request w) in R1, L1.
  change (http (sampled W st w)) with (http w) in R1.
  rewrite Hblk in R1.
  destruct (call "eth_getBlockByNumber" latest_block (sampled W st w)) as [r1 w1].
  cbn [fst snd] in *. subst r1.
  unfold bind at 1. unfold lift at 1. rewrite Hnum.
  change (last_num (rated st w)) with (last_num st).
  apply Z.ltb_ge in Hle. rewrite Hle.
  eexists. split; [reflexivity|]. cbn. rewrite Hinv. split; [reflexivity|].
  rewrite L1. cbn. rewrite !posts_app. cbn. now rewrite app_nil_r.
Qed.

(** With block 16 recorded and the gauge at 1.25, a window that sees
    block 16 again leaves the gauge at 1.25. *)
Lemma sampler_quiet_window_example :
  let r := sampler_window 5 Fixtures.seen16 (Fixtures.busy (5 # 4)) in
  MGAS_S (reg (snd r)) = (5 # 4)%Q /\
  (exists st', fst r = inr st' /\ last_num st' = 16 /\ last_mgas st' = (5 # 4)%Q).
Proof.
  assert (HW : ~ (5 == 0)%Q) by discriminate.
  destruct (sampler_quiet_window 5 Fixtures.seen16 (Fixtures.busy (5 # 4))
              Fixtures.block16 16 HW eq_refl eq_refl ltac:(cbn; lia) eq_refl)
    as (Hst & Hg & _).
  cbv zeta. rewrite Hg, Hst. split; [reflexivity|].
  eexists. split; [reflexivity|]. split; reflexivity.
Defined.

(** The gauge holds the value the sampler remembers: after the priming
    call on a registry whose gauge is still 0, and after every window
    that completes; so it does whenever [sampler] has come through [n]
    windows, which is what C6 asks of the world a window starts in. *)
Lemma sampler_prime_gauge w r w' :
  MGAS_S (reg w) = 0%Q ->
  sampler_prime w = (r, w') ->
  match r with
  | inl _ => True
  | inr st => MGAS_S (reg w') = last_mgas st
  end.
Proof.
  intros H0. unfold sampler_prime.
  unfold bind at 1. unfold gets at 1. cbv iota beta.
  unfold bind at 1. unfold gets at 1. cbv iota beta.
  unfold bind at 1.
  destruct (call_registry "eth_getBlockByNumber" latest_block w)
    as (_ & _ & _ & _ & _ & HM & _).
  destruct (call "eth_getBlockByNumber" latest_block w) as [[e|head] w1];
    cbn [fst snd] in *; [intros [= <- <-]; exact I|].
  unfold bind, lift. destruct (field16 head "number"); cbn; intros [= <- <-]; [exact I|].
  cbn. congruence.
Qed.

Lemma sampler_window_gauge W st w r w' :
  ~ (W == 0)%Q ->
  sampler_window W st w = (r, w') ->
  match r with
  | inl _ => True
  | inr st' => MGAS_S (reg w') = last_mgas st'
  end.
Proof.
  intros HW. rewrite (sampler_window_unfold _ _ _ HW). intros E.
  pose proof (sampler_mgas_result _ _ _ _ E) as HR.
  destruct r; [exact I|apply HR].
Qed.

Lemma windows_gauge W n : forall st w r w',
  ~ (W == 0)%Q ->
  MGAS_S (reg w) = last_mgas st ->
  windows W n st w = (r, w') ->
  match r with
  | inl _ => True
  | inr st' => MGAS_S (reg w') = last_mgas st'
  end.
Proof.
  induction n as [|n IH]; intros st w r w' HW Hinv.
  - cbn. intros [= <- <-]. exact Hinv.
  - cbn [windows]. unfold bind.
    pose proof (sampler_window_gauge W st w) as H1.
    destruct (sampler_window W st w) as [[e|st1] w1].
    + intros [= <- <-]. exact I.
    + apply IH; [exact HW|]. exact (H1 _ _ HW eq_refl).
Qed.

Lemma sampler_remembers_gauge W n w st :
  ~ (W == 0)%Q ->
  MGAS_S (reg w) = 0%Q ->
  fst (sampler W n w) = inr st ->
  MGAS_S (reg (snd (sampler W n w))) = last_mgas st.
Proof.
  intros HW H0. unfold sampler, bind.
  pose proof (sampler_prime_gauge w) as HP.
  destruct (sampler_prime w) as [[e|st0] w0]; cbn [fst snd]; [discriminate|].
  specialize (HP _ _ H0 eq_refl). cbn in HP.
  pose proof (windows_gauge W n st0 w0) as HWs.
  destruct (windows W n st0 w0) as [r w']. cbn [fst snd]. intros ->.
  exact (HWs _ _ HW HP eq_refl).
Qed.

(** ** The pacer *)

Lemma wait_deadline_returns g w : fst (wait_deadline g w) = inr tt.
Proof.
  unfold wait_deadline. run_M. destruct (Qltb _ _); reflexivity.
Qed.

(** *** The deadlines in binary64 *)

Lemma deadline_shift k : forall t0 i,
  Pacer.deadline (S k) t0 i = Pacer.deadline k (Pacer.fadd t0 i) i.
Proof.
  induction k as [|k IH]; intros t0 i; [reflexivity|].
  change (Pacer.deadline (S (S k)) t0 i)
    with (Pacer.fadd (Pacer.deadline (S k) t0 i) i).
  rewrite IH. reflexivity.
Qed.

(** Resuming the generator adds one interval to the deadline, whatever
    the clock shows. *)
Lemma pacer_resume g tl :
  fst (Pacer.anext (Pacer.AtYield g) tl) = Pacer.AtYield (Pacer.advance g).
Proof. reflexivity. Qed.

Lemma pacer_ticks_resumed k : forall g tl,
  fst (Pacer.ticks k (Pacer.AtYield g) tl)
  = Pacer.AtYield
      (Pacer.mkLimiter (Pacer.interval g)
         (Pacer.deadline k (Pacer.next_t g) (Pacer.interval g))).
Proof.
  induction k as [|k IH]; intros g tl.
  - destruct g. reflexivity.
  - cbn [Pacer.ticks Pacer.anext]. rewrite IH, deadline_shift. reflexivity.
Qed.

(** C4. For a rate above 0 the interval is the float [1.0 / tps] and the
    deadline of the k-th tick (counting from 0) is the first clock
    reading with the interval added k times, each addition a binary64
    addition.  Nothing else enters it: two runs that start at the same
    reading have the same deadlines, however late the ticks of either
    fired; and in every state and at every time a resume moves the
    deadline by one addition of the interval. *)
Theorem pacer_deadlines tps tl k :
  Controller.fltb Controller.lit_0_0 tps = true ->
  let i := Controller.fdiv Pacer.lit_1_0 tps in
  fst (Pacer.ticks (S k) (Pacer.rate_limiter tps) tl)
  = Pacer.AtYield
      (Pacer.mkLimiter i (Pacer.deadline k (Pacer.clock tl (Pacer.reads tl)) i)) /\
  Pacer.deadline (S k) (Pacer.clock tl (Pacer.reads tl)) i
  = Pacer.fadd (Pacer.deadline k (Pacer.clock tl (Pacer.reads tl)) i) i /\
  (forall tl',
     Pacer.clock tl' (Pacer.reads tl') = Pacer.clock tl (Pacer.reads tl) ->
     fst (Pacer.ticks (S k) (Pacer.rate_limiter tps) tl')
     = fst (Pacer.ticks (S k) (Pacer.rate_limiter tps) tl)) /\
  (forall g tl',
     fst (Pacer.anext (Pacer.AtYield g) tl') = Pacer.AtYield (Pacer.advance g)).
Proof.
  intros Hr i.
  assert (E : forall tl0,
            fst (Pacer.ticks (S k) (Pacer.rate_limiter tps) tl0)
            = Pacer.AtYield
                (Pacer.mkLimiter i
                   (Pacer.deadline k (Pacer.clock tl0 (Pacer.reads tl0)) i))).
  { intros tl0. cbn [Pacer.ticks]. unfold Pacer.rate_limiter, Pacer.anext.
    rewrite Hr. unfold Pacer.perf_counter. rewrite pacer_ticks_resumed. reflexivity. }
  split; [apply E|]. split; [reflexivity|]. split.
  - intros tl' H. rewrite !E, H. reflexivity.
  - intros g tl'. apply pacer_resume.
Qed.

(** At 10 ticks per second the deadline of tick 3 is 0.1 + 0.1 + 0.1
    after the start, the float 0.30000000000000004, on the clock that
    shows 0, 1, 4, 9, ... seconds as on the one that runs evenly. *)
Lemma pacer_deadlines_example :
  fst (Pacer.ticks 4 (Pacer.rate_limiter (Controller.of_int 10)) Pacer.late)
  = Pacer.AtYield
      (Pacer.mkLimiter (S754_finite false 7205759403792794 (-56))
         (S754_finite false 5404319552844596 (-54))) /\
  fst (Pacer.ticks 4 (Pacer.rate_limiter (Controller.of_int 10)) Pacer.even_paced)
  = fst (Pacer.ticks 4 (Pacer.rate_limiter (Controller.of_int 10)) Pacer.late).
Proof.
  destruct (pacer_deadlines (Controller.of_int 10) Pacer.late 3 eq_refl)
    as (E & _ & I & _).
  split.
  - rewrite E. vm_compute. reflexivity.
  - apply I. reflexivity.
Defined.

(** The deadline of tick 10 at 10 ticks per second, from a start at 0:
    ten additions of the float 0.1 give 0.9999999999999999, which is not
    0 + 10 * (1/10), neither as a number nor with the float product and
    sum; and the deadline of tick 3, 0.30000000000000004, is not the
    number 3/10. *)
Lemma pacer_deadline_is_not_the_product :
  Pacer.clock Pacer.late 0 = S754_zero false /\
  Pacer.nth_deadline 10 (Controller.of_int 10) Pacer.late
  = S754_finite false 9007199254740991 (-53) /\
  Pacer.nth_deadline 10 (Controller.of_int 10) Pacer.late
  <> Pacer.fadd (Pacer.clock Pacer.late 0)
       (Controller.fmul (Controller.of_int 10)
          (Controller.fdiv Pacer.lit_1_0 (Controller.of_int 10))) /\
  10 * Controller.numerator (Pacer.nth_deadline 10 (Controller.of_int 10) Pacer.late)
  <> 10 * Controller.denominator (Pacer.nth_deadline 10 (Controller.of_int 10) Pacer.late) /\
  10 * Controller.numerator (Pacer.nth_deadline 3 (Controller.of_int 10) Pacer.late)
  <> 3 * Controller.denominator (Pacer.nth_deadline 3 (Controller.of_int 10) Pacer.late).
Proof.
  split; [reflexivity|]. split; [vm_compute; reflexivity|].
  split; [vm_compute; discriminate|]. split; vm_compute; discriminate.
Qed.

(** ** Concurrent callers: request ids and the call counter *)

Import Schedule.

Lemma set_pc_same t p f : set_pc t p f t = p.
Proof. unfold set_pc. now rewrite Nat.eqb_refl. Qed.

Lemma set_pc_other t p f t' : t' <> t -> set_pc t p f t' = f t'.
Proof. unfold set_pc. intros H. apply Nat.eqb_neq in H. now rewrite H. Qed.

Ltac pcs_at t' t :=
  destruct (Nat.eq_dec t' t) as [->|?];
  [rewrite ?set_pc_same in *|rewrite ?set_pc_other in * by assumption].

Lemma assigned_app tr1 tr2 : assigned (tr1 ++ tr2) = assigned tr1 ++ assigned tr2.
Proof. induction tr1 as [|[] tr1 IH]; cbn; rewrite ?IH; reflexivity. Qed.
Lemma owners_app tr1 tr2 : owners_of (tr1 ++ tr2) = owners_of tr1 ++ owners_of tr2.
Proof. induction tr1 as [|[] tr1 IH]; cbn; rewrite ?IH; reflexivity. Qed.
Lemma counted_app tr1 tr2 : counted (tr1 ++ tr2) = counted tr1 ++ counted tr2.
Proof. induction tr1 as [|[] tr1 IH]; cbn; rewrite ?IH; reflexivity. Qed.
Lemma drained_app tr1 tr2 : drained (tr1 ++ tr2) = drained tr1 ++ drained tr2.
Proof. induction tr1 as [|[] tr1 IH]; cbn; rewrite ?IH; reflexivity. Qed.
Lemma sum_app l1 l2 : sum (l1 ++ l2) = sum l1 + sum l2.
Proof. unfold sum. induction l1 as [|x l1 IH]; cbn; lia. Qed.
Lemma audit_app tr1 : forall tr2 p,
  audit (tr1 ++ tr2) p =
  match audit tr1 p with Some q => audit tr2 q | None => None end.
Proof.
  induction tr1 as [|[t r|t|v] tr1 IH]; intros tr2 p; cbn; try apply IH; try reflexivity.
  destruct (v =? p); [apply IH|reflexivity].
Qed.

Lemma upto_succ n : upto (S n) = upto n ++ [Z.of_nat n + 1].
Proof.
  unfold upto. rewrite seq_S, map_app. cbn [map]. f_equal. f_equal. lia.
Qed.

Lemma lock_init : LockInv init.
Proof. split; cbn; intros; congruence. Qed.

Lemma lock_step a s : LockInv s -> LockInv (exec1 s a).
Proof.
  intros [Hfree Hone]. unfold exec1, step.
  destruct a as [t|]; [|split; cbn; assumption].
  destruct (pcs s t) eqn:Et.
  - destruct (locked s) eqn:El; [split; [congruence|assumption]|].
    split; cbn; [congruence|].
    intros t1 t2 H1 H2.
    assert (Hc : forall t', critical (set_pc t Locked (pcs s) t') = true -> t' = t).
    { intros t' H. pcs_at t' t; [reflexivity|]. rewrite Hfree in H by reflexivity. discriminate. }
    rewrite (Hc _ H1), (Hc _ H2). reflexivity.
  - assert (Hc : forall t', critical (set_pc t Bumped (pcs s) t') = true -> t' = t).
    { intros t' H. pcs_at t' t; [reflexivity|]. apply Hone; [exact H|now rewrite Et]. }
    split; cbn.
    + intros El t'. specialize (Hfree El t). rewrite Et in Hfree. discriminate.
    + intros t1 t2 H1 H2. rewrite (Hc _ H1), (Hc _ H2). reflexivity.
  - assert (Hc : forall t', critical (set_pc t (Holding (_id s)) (pcs s) t') = true -> t' = t).
    { intros t' H. pcs_at t' t; [reflexivity|]. apply Hone; [exact H|now rewrite Et]. }
    split; cbn.
    + intros El t'. specialize (Hfree El t). rewrite Et in Hfree. discriminate.
    + intros t1 t2 H1 H2. rewrite (Hc _ H1), (Hc _ H2). reflexivity.
  - assert (Hc : forall t', critical (set_pc t (Unlocked rid) (pcs s) t') = false).
    { intros t'. pcs_at t' t; [reflexivity|].
      destruct (critical (pcs s t')) eqn:E; [|reflexivity].
      exfalso. apply n. apply Hone; [exact E|now rewrite Et]. }
    split; cbn.
    + intros _ t'. apply Hc.
    + intros t1 t2 H1. rewrite Hc in H1. discriminate.
  - assert (Hc : forall t', critical (set_pc t (InFlight rid) (pcs s) t') = critical (pcs s t')).
    { intros t'. pcs_at t' t; [now rewrite Et|reflexivity]. }
    split; cbn.
    + intros El t'. rewrite Hc. now apply Hfree.
    + intros t1 t2. rewrite !Hc. apply Hone.
  - assert (Hc : forall t', critical (set_pc t (Finished rid) (pcs s) t') = critical (pcs s t')).
    { intros t'. pcs_at t' t; [now rewrite Et|reflexivity]. }
    split; cbn.
    + intros El t'. rewrite Hc. now apply Hfree.
    + intros t1 t2. rewrite !Hc. apply Hone.
  - split; assumption.
Qed.

Lemma id_frame s s' :
  _id s' = _id s ->
  assigned (trace s') = assigned (trace s) ->
  owners_of (trace s') = owners_of (trace s) ->
  (forall t, pcs s' t = Bumped <-> pcs s t = Bumped) ->
  (forall t r, rid_of (pcs s' t) = Some r -> rid_of (pcs s t) = Some r) ->
  IdInv s -> IdInv s'.
Proof.
  intros Hid Has How Hb Hr [H1 H2 H3 H4].
  split; rewrite ?Has, ?Hid, ?How.
  - exact H1.
  - intros t Ht. apply (H2 t). now apply Hb.
  - intros Hn. apply H3. intros t Ht. apply (Hn t). now apply Hb.
  - intros t r Ht. apply H4. now apply Hr.
Qed.

Lemma id_init : IdInv init.
Proof. split; cbn; intros; try reflexivity; congruence. Qed.

Lemma id_step a s : LockInv s -> IdInv s -> IdInv (exec1 s a).
Proof.
  intros [Hfree Hone] HI. unfold exec1, step.
  destruct a as [t|].
  2:{ apply (id_frame s); cbn; rewrite ?assigned_app, ?owners_app, ?app_nil_r;
      try reflexivity; auto. }
  destruct (pcs s t) eqn:Et.
  - destruct (locked s); [exact HI|].
    apply (id_frame s); cbn; try reflexivity; auto.
    + intros t'. pcs_at t' t; [rewrite Et; split; discriminate|reflexivity].
    + intros t' r. pcs_at t' t; [discriminate|auto].
  - destruct HI as [H1 H2 H3 H4].
    assert (Hnb : forall t', pcs s t' <> Bumped).
    { intros t' Ht'. assert (t' = t) by (apply Hone; [now rewrite Ht'|now rewrite Et]).
      subst t'. congruence. }
    split; cbn.
    + exact H1.
    + intros _ _. rewrite (H3 Hnb). reflexivity.
    + intros Hn. exfalso. apply (Hn t). apply set_pc_same.
    + intros t' r. pcs_at t' t; [discriminate|apply H4].
  - destruct HI as [H1 H2 H3 H4].
    pose proof (H2 t Et) as Hid.
    split; cbn; rewrite ?assigned_app, ?owners_app; cbn; rewrite ?length_app; cbn.
    + rewrite Nat.add_1_r. fold (upto (S (length (assigned (trace s))))).
      rewrite upto_succ, <- H1, Hid. reflexivity.
    + intros t'. pcs_at t' t; [discriminate|].
      intros Ht'. exfalso. apply n. apply Hone; [now rewrite Ht'|now rewrite Et].
    + intros _. rewrite Hid. lia.
    + intros t' r. pcs_at t' t.
      * intros [= <-]. apply in_or_app. right. now left.
      * intros Hr. apply in_or_app. left. now apply H4.
  - apply (id_frame s); cbn; try reflexivity; auto.
    + intros t'. pcs_at t' t; [rewrite Et; split; discriminate|reflexivity].
    + intros t' r. pcs_at t' t; [rewrite Et; auto|auto].
  - apply (id_frame s); cbn; rewrite ?assigned_app, ?owners_app, ?app_nil_r;
      try reflexivity; auto.
    + intros t'. pcs_at t' t; [rewrite Et; split; discriminate|reflexivity].
    + intros t' r. pcs_at t' t; [rewrite Et; auto|auto].
  - apply (id_frame s); cbn; try reflexivity; auto.
    + intros t'. pcs_at t' t; [rewrite Et; split; discriminate|reflexivity].
    + intros t' r. pcs_at t' t; [rewrite Et; auto|auto].
  - exact HI.
Qed.

Lemma NoDup_snoc {A} (l : list A) x : ~ In x l -> NoDup l -> NoDup (l ++ [x]).
Proof.
  intros Hx Hl. induction Hl as [|y l Hy Hl IH]; cbn.
  - constructor; [intros []|constructor].
  - constructor.
    + rewrite in_app_iff. intros [H|[H|[]]]; [contradiction|]. subst. apply Hx. now left.
    + apply IH. intros H. apply Hx. now right.
Qed.

Lemma count_frame s s' :
  _rpc_counter s' = _rpc_counter s ->
  audit (trace s') 0 = audit (trace s) 0 ->
  counted (trace s') = counted (trace s) ->
  drained (trace s') = drained (trace s) ->
  (forall t, counted_pc (pcs s' t) = counted_pc (pcs s t)) ->
  CountInv s -> CountInv s'.
Proof.
  intros Hc Ha Hn Hd Hp [H1 H2 H3 H4].
  split; rewrite ?Hc, ?Ha, ?Hn, ?Hd; try assumption.
  intros t. rewrite Hp. apply H2.
Qed.

Lemma count_init : CountInv init.
Proof.
  split; cbn; try reflexivity; [|constructor].
  intros t. split; [intros []|discriminate].
Qed.

Lemma audit_assigned tr t r p : audit (tr ++ [Assigned t r]) p = audit tr p.
Proof. rewrite audit_app. destruct (audit tr p); reflexivity. Qed.

Lemma count_step a s : CountInv s -> CountInv (exec1 s a).
Proof.
  intros HC. unfold exec1, step.
  destruct a as [t|].
  2:{ destruct HC as [H1 H2 H3 H4].
      split; cbn; rewrite ?audit_app, ?counted_app, ?drained_app, ?sum_app, ?H1, ?app_nil_r;
        cbn; rewrite ?Z.eqb_refl; try assumption; try reflexivity.
      unfold sum in *. cbn. lia. }
  destruct (pcs s t) eqn:Et.
  - destruct (locked s); [exact HC|].
    apply (count_frame s); cbn; try reflexivity; try assumption.
    intros t'. pcs_at t' t; [now rewrite Et|reflexivity].
  - apply (count_frame s); cbn; try reflexivity; try assumption.
    intros t'. pcs_at t' t; [now rewrite Et|reflexivity].
  - apply (count_frame s); cbn; rewrite ?audit_assigned, ?counted_app, ?drained_app, ?app_nil_r;
      try reflexivity; try assumption.
    intros t'. pcs_at t' t; [now rewrite Et|reflexivity].
  - apply (count_frame s); cbn; try reflexivity; try assumption.
    intros t'. pcs_at t' t; [now rewrite Et|reflexivity].
  - destruct HC as [H1 H2 H3 H4].
    assert (Hnew : ~ In t (counted (trace s))).
    { intros H. apply H2 in H. rewrite Et in H. discriminate. }
    split; cbn; rewrite ?audit_app, ?counted_app, ?drained_app, ?H1, ?app_nil_r; cbn.
    + reflexivity.
    + intros t'. rewrite in_app_iff. pcs_at t' t.
      * split; [reflexivity|]. intros _. right. now left.
      * rewrite <- H2. split; [intros [H|[H|[]]]; [exact H|congruence]|auto].
    + now apply NoDup_snoc.
    + rewrite length_app. unfold sum in H4. cbn. lia.
  - apply (count_frame s); cbn; try reflexivity; try assumption.
    intros t'. pcs_at t' t; [now rewrite Et|reflexivity].
  - exact HC.
Qed.

Lemma inv_exec sched : forall s, Inv s -> Inv (exec sched s).
Proof.
  unfold exec. induction sched as [|a sched IH]; intros s H; cbn; [exact H|].
  apply IH. destruct H as [HL HI HC].
  split; [now apply lock_step|now apply id_step|now apply count_step].
Qed.

Lemma inv_reachable sched : Inv (exec sched init).
Proof. apply inv_exec. split; [apply lock_init|apply id_init|apply count_init]. Qed.

Lemma owners_assigned tr : map snd (owners_of tr) = assigned tr.
Proof. induction tr as [|[] tr IH]; cbn; rewrite ?IH; reflexivity. Qed.

Lemma NoDup_upto n : NoDup (upto n).
Proof.
  unfold upto. apply Injective_map_NoDup; [|apply seq_NoDup].
  intros a b. apply Nat2Z.inj.
Qed.

Lemma unique_owner (l : list (nat * Z)) : forall a b r,
  NoDup (map snd l) -> In (a, r) l -> In (b, r) l -> a = b.
Proof.
  induction l as [|[c q] l IH]; intros a b r Hnd Ha Hb; [contradiction|].
  cbn [map snd] in Hnd. inversion Hnd as [|? ? Hq Hl]; subst.
  destruct Ha as [Ha|Ha], Hb as [Hb|Hb].
  - congruence.
  - exfalso. apply Hq. apply (in_map snd) in Hb. cbn in Hb. congruence.
  - exfalso. apply Hq. apply (in_map snd) in Ha. cbn in Ha. congruence.
  - exact (IH a b r Hl Ha Hb).
Qed.

(** C2. Whatever the interleaving of the callers, the ids bound so far
    are exactly 1, 2, ..., N in the order in which they were bound, with
    no duplicate, and no two callers hold the same id; and [cs] calls
    made one after the other on a fresh transport post the ids
    1, ..., length cs. *)
Theorem request_ids_are_1_to_N sched node cs :
  let s := exec sched init in
  let ids := assigned (trace s) in
  ids = upto (length ids) /\
  NoDup ids /\
  (forall t1 t2 r,
     rid_of (pcs s t1) = Some r -> rid_of (pcs s t2) = Some r -> t1 = t2) /\
  map req_id (posts (Loadgen.log (snd (calls cs (Fixtures.fresh node)))))
    = upto (length cs).
Proof.
  cbv zeta. destruct (inv_reachable sched) as [_ [Hseq _ _ Hown] _].
  split; [exact Hseq|]. split; [rewrite Hseq; apply NoDup_upto|]. split.
  - intros t1 t2 r H1 H2.
    apply (unique_owner (owners_of (trace (exec sched init))) t1 t2 r).
    + rewrite owners_assigned, Hseq. apply NoDup_upto.
    + now apply Hown.
    + now apply Hown.
  - destruct (calls_ids cs (Fixtures.fresh node)) as (Hp & _).
    rewrite Hp. cbn. reflexivity.
Qed.

(** C9. [drain_rpc_counter] returns the counter and resets it; after a
    drain and [cs] calls, whatever their outcome, the next drain returns
    [length cs] and leaves zero; the window sets the RPS gauge to the
    drained value over [W]; and under every interleaving of callers and
    drains each drain returned the number of calls counted since the
    drain before it, nobody was counted twice, and what was drained plus
    what is pending is the number of calls counted. *)
Theorem drain_counts_calls W st w cs sched :
  ~ (W == 0)%Q ->
  let w1 := snd (calls cs (snd (drain_rpc_counter w))) in
  let s := exec sched init in
  drain_rpc_counter w
    = (inr (Loadgen._rpc_counter (rpc w)), with_rpc (fun r => mkRpc (Loadgen._id r) 0) w) /\
  fst (drain_rpc_counter w1) = inr (Z.of_nat (length cs)) /\
  Loadgen._rpc_counter (rpc (snd (drain_rpc_counter w1))) = 0 /\
  RPS (reg (snd (sampler_window W st w)))
    = (inject_Z (Loadgen._rpc_counter (rpc w)) / W)%Q /\
  audit (trace s) 0 = Some (_rpc_counter s) /\
  NoDup (counted (trace s)) /\
  sum (drained (trace s)) + _rpc_counter s = Z.of_nat (length (counted (trace s))).
Proof.
  intros HW. cbv zeta.
  destruct (inv_reachable sched) as [_ _ [Ha _ Hn Hs]].
  destruct (calls_ids cs (snd (drain_rpc_counter w))) as (_ & Hc & _).
  repeat split; try assumption.
  - cbn [drain_rpc_counter]. run_M. f_equal. f_equal. exact Hc.
  - rewrite (sampler_window_unfold _ _ _ HW).
    destruct (sampler_mgas_frame (rated st w) (sampled W st w)) as (_ & _ & _ & _ & HR & _).
    rewrite HR. reflexivity.
Qed.

(** 300 calls drained over a window of 5 s give an RPS gauge of 60. *)
Lemma drain_counts_calls_example :
  Loadgen._rpc_counter (rpc (Fixtures.busy 0)) = 300 /\
  (RPS (reg (snd (sampler_window 5 Fixtures.seen15 (Fixtures.busy 0)))) == 60)%Q.
Proof.
  assert (HW : ~ (5 == 0)%Q) by discriminate.
  destruct (drain_counts_calls 5 Fixtures.seen15 (Fixtures.busy 0) [] [] HW)
    as (_ & _ & _ & HR & _).
  rewrite HR. split; reflexivity.
Defined.

(** ** The controller: [compute_mix] *)

Import Controller.

Lemma binary_round_aux_sign sx mx ex lx :
  match binary_round_aux prec emax sx mx ex lx with
  | S754_zero s | S754_infinity s | S754_finite s _ _ => s = sx
  | S754_nan => True
  end.
Proof.
  unfold binary_round_aux.
  destruct (shr_fexp prec emax mx ex lx) as [mrs' e'].
  destruct (shr_fexp prec emax _ e' loc_Exact) as [mrs'' e''].
  destruct (shr_m mrs''); [reflexivity| |exact I].
  destruct (e'' <=? emax - prec); reflexivity.
Qed.

Lemma max_nonneg t : nonneg (max t lit_0_0).
Proof.
  unfold max, fltb, lit_0_0.
  destruct t as [s|[]| |[] m e]; cbn; auto.
Qed.

Lemma fmul_nonneg c t : nonneg c -> nonneg t -> nonneg (fmul c t).
Proof.
  unfold fmul, SFmul.
  destruct c as [sc|sc| |sc mc ec], t as [st|st| |st mt et];
    cbn -[binary_round_aux]; intros Hc Ht; subst; auto.
  pose proof (binary_round_aux_sign false (Z.pos (mc * mt)) (ec + et) loc_Exact) as H.
  destruct (binary_round_aux _ _ _ _ _ _); cbn; auto.
Qed.

Lemma fdiv_nonneg t mc ec : nonneg t -> nonneg (fdiv t (S754_finite false mc ec)).
Proof.
  unfold fdiv, SFdiv.
  destruct t as [st|st| |st mt et];
    cbn -[binary_round_aux SFdiv_core_binary]; intros Ht; subst; auto.
  destruct (SFdiv_core_binary _ _ _ _ _ _) as [[mz ez] lz].
  pose proof (binary_round_aux_sign false mz ez lz) as H.
  destruct (binary_round_aux _ _ _ _ _ _); cbn; auto.
Qed.

Lemma nearest_even_nonneg m e : 0 <= nearest_even m e.
Proof.
  unfold nearest_even. destruct e as [|p|p]; [lia|nia|].
  assert (Hq : 0 <= Z.pos m / 2 ^ Z.pos p) by (apply Z.div_pos; lia).
  destruct (2 * (Z.pos m mod 2 ^ Z.pos p) ?= 2 ^ Z.pos p); [|lia|lia].
  destruct (Z.even _); lia.
Qed.

Lemma round_nonneg x n : nonneg x -> round x = inr n -> 0 <= n.
Proof.
  destruct x as [s|s| |s m e]; cbn; intros Hx [= <-]; [lia|].
  subst s. apply nearest_even_nonneg.
Qed.

Lemma lit_nonneg : nonneg lit_5_0 /\ nonneg lit_0_35 /\ nonneg lit_0_10.
Proof. repeat split. Qed.

(** ** No overflow *)

Lemma digits2_size p : digits2_pos p = Pos.size p.
Proof. induction p; cbn; congruence. Qed.

Lemma Zdigits2_nonneg m : 0 <= Zdigits2 m.
Proof. destruct m; cbn; lia. Qed.

Lemma Zdigits2_lt m : 0 <= m -> m < 2 ^ Zdigits2 m.
Proof.
  destruct m as [|p|p]; cbn [Zdigits2]; intros H; [reflexivity| |lia].
  rewrite digits2_size. pose proof (Pos.size_gt p) as G.
  apply Pos2Z.pos_lt_pos in G. now rewrite Pos2Z.inj_pow in G.
Qed.

Lemma Zdigits2_le m k : 0 <= k -> 0 <= m < 2 ^ k -> Zdigits2 m <= k.
Proof.
  destruct m as [|p|p]; cbn [Zdigits2]; intros Hk H; [lia| |lia].
  rewrite digits2_size. pose proof (Pos.size_le p) as G.
  apply Pos2Z.pos_le_pos in G. rewrite Pos2Z.inj_pow in G.
  assert (L : 2 ^ Z.pos (Pos.size p) < 2 ^ (k + 1)).
  { rewrite Z.pow_add_r, Z.pow_1_r by lia. lia. }
  apply Z.pow_lt_mono_r_iff in L; lia.
Qed.

Lemma shr_1_div mrs : 0 <= shr_m mrs -> shr_m (shr_1 mrs) = shr_m mrs / 2.
Proof.
  intros H. rewrite <- Z.div2_div.
  destruct mrs as [[|[p|p|]|p] r s]; cbn in *; try reflexivity; lia.
Qed.

Lemma pow2_xO p : 2 ^ Z.pos p~0 = 2 ^ Z.pos p * 2 ^ Z.pos p.
Proof. rewrite <- Z.pow_add_r by lia. f_equal. lia. Qed.

Lemma pow2_xI p : 2 ^ Z.pos p~1 = 2 * (2 ^ Z.pos p * 2 ^ Z.pos p).
Proof.
  rewrite <- Z.pow_add_r, <- Z.pow_succ_r by lia. f_equal. lia.
Qed.

Lemma iter_shr_div p : forall mrs,
  0 <= shr_m mrs -> shr_m (iter_pos shr_1 p mrs) = shr_m mrs / 2 ^ Z.pos p.
Proof.
  induction p as [p IH|p IH|]; intros mrs H; cbn [iter_pos].
  - assert (H1 : 0 <= shr_m (shr_1 mrs)) by (rewrite shr_1_div by exact H; apply Z.div_pos; lia).
    assert (H2 : 0 <= shr_m (iter_pos shr_1 p (shr_1 mrs)))
      by (rewrite IH by exact H1; apply Z.div_pos; lia).
    rewrite IH, IH, shr_1_div by assumption.
    rewrite !Z.div_div by lia. now rewrite pow2_xI.
  - assert (H2 : 0 <= shr_m (iter_pos shr_1 p mrs))
      by (rewrite IH by exact H; apply Z.div_pos; lia).
    rewrite IH, IH by assumption.
    rewrite Z.div_div by lia. now rewrite pow2_xO.
  - rewrite shr_1_div by exact H. reflexivity.
Qed.

Lemma fexp_eq x : fexp prec emax x = Z.max (x - 53) (-1074).
Proof. reflexivity. Qed.

Lemma shr_record_of_loc_m m l : shr_m (shr_record_of_loc m l) = m.
Proof. destruct l as [|[]]; reflexivity. Qed.

(** One normalising shift of a non-negative mantissa: the mantissa stays
    non-negative and below 2^(D - e'), where 2^D bounds the value. *)
Lemma shr_fexp_spec m e l :
  0 <= m ->
  exists mrs e',
    shr_fexp prec emax m e l = (mrs, e') /\
    0 <= shr_m mrs < 2 ^ Z.max (Zdigits2 m + e - e') 0 /\
    (e' = e \/ e' = fexp prec emax (Zdigits2 m + e)).
Proof.
  intros Hm. unfold shr_fexp, shr.
  pose proof (Zdigits2_lt m Hm) as Hd. pose proof (Zdigits2_nonneg m) as Hd0.
  destruct (fexp prec emax (Zdigits2 m + e) - e) as [|p|p] eqn:En.
  - eexists _, _. split; [reflexivity|]. rewrite shr_record_of_loc_m.
    replace (Z.max (Zdigits2 m + e - e) 0) with (Zdigits2 m) by lia. auto.
  - eexists _, _. split; [reflexivity|].
    rewrite iter_shr_div, shr_record_of_loc_m by (rewrite shr_record_of_loc_m; exact Hm).
    split; [|right; lia].
    split; [apply Z.div_pos; lia|].
    destruct (Z.le_gt_cases (Z.pos p) (Zdigits2 m)) as [Hp|Hp].
    + replace (Z.max (Zdigits2 m + e - (e + Z.pos p)) 0) with (Zdigits2 m - Z.pos p) by lia.
      apply Z.div_lt_upper_bound; [lia|].
      rewrite <- Z.pow_add_r by lia. now replace (Z.pos p + (Zdigits2 m - Z.pos p)) with (Zdigits2 m) by lia.
    + replace (Z.max (Zdigits2 m + e - (e + Z.pos p)) 0) with 0 by lia.
      rewrite Z.div_small; [reflexivity|]. split; [exact Hm|].
      apply (Z.lt_le_trans _ _ _ Hd). apply Z.pow_le_mono_r; lia.
  - eexists _, _. split; [reflexivity|]. rewrite shr_record_of_loc_m.
    replace (Z.max (Zdigits2 m + e - e) 0) with (Zdigits2 m) by lia. auto.
Qed.

Lemma round_nearest_even_bounds m l :
  0 <= m -> m <= round_nearest_even m l <= m + 1.
Proof.
  intros H. unfold round_nearest_even. destruct l as [|[]]; try lia.
  destruct (Z.even m); lia.
Qed.

(** Rounding cannot overflow when the value is below 2^1023. *)
Lemma binary_round_aux_finite sx mx ex lx :
  0 <= mx -> ex <= 971 -> Zdigits2 mx + ex <= 1023 ->
  is_finite (binary_round_aux prec emax sx mx ex lx) = true.
Proof.
  intros Hm He HD. unfold binary_round_aux.
  destruct (shr_fexp_spec mx ex lx Hm) as (mrs' & e' & -> & [H0 Hlt] & He').
  set (m1 := round_nearest_even (shr_m mrs') (loc_of_shr_record mrs')).
  pose proof (round_nearest_even_bounds (shr_m mrs') (loc_of_shr_record mrs') H0) as Hr.
  fold m1 in Hr.
  assert (Hm1 : 0 <= m1) by lia.
  destruct (shr_fexp_spec m1 e' loc_Exact Hm1) as (mrs'' & e'' & -> & [H0' _] & He'').
  assert (Hd1 : Zdigits2 m1 <= Z.max (Zdigits2 mx + ex - e') 0 + 1).
  { apply Zdigits2_le; [lia|]. split; [exact Hm1|].
    rewrite Z.pow_add_r, Z.pow_1_r by lia. lia. }
  rewrite !fexp_eq in *.
  assert (E : e'' <= 971) by lia.
  destruct (shr_m mrs'') as [|p|p]; [reflexivity| |lia].
  apply Z.leb_le in E. change (emax - prec) with 971. now rewrite E.
Qed.

Lemma bounded_digits m e :
  bounded prec emax m e = true -> Zdigits2 (Z.pos m) <= 53 /\ e <= 971.
Proof.
  unfold bounded, canonical_mantissa. rewrite andb_true_iff, Z.eqb_eq, Z.leb_le, fexp_eq.
  change (emax - prec) with 971. cbn [Zdigits2]. lia.
Qed.

Lemma Zdigits2_mul a b :
  Zdigits2 (Z.pos (a * b)) <= Zdigits2 (Z.pos a) + Zdigits2 (Z.pos b).
Proof.
  pose proof (Zdigits2_lt (Z.pos a) ltac:(lia)) as Ha.
  pose proof (Zdigits2_lt (Z.pos b) ltac:(lia)) as Hb.
  pose proof (Zdigits2_nonneg (Z.pos a)). pose proof (Zdigits2_nonneg (Z.pos b)).
  apply Zdigits2_le; [lia|]. rewrite Pos2Z.inj_mul, Z.pow_add_r by lia. nia.
Qed.

(** Scaling by a literal below one cannot overflow. *)
Lemma fmul_finite mc ec t :
  Zdigits2 (Z.pos mc) + ec <= -1 -> ec <= 0 ->
  binary64 t = true -> is_finite t = true ->
  is_finite (fmul (S754_finite false mc ec) t) = true.
Proof.
  intros Hc He Hv Hf. destruct t as [s|s| |s m e]; try discriminate; [reflexivity|].
  apply bounded_digits in Hv as [Hd Hb].
  unfold fmul, SFmul. apply binary_round_aux_finite; [lia|lia|].
  pose proof (Zdigits2_mul mc m). lia.
Qed.

(** Dividing by a literal of at least two cannot overflow. *)
Lemma fdiv_finite t mc ec :
  Z.pos mc < 2 ^ 53 -> 2 ^ 52 <= Z.pos mc -> -51 <= ec ->
  binary64 t = true -> is_finite t = true ->
  is_finite (fdiv t (S754_finite false mc ec)) = true.
Proof.
  intros Hc1 Hc2 He Hv Hf. destruct t as [s|s| |s m e]; try discriminate; [reflexivity|].
  apply bounded_digits in Hv as [Hd Hb].
  unfold fdiv, SFdiv, SFdiv_core_binary.
  assert (Hdc : Zdigits2 (Z.pos mc) = 53).
  { apply Z.le_antisymm.
    - apply Zdigits2_le; lia.
    - pose proof (Zdigits2_lt (Z.pos mc) ltac:(lia)) as L.
      assert (2 ^ 52 < 2 ^ Zdigits2 (Z.pos mc)) by lia.
      apply Z.pow_lt_mono_r_iff in H; [lia|lia|apply Zdigits2_nonneg]. }
  rewrite Hdc.
  set (d1 := Zdigits2 (Z.pos m)) in *.
  set (e' := Z.min (fexp prec emax (d1 + e - (53 + ec))) (e - ec)).
  set (m' := match e - ec - e' with Z.pos _ => Z.shiftl (Z.pos m) (e - ec - e') | 0 => Z.pos m | Z.neg _ => 0 end).
  assert (Hs : 0 <= e - ec - e') by (unfold e'; lia).
  assert (Hm' : 0 <= m' < 2 ^ (d1 + (e - ec - e'))).
  { pose proof (Zdigits2_lt (Z.pos m) ltac:(lia)) as L. fold d1 in L.
    pose proof (Zdigits2_nonneg (Z.pos m)) as L0. fold d1 in L0.
    unfold m'. destruct (e - ec - e') as [|p|p] eqn:Es.
    - rewrite Z.add_0_r. lia.
    - rewrite Z.shiftl_mul_pow2, Z.pow_add_r by lia. nia.
    - lia. }
  pose proof (Z_div_mod m' (Z.pos mc) ltac:(lia)) as Hqr.
  destruct (Z.div_eucl m' (Z.pos mc)) as [q r]. destruct Hqr as [Hq Hr].
  assert (Hq0 : 0 <= q) by nia.
  assert (Hqlt : q < 2 ^ Z.max (d1 + (e - ec - e') - 52) 0).
  { destruct (Z.le_gt_cases 52 (d1 + (e - ec - e'))) as [L|L].
    - rewrite Z.max_l by lia.
      assert (Hp : 2 ^ (d1 + (e - ec - e')) = 2 ^ 52 * 2 ^ (d1 + (e - ec - e') - 52)).
      { rewrite <- Z.pow_add_r by lia. f_equal. lia. }
      nia.
    - rewrite Z.max_r by lia.
      assert (m' < 2 ^ 52)
        by (apply (Z.lt_le_trans _ _ _ (proj2 Hm')); apply Z.pow_le_mono_r; lia).
      change (2 ^ 0) with 1. nia. }
  apply binary_round_aux_finite; [exact Hq0| |].
  - unfold e'. rewrite fexp_eq. lia.
  - assert (Zdigits2 q <= Z.max (d1 + (e - ec - e') - 52) 0) by (apply Zdigits2_le; lia).
    unfold e' in *. rewrite fexp_eq in *. lia.
Qed.

Lemma max_clamps t : fltb t lit_0_0 = true -> max t lit_0_0 = lit_0_0.
Proof. unfold max. now intros ->. Qed.

Lemma max_keeps t : fleb lit_0_0 t = true -> max t lit_0_0 = t.
Proof.
  unfold max, fleb, fltb, lit_0_0.
  destruct t as [s|[]| |[] m e]; cbn; intros H; try reflexivity; discriminate.
Qed.

Lemma max_binary64 t :
  binary64 t = true -> is_finite t = true ->
  binary64 (max t lit_0_0) = true /\ is_finite (max t lit_0_0) = true.
Proof.
  intros Hv Hf. unfold max. destruct (fltb t lit_0_0); auto.
Qed.

Lemma round_finite x : is_finite x = true -> exists n, round x = inr n.
Proof. destruct x; cbn; intros H; try discriminate; eauto. Qed.

(** [round] returns the nearest integer, the even one of two. *)
Lemma round_rounds_to x n : round x = inr n -> rounds_to x n.
Proof.
  unfold rounds_to, nearest_int.
  destruct x as [s|s| |s m e]; cbn [round numerator denominator]; try discriminate.
  - intros [= <-]. cbn. split; [lia|discriminate].
  - intros [= <-]. destruct e as [|p|p].
    + cbn [nearest_even]. destruct s; split; try lia.
    + cbn [nearest_even]. destruct s; split; try lia.
    + cbn [nearest_even]. cbv zeta.
      set (d := 2 ^ Z.pos p).
      assert (Hd : 0 < d) by (apply Z.pow_pos_nonneg; lia).
      pose proof (Z.div_mod (Z.pos m) d ltac:(lia)) as Hm.
      pose proof (Z.mod_pos_bound (Z.pos m) d Hd) as Hr.
      set (q := Z.pos m / d) in *. set (r := Z.pos m mod d) in *.
      assert (Hq : q * d = Z.pos m - r) by lia.
      destruct (2 * r ?= d) eqn:C.
      * apply Z.compare_eq in C. clearbody q r d.
        destruct (Z.even q) eqn:Ev.
        -- destruct s.
           ++ replace (- q * d - - Z.pos m) with r by lia.
              split; [lia|]. intros _. now rewrite Z.even_opp.
           ++ replace (q * d - Z.pos m) with (- r) by lia.
              split; [lia|]. intros _. exact Ev.
        -- assert (Ev' : Z.even (q + 1) = true).
           { rewrite Z.even_add, Ev. reflexivity. }
           destruct s.
           ++ replace (- (q + 1) * d - - Z.pos m) with (r - d) by lia.
              split; [lia|]. intros _. now rewrite Z.even_opp.
           ++ replace ((q + 1) * d - Z.pos m) with (d - r) by lia.
              split; [lia|]. intros _. exact Ev'.
      * assert (C' : 2 * r < d) by exact C. clear C. clearbody q r d. destruct s.
        -- replace (- q * d - - Z.pos m) with r by lia.
           split; [lia|intros Ha; exfalso; lia].
        -- replace (q * d - Z.pos m) with (- r) by lia.
           split; [lia|intros Ha; exfalso; lia].
      * assert (C' : d < 2 * r) by (apply Z.compare_gt_iff; exact C).
        clear C. clearbody q r d. destruct s.
        -- replace (- (q + 1) * d - - Z.pos m) with (r - d) by lia.
           split; [lia|intros Ha; exfalso; lia].
        -- replace ((q + 1) * d - Z.pos m) with (d - r) by lia.
           split; [lia|intros Ha; exfalso; lia].
Qed.

(** ** The presets on whole totals, by evaluation *)

Import Totals.

Lemma all_from_spec k f : forall n i,
  all_from k n f = true -> n <= i < n + Z.of_nat k -> f i = true.
Proof.
  induction k as [|k IH]; intros n i H Hi; [lia|].
  cbn [all_from] in H. apply andb_true_iff in H. destruct H as [H0 H1].
  destruct (Z.eq_dec i n) as [->|Hne]; [exact H0|].
  apply (IH (n + 1)); [exact H1|lia].
Qed.

Lemma near_to_10000 : all_from (Z.to_nat 10001) 0 near = true.
Proof. vm_compute. reflexivity. Qed.

(** C10. The float literals of [compute_mix] are the doubles nearest to
    0.35, 0.10 and 5.  A negative total is clamped to zero, so every
    rate is then 0.  On a total [t >= 0] the preset "even" gives four
    times the integer nearest to the float [t / 5.0], and any other
    preset gives the integer nearest to the float [0.35 * t] for tps and
    the integer nearest to the float [0.10 * t] for the three read rates,
    the even one of two equally near.  On the whole totals up to 10000
    these are the integer nearest to t / 5, and integers within one half
    of 0.35 t and of 0.10 t.  No rate returned is negative, the three
    read rates are equal, and on every finite float the function
    returns. *)
Theorem compute_mix_split (t : float) (preset : string) :
  (lit_0_35 = S754_finite false 6305039478318694 (-54) /\
   lit_0_10 = S754_finite false 7205759403792794 (-56) /\
   lit_5_0 = S754_finite false 5629499534213120 (-50)) /\
  (fltb t lit_0_0 = true -> compute_mix t preset = inr (mkMix 0 0 0 0)) /\
  (fleb lit_0_0 t = true -> binary64 t = true -> is_finite t = true ->
   (exists per,
      compute_mix t "even" = inr (mkMix per per per per) /\
      rounds_to (fdiv t lit_5_0) per) /\
   (preset <> "even" ->
    exists send read,
      compute_mix t preset = inr (mkMix send read read read) /\
      rounds_to (fmul lit_0_35 t) send /\
      rounds_to (fmul lit_0_10 t) read)) /\
  (forall n, 0 <= n <= 10000 ->
   exists per send read,
     compute_mix (of_int n) "even" = inr (mkMix per per per per) /\
     (preset <> "even" -> compute_mix (of_int n) preset = inr (mkMix send read read read)) /\
     per = (n + 2) / 5 /\
     Z.abs (20 * send - 7 * n) <= 10 /\
     Z.abs (10 * read - n) <= 5) /\
  (forall m, compute_mix t preset = inr m ->
     0 <= tps m /\ 0 <= rps_block m /\ rps_bal m = rps_block m /\ rps_call m = rps_block m) /\
  (binary64 t = true -> is_finite t = true -> exists m, compute_mix t preset = inr m).
Proof.
  split; [|split; [|split; [|split; [|split]]]].
  - repeat split.
  - intros H. unfold compute_mix. rewrite (max_clamps _ H).
    destruct (String.eqb preset "even"); reflexivity.
  - intros H Hb Hf. destruct (max_binary64 t Hb Hf) as [Hv Hfm].
    rewrite (max_keeps _ H) in Hv, Hfm. split.
    + unfold compute_mix. rewrite (max_keeps _ H). cbn [String.eqb Ascii.eqb Bool.eqb].
      destruct (round_finite (fdiv t lit_5_0)) as [n E].
      { apply fdiv_finite; try assumption; cbv; congruence. }
      exists n. rewrite E. split; [reflexivity|now apply round_rounds_to].
    + intros Hp. unfold compute_mix. rewrite (max_keeps _ H).
      apply String.eqb_neq in Hp. rewrite Hp.
      destruct (round_finite (fmul lit_0_35 t)) as [n E].
      { apply fmul_finite; try assumption; cbv; congruence. }
      destruct (round_finite (fmul lit_0_10 t)) as [n' E'].
      { apply fmul_finite; try assumption; cbv; congruence. }
      exists n, n'. rewrite E, E'.
      split; [reflexivity|]. split; now apply round_rounds_to.
  - intros n Hn.
    assert (Hi : 0 <= n < 0 + Z.of_nat (Z.to_nat 10001)) by (rewrite Z2Nat.id; lia).
    pose proof (all_from_spec _ near 0 n near_to_10000 Hi) as H.
    clear Hi. unfold near in H.
    assert (Hw : preset <> "even" ->
                 compute_mix (of_int n) preset = compute_mix (of_int n) "write").
    { intros Hp. unfold compute_mix. apply String.eqb_neq in Hp. now rewrite Hp. }
    assert (He : forall e, compute_mix (of_int n) "even" = inr e ->
                 e = mkMix (tps e) (tps e) (tps e) (tps e)).
    { intros e. unfold compute_mix. cbn [String.eqb Ascii.eqb Bool.eqb].
      destruct (round _); intros [= <-]. reflexivity. }
    assert (Hwr : forall m, compute_mix (of_int n) "write" = inr m ->
                  m = mkMix (tps m) (rps_block m) (rps_block m) (rps_block m)).
    { intros m. unfold compute_mix. cbn [String.eqb Ascii.eqb Bool.eqb].
      destruct (round _); [discriminate|]. destruct (round _); intros [= <-]. reflexivity. }
    destruct (compute_mix (of_int n) "even") as [?|e]; [discriminate|].
    destruct (compute_mix (of_int n) "write") as [?|w]; [discriminate|].
    repeat (apply andb_true_iff in H; destruct H as [H ?]).
    exists (tps e), (tps w), (rps_block w).
    split; [f_equal; now apply He|].
    split; [intros Hp; rewrite (Hw Hp); f_equal; now apply Hwr|].
    split; [now apply Z.eqb_eq|]. split; apply Z.leb_le; assumption.
  - intros m. unfold compute_mix. pose proof (max_nonneg t) as Hn.
    destruct (String.eqb preset "even").
    + destruct (round (fdiv _ lit_5_0)) as [e|per] eqn:E; intros [= <-]. cbn.
      assert (0 <= per) by (eapply round_nonneg; [|exact E]; now apply fdiv_nonneg).
      auto.
    + destruct (round (fmul lit_0_35 _)) as [e|send] eqn:E; [discriminate|].
      destruct (round (fmul lit_0_10 _)) as [e|read] eqn:E'; intros [= <-]. cbn.
      assert (0 <= send) by (eapply round_nonneg; [|exact E]; now apply fmul_nonneg).
      assert (0 <= read) by (eapply round_nonneg; [|exact E']; now apply fmul_nonneg).
      auto.
  - intros H H0. destruct (max_binary64 t H H0) as [Hv Hf].
    unfold compute_mix.
    destruct (String.eqb preset "even").
    + destruct (round_finite (fdiv (max t lit_0_0) lit_5_0)) as [n ->]; [|eauto].
      apply fdiv_finite; try assumption; cbv; congruence.
    + destruct (round_finite (fmul lit_0_35 (max t lit_0_0))) as [n ->].
      { apply fmul_finite; try assumption; cbv; congruence. }
      destruct (round_finite (fmul lit_0_10 (max t lit_0_0))) as [n' ->]; [|eauto].
      apply fmul_finite; try assumption; cbv; congruence.
Qed.

(** The gauge values of the examples come out the same in binary64:
    25 / 5 is 5.0, 300 / 5 is 60.0 and (15000000 / 12) / 10^6 is 1.25, all
    without rounding. *)
Lemma gauge_examples_binary64 :
  fdiv (of_int 25) (of_int 5) = of_int 5 /\
  fdiv (of_int 300) (of_int 5) = of_int 60 /\
  fdiv (fdiv (of_int 15000000) (of_int 12)) (of_int 1000000) = fdiv (of_int 5) (of_int 4).
Proof. repeat split. Qed.

(** Some totals.  The product 0.35 * 90 falls just below 31.5 in
    binary64, so the write preset sends 31 there, and half-way cases go
    to the even neighbour: 2.5 / 5 rounds to 0. *)
Lemma compute_mix_examples :
  compute_mix (of_int 100) "write" = inr (mkMix 35 10 10 10) /\
  compute_mix (of_int 100) "even" = inr (mkMix 20 20 20 20) /\
  compute_mix (of_int 90) "write" = inr (mkMix 31 9 9 9) /\
  compute_mix (fdiv (of_int 5) (of_int 2)) "even" = inr (mkMix 0 0 0 0) /\
  compute_mix (of_int (-7)) "write" = inr (mkMix 0 0 0 0) /\
  compute_mix (S754_infinity false) "even" = inl OverflowError /\
  compute_mix S754_nan "write" = inl ValueError.
Proof. repeat split. Qed.

(* ================================================================== *)
(** * Further properties *)
(* ================================================================== *)

Import Traffic.

(** ** The transport *)

(** X1. How [call] reads a response: the status is tested before the
    body, so a status outside 200..299 raises [HTTPStatusError] whatever
    the body holds; a body that is not JSON raises the decoding error; in
    a JSON object an [error] member wins over a [result] member and is
    raised as [RuntimeError]; with neither member the lookup of [result]
    raises [KeyError]. *)
Theorem call_reads_response method params w status body :
  http w (request method params w) = Response status body ->
  let r := fst (call method params w) in
  (~ (200 <= status <= 299) -> r = inl (HTTPStatusError status)) /\
  (200 <= status <= 299 ->
     (body = None -> r = inl JSONDecodeError) /\
     (forall kv e, body = Some (JObj kv) -> assoc "error" kv = Some e ->
        r = inl (RuntimeError e)) /\
     (forall kv, body = Some (JObj kv) -> assoc "error" kv = None ->
        r = match assoc "result" kv with
            | Some v => inr v
            | None => inl (KeyError "result")
            end)).
Proof.
  intros H r. subst r. rewrite call_result, H. cbn [decode]. split.
  - intros Hs. destruct ((200 <=? status) && (status <=? 299)) eqn:E; [|reflexivity].
    apply andb_prop in E as [E1 E2]. apply Z.leb_le in E1, E2. lia.
  - intros [H1 H2]. apply Z.leb_le in H1, H2. rewrite H1, H2. cbn [andb].
    split; [now intros ->|]. split.
    + intros kv e -> He. cbn. now rewrite He.
    + intros kv -> He. cbn. rewrite He. destruct (assoc "result" kv); reflexivity.
Qed.

(** A node that answers 200 with both members: the error is raised. *)
Lemma call_reads_response_example :
  fst (call "eth_call" (JArr []) (Fixtures.fresh Cases.confused_node))
  = inl (RuntimeError Fixtures.rpc_error).
Proof.
  refine (proj1 (proj2 (proj2 (call_reads_response "eth_call" (JArr [])
                                 (Fixtures.fresh Cases.confused_node) 200 Cases.confused_body
                                 eq_refl)
                   ltac:(lia))) _ _ eq_refl eq_refl).
Defined.

(** X2. A call for one method leaves the request counter and the
    histogram of every other method as they were. *)
Theorem call_touches_only_its_method method other params w :
  other <> method ->
  let r' := reg (snd (call method params w)) in
  RPC_REQ r' other = RPC_REQ (reg w) other /\
  RPC_LAT r' other = RPC_LAT (reg w) other.
Proof.
  intros Hne. cbv zeta. split.
  - destruct (call_registry method params w) as (_ & _ & _ & _ & _ & _ & _ & ->).
    now apply upd_other.
  - call_cases w method params; rewrite ?upd_other by exact Hne; reflexivity.
Qed.

Lemma call_touches_only_its_method_example :
  let r' := reg (snd (call "eth_call" (JArr []) (Fixtures.fresh Fixtures.rejecting_node))) in
  RPC_REQ r' "eth_getBalance" = 0 /\ RPC_LAT r' "eth_getBalance" = [].
Proof.
  exact (call_touches_only_its_method "eth_call" "eth_getBalance" (JArr [])
           (Fixtures.fresh Fixtures.rejecting_node) ltac:(discriminate)).
Defined.

Lemma monotone_diff clock i j : monotone clock -> (i <= j)%nat -> (0 <= clock j - clock i)%Q.
Proof.
  intros Hm Hij. specialize (Hm i j Hij).
  apply (Qplus_le_l _ _ (clock i)). ring_simplify. exact Hm.
Qed.

(** X3. On a clock that never runs backwards no latency that [call]
    records is negative; a call that returns a result, or whose request
    fails in the transport, records exactly one, the time between the two
    clock readings around the request. *)
Theorem call_latency_monotone method params w :
  monotone (clock w) ->
  exists obs,
    RPC_LAT (reg (snd (call method params w))) method = RPC_LAT (reg w) method ++ obs /\
    Forall (fun d => (0 <= d)%Q) obs /\
    ((http w (request method params w) = ConnectionFailed \/
      exists v, fst (call method params w) = inr v) ->
     obs = [(clock w (S (reads w)) - clock w (reads w))%Q]).
Proof.
  intros Hm. unfold request.
  pose proof (monotone_diff _ (reads w) (S (reads w)) Hm ltac:(lia)) as H1.
  pose proof (monotone_diff _ (reads w) (S (S (reads w))) Hm ltac:(lia)) as H2.
  call_cases w method params; rewrite ?upd_same.
  all: try (eexists [_]; split; [reflexivity|]; split; [repeat constructor; assumption|];
            intros _; reflexivity).
  all: rewrite <- app_assoc; eexists [_; _]; split; [reflexivity|];
       split; [repeat constructor; assumption|];
       intros [H|[v H]]; discriminate.
Qed.

Lemma clock10ms_monotone : monotone Fixtures.clock10ms.
Proof.
  intros i j Hij. unfold Fixtures.clock10ms.
  apply Qmult_le_compat_r; [|discriminate].
  rewrite <- Zle_Qle. lia.
Qed.

Lemma call_latency_monotone_example :
  exists obs,
    RPC_LAT (reg (snd (call "eth_call" (JArr []) (Fixtures.fresh Fixtures.rejecting_node))))
      "eth_call" = obs /\
    Forall (fun d => (0 <= d)%Q) obs.
Proof.
  destruct (call_latency_monotone "eth_call" (JArr [])
              (Fixtures.fresh Fixtures.rejecting_node) clock10ms_monotone)
    as (obs & E & F & _).
  exists obs. split; [exact E|exact F].
Defined.

Lemma ids_offset a n m : forall s,
  map (fun k => a + Z.of_nat n + Z.of_nat k) (seq s m)
  = map (fun k => a + Z.of_nat k) (seq (n + s) m).
Proof.
  induction m as [|m IH]; intros s; cbn [seq map]; [reflexivity|].
  rewrite IH. f_equal; [lia|]. now rewrite Nat.add_succ_r.
Qed.

(** X4. A drain in the middle of a run of calls does not disturb the
    request ids: they go on where they stood; it touches neither the
    metrics nor the log; and a drain right after a drain returns 0. *)
Theorem drain_between_calls cs1 cs2 w :
  let w1 := snd (calls cs1 w) in
  let w2 := snd (drain_rpc_counter w1) in
  let w3 := snd (calls cs2 w2) in
  map req_id (posts (Loadgen.log w3))
    = map req_id (posts (Loadgen.log w))
        ++ map (fun k => Loadgen._id (rpc w) + Z.of_nat k) (seq 1 (length cs1 + length cs2)) /\
  reg w2 = reg w1 /\ Loadgen.log w2 = Loadgen.log w1 /\
  fst (drain_rpc_counter w2) = inr 0 /\
  fst (drain_rpc_counter w3) = inr (Z.of_nat (length cs2)).
Proof.
  cbv zeta.
  destruct (calls_ids cs1 w) as (Hp1 & _ & Hi1).
  set (w1 := snd (calls cs1 w)) in *.
  set (w2 := snd (drain_rpc_counter w1)).
  destruct (calls_ids cs2 w2) as (Hp2 & Hc2 & _).
  repeat split.
  - rewrite Hp2. change (Loadgen.log w2) with (Loadgen.log w1).
    change (Loadgen._id (rpc w2)) with (Loadgen._id (rpc w1)).
    rewrite Hp1, Hi1, <- app_assoc. f_equal.
    rewrite seq_app, map_app. f_equal.
    rewrite ids_offset. f_equal. f_equal. lia.
  - cbn. f_equal. exact Hc2.
Qed.

(** ** Start-up: [get_sender] *)

(** X5. When the node answers [eth_accounts] with a list, [get_sender]
    returns its first element, and raises [RuntimeError] when the list is
    empty; either way it has posted that one request and none of the
    three transaction counters has changed. *)
Theorem get_sender_first_account w accounts :
  decode (http w (request "eth_accounts" (JArr []) w)) = inr (JArr accounts) ->
  let r := get_sender w in
  fst r = match accounts with
          | a :: _ => inr a
          | [] => inl (RuntimeError (JStr no_accounts))
          end /\
  posts (Loadgen.log (snd r)) = posts (Loadgen.log w) ++ [request "eth_accounts" (JArr []) w] /\
  TX_SENT (reg (snd r)) = TX_SENT (reg w) /\
  TX_OK (reg (snd r)) = TX_OK (reg w) /\
  TX_ERR (reg (snd r)) = TX_ERR (reg w).
Proof.
  intros H. cbv zeta. unfold get_sender, bind.
  pose proof (call_result "eth_accounts" (JArr []) w) as R. rewrite H in R.
  pose proof (call_log "eth_accounts" (JArr []) w) as L.
  destruct (call_registry "eth_accounts" (JArr []) w) as (S & O & X & _).
  destruct (call "eth_accounts" (JArr []) w) as [r w']. cbn [fst snd] in *. subst r.
  assert (P : posts (Loadgen.log w') = posts (Loadgen.log w) ++ [request "eth_accounts" (JArr []) w])
    by (rewrite L, posts_app; reflexivity).
  destruct accounts as [|a rest]; cbn; auto.
Qed.

Lemma get_sender_first_account_example :
  fst (get_sender (Fixtures.fresh Cases.funded_node)) = inr (JStr "0xf0") /\
  fst (get_sender (Fixtures.fresh Cases.locked_node))
    = inl (RuntimeError (JStr no_accounts)).
Proof.
  split.
  - exact (proj1 (get_sender_first_account (Fixtures.fresh Cases.funded_node)
                    Cases.two_accounts eq_refl)).
  - exact (proj1 (get_sender_first_account (Fixtures.fresh Cases.locked_node) [] eq_refl)).
Defined.

(** [get_sender] passes on whatever the call raises. *)
Lemma get_sender_propagates w e :
  fst (call "eth_accounts" (JArr []) w) = inl e -> fst (get_sender w) = inl e.
Proof.
  unfold get_sender, bind.
  destruct (call "eth_accounts" (JArr []) w) as [[e'|v] w']; cbn; [congruence|discriminate].
Qed.

(** ** Read traffic: [rps_loop] *)

Lemma Qle_bool_false a b : Qle_bool a b = false <-> (b < a)%Q.
Proof.
  split; intros H.
  - apply Qnot_le_lt. intros Hle. apply Qle_bool_iff in Hle. congruence.
  - destruct (Qle_bool a b) eqn:E; [|reflexivity].
    apply Qle_bool_iff in E. exfalso. exact (Qlt_not_le _ _ H E).
Qed.

(** With a rate that is not positive [rps_loop] returns at once: no
    request, no clock reading, no change to the world. *)
Lemma rps_loop_disabled method params_fn rps n w :
  (rps <= 0)%Q ->
  rps_loop method params_fn rps n w = (inr None, w).
Proof.
  intros H. unfold rps_loop. apply Qle_bool_iff in H. now rewrite H.
Qed.

Lemma rps_loop_disabled_example :
  rps_loop "eth_blockNumber" (fun _ => JArr []) 0 7 (Fixtures.fresh Fixtures.rejecting_node)
  = (inr None, Fixtures.fresh Fixtures.rejecting_node).
Proof.
  exact (rps_loop_disabled "eth_blockNumber" (fun _ => JArr []) 0 7
           (Fixtures.fresh Fixtures.rejecting_node) ltac:(discriminate)).
Defined.

(** What waiting for a deadline changes: one clock reading, and a sleep
    in the log when the deadline lies ahead. *)
Lemma wait_deadline_effect g w :
  let w' := snd (wait_deadline g w) in
  rpc w' = rpc w /\ reg w' = reg w /\ http w' = http w /\ clock w' = clock w /\
  reads w' = S (reads w) /\
  posts (Loadgen.log w') = posts (Loadgen.log w) /\
  sleeps (Loadgen.log w') =
    sleeps (Loadgen.log w)
      ++ (if Qltb (clock w (reads w)) (next_t g)
          then [(next_t g - clock w (reads w))%Q] else []).
Proof.
  unfold wait_deadline. run_M.
  destruct (Qltb (clock w (reads w)) (next_t g)); cbn;
    rewrite ?posts_app, ?app_nil_r; repeat split.
  clear. induction (Loadgen.log w) as [|[] l IH]; cbn; rewrite ?IH; reflexivity.
Qed.

Lemma swallowed_call method params w :
  try_except (_ <- call method params ;; ret tt) (fun _ => ret tt) w
  = (inr tt, snd (call method params w)).
Proof.
  unfold bind, try_except, ret.
  destruct (call method params w) as [[e|v] w']; reflexivity.
Qed.

(** What [n] turns of the loop do, from any deadline. *)
Lemma rps_iterations_run method params_fn n : forall g w,
  exists g' w',
    rps_iterations method params_fn n g w = (inr g', w') /\
    posts (Loadgen.log w') =
      posts (Loadgen.log w)
        ++ map (fun k => mkPayload "2.0" method (params_fn tt)
                           (Loadgen._id (rpc w) + Z.of_nat k))
             (seq 1 n) /\
    TX_SENT (reg w') = TX_SENT (reg w) /\
    TX_OK (reg w') = TX_OK (reg w) /\
    TX_ERR (reg w') = TX_ERR (reg w) /\
    RPC_REQ (reg w') method = RPC_REQ (reg w) method + Z.of_nat n /\
    Loadgen._id (rpc w') = Loadgen._id (rpc w) + Z.of_nat n /\
    Loadgen._rpc_counter (rpc w') = Loadgen._rpc_counter (rpc w) + Z.of_nat n.
Proof.
  induction n as [|n IH]; intros g w.
  - exists g, w. cbn. rewrite app_nil_r. repeat split; lia.
  - cbn [rps_iterations]. unfold bind at 1.
    destruct (wait_deadline_effect g w) as (Wr & Wg & Wh & _ & _ & Wp & _).
    pose proof (wait_deadline_returns g w) as Wret.
    destruct (wait_deadline g w) as [r0 w0]. cbn [fst snd] in *. subst r0.
    unfold bind at 1. rewrite swallowed_call.
    pose proof (call_rpc method (params_fn tt) w0) as Cr.
    pose proof (call_log method (params_fn tt) w0) as Cl.
    destruct (call_registry method (params_fn tt) w0) as (CS & CO & CX & _ & _ & _ & _ & CR).
    set (w1 := snd (call method (params_fn tt) w0)) in *.
    destruct (IH (advance g) w1) as (g' & w' & E & Hp & HS & HO & HX & HR & Hid & Hc).
    exists g', w'. split; [exact E|].
    rewrite Hp, HS, HO, HX, HR, Hid, Hc, Cl, Cr, CS, CO, CX, CR, posts_app, Wp, Wg.
    cbn [Loadgen._id Loadgen._rpc_counter posts app].
    rewrite upd_same, Wr. unfold request. rewrite Wr.
    repeat split; try lia.
    rewrite <- app_assoc. f_equal. cbn [seq map app]. f_equal.
    rewrite <- (seq_shift n 1), map_map. apply map_ext. intros k. f_equal. lia.
Qed.

(** X6. With a positive rate the loop never raises, whatever the node
    answers: in [n] turns it posts exactly [n] requests, all for its
    method and with the ids that follow the current one; it counts them
    for its method and leaves the transaction counters alone, so failed
    reads are not counted as errors. *)
Theorem rps_loop_running method params_fn rps n w :
  (0 < rps)%Q ->
  exists g w',
    rps_loop method params_fn rps n w = (inr (Some g), w') /\
    posts (Loadgen.log w') =
      posts (Loadgen.log w)
        ++ map (fun k => mkPayload "2.0" method (params_fn tt)
                           (Loadgen._id (rpc w) + Z.of_nat k))
             (seq 1 n) /\
    TX_SENT (reg w') = TX_SENT (reg w) /\
    TX_OK (reg w') = TX_OK (reg w) /\
    TX_ERR (reg w') = TX_ERR (reg w) /\
    RPC_REQ (reg w') method = RPC_REQ (reg w) method + Z.of_nat n.
Proof.
  intros Hr. unfold rps_loop.
  apply Qle_bool_false in Hr as Hb. rewrite Hb.
  unfold bind at 1. unfold lift at 1. rewrite (truediv_pos _ _ Hr).
  unfold bind at 1. unfold perf_counter at 1. cbv iota beta.
  set (w0 := mkWorld (rpc w) (reg w) (http w) (clock w) (S (reads w)) (Loadgen.log w)).
  destruct (rps_iterations_run method params_fn n (mkLimiter (1 / rps) (clock w (reads w))) w0)
    as (g & w' & E & Hp & HS & HO & HX & HR & _).
  exists g, w'. unfold bind. rewrite E. repeat split; assumption.
Qed.

(** Three turns against a node that rejects everything: three requests,
    no error counted. *)
Lemma rps_loop_running_example :
  exists g w',
    rps_loop "eth_blockNumber" (fun _ => JArr []) 10 3 (Fixtures.fresh Fixtures.rejecting_node)
      = (inr (Some g), w') /\
    map req_id (posts (Loadgen.log w')) = [1; 2; 3] /\
    TX_ERR (reg w') = 0.
Proof.
  destruct (rps_loop_running "eth_blockNumber" (fun _ => JArr []) 10 3
              (Fixtures.fresh Fixtures.rejecting_node) eq_refl)
    as (g & w' & E & Hp & _ & _ & HX & _).
  exists g, w'. split; [exact E|]. rewrite Hp, HX. split; reflexivity.
Defined.

(** ** Transactions without a fee, and runs of units *)

(** X7. When the fee request fails, or its answer cannot be read as a
    number, [send_tx] raises that failure and submits nothing: the fee
    request is the only request it has posted, and the attempt counts as
    one error. *)
Theorem send_tx_fee_unavailable sender to_addr value_eth w e :
  fee_reading w = inl e ->
  let r := send_tx sender to_addr value_eth w in
  fst r = inl e /\
  posts (Loadgen.log (snd r))
    = posts (Loadgen.log w) ++ [request "eth_maxPriorityFeePerGas" (JArr []) w] /\
  TX_SENT (reg (snd r)) = TX_SENT (reg w) + 1 /\
  TX_ERR (reg (snd r)) = TX_ERR (reg w) + 1 /\
  TX_OK (reg (snd r)) = TX_OK (reg w) /\
  Loadgen._rpc_counter (rpc (snd r)) = Loadgen._rpc_counter (rpc w) + 1.
Proof.
  unfold fee_reading. intros H. cbv zeta. rewrite send_tx_unfold.
  pose proof (call_registry "eth_maxPriorityFeePerGas" (JArr []) (attempted w)) as R1.
  pose proof (call_log "eth_maxPriorityFeePerGas" (JArr []) (attempted w)) as L1.
  pose proof (call_rpc "eth_maxPriorityFeePerGas" (JArr []) (attempted w)) as C1.
  fold (fee_call w) in R1, L1, C1. cbv zeta in R1.
  destruct R1 as (S1 & O1 & X1 & _).
  pose proof (inc_effect CTxSent w) as I0. cbv zeta in I0. fold (attempted w) in I0.
  destruct I0 as (S0 & O0 & X0 & L0 & C0).
  assert (Q : request "eth_maxPriorityFeePerGas" (JArr []) (attempted w)
              = request "eth_maxPriorityFeePerGas" (JArr []) w)
    by (unfold request; now rewrite C0).
  assert (G : forall w1, snd (fee_call w) = w1 ->
            posts (Loadgen.log (snd (inc CTxErr w1)))
              = posts (Loadgen.log w) ++ [request "eth_maxPriorityFeePerGas" (JArr []) w] /\
            TX_SENT (reg (snd (inc CTxErr w1))) = TX_SENT (reg w) + 1 /\
            TX_ERR (reg (snd (inc CTxErr w1))) = TX_ERR (reg w) + 1 /\
            TX_OK (reg (snd (inc CTxErr w1))) = TX_OK (reg w) /\
            Loadgen._rpc_counter (rpc (snd (inc CTxErr w1))) = Loadgen._rpc_counter (rpc w) + 1).
  { intros w1 <-.
    pose proof (inc_effect CTxErr (snd (fee_call w))) as I. cbv zeta in I.
    destruct I as (S & O & X & L & C).
    rewrite L, L1, L0, !posts_app, Q, C, C1, C0, S, O, X. cbn [posts app Loadgen._rpc_counter].
    rewrite !app_nil_r. repeat split; lia. }
  destruct (fee_call w) as [[e'|tip] w1]; cbn [fst snd] in *.
  - injection H as ->. split; [reflexivity|]. now apply G.
  - rewrite H. cbn [fst snd]. split; [reflexivity|]. now apply G.
Qed.

(** A rejected fee request, and a fee that is no hexadecimal number. *)
Lemma send_tx_fee_unavailable_example :
  fst (send_tx "0xf0" "0xf1" 1 (Fixtures.fresh Fixtures.rejecting_node))
    = inl (RuntimeError Fixtures.rpc_error) /\
  fst (send_tx "0xf0" "0xf1" 1 (Fixtures.fresh Cases.vague_node)) = inl ValueError /\
  map method (posts (Loadgen.log
                (snd (send_tx "0xf0" "0xf1" 1 (Fixtures.fresh Cases.vague_node)))))
    = ["eth_maxPriorityFeePerGas"].
Proof.
  split; [|split].
  - exact (proj1 (send_tx_fee_unavailable "0xf0" "0xf1" 1
                    (Fixtures.fresh Fixtures.rejecting_node) _ eq_refl)).
  - exact (proj1 (send_tx_fee_unavailable "0xf0" "0xf1" 1
                    (Fixtures.fresh Cases.vague_node) _ eq_refl)).
  - destruct (send_tx_fee_unavailable "0xf0" "0xf1" 1
                (Fixtures.fresh Cases.vague_node) ValueError eq_refl) as (_ & P & _).
    rewrite P. reflexivity.
Defined.

(** What one unit of work leaves behind, whatever the node does. *)
Lemma one_effect sender to_addr value_eth w :
  exists w' ps,
    one sender to_addr value_eth w = (inr tt, w') /\
    posts (Loadgen.log w') = posts (Loadgen.log w) ++ ps /\
    (1 <= length ps <= 2)%nat /\
    TX_SENT (reg w') = TX_SENT (reg w) + 1 /\
    TX_OK (reg w') + TX_ERR (reg w') = TX_OK (reg w) + TX_ERR (reg w) + 1 /\
    TX_OK (reg w) <= TX_OK (reg w') /\
    TX_ERR (reg w) <= TX_ERR (reg w') /\
    Loadgen._rpc_counter (rpc w')
      = Loadgen._rpc_counter (rpc w) + Z.of_nat (length ps).
Proof.
  unfold one, try_except. rewrite send_tx_unfold.
  pose proof (call_registry "eth_maxPriorityFeePerGas" (JArr []) (attempted w)) as R1.
  pose proof (call_log "eth_maxPriorityFeePerGas" (JArr []) (attempted w)) as L1.
  pose proof (call_rpc "eth_maxPriorityFeePerGas" (JArr []) (attempted w)) as C1.
  fold (fee_call w) in R1, L1, C1. cbv zeta in R1.
  destruct R1 as (S1 & O1 & X1 & _).
  pose proof (inc_effect CTxSent w) as I0. cbv zeta in I0. fold (attempted w) in I0.
  destruct I0 as (S0 & O0 & X0 & L0 & C0).
  set (fee := request "eth_maxPriorityFeePerGas" (JArr []) (attempted w)) in *.
  assert (G1 : forall w1, snd (fee_call w) = w1 ->
            posts (Loadgen.log (snd (inc CTxErr w1))) = posts (Loadgen.log w) ++ [fee] /\
            (1 <= length [fee] <= 2)%nat /\
            TX_SENT (reg (snd (inc CTxErr w1))) = TX_SENT (reg w) + 1 /\
            TX_OK (reg (snd (inc CTxErr w1))) + TX_ERR (reg (snd (inc CTxErr w1)))
              = TX_OK (reg w) + TX_ERR (reg w) + 1 /\
            TX_OK (reg w) <= TX_OK (reg (snd (inc CTxErr w1))) /\
            TX_ERR (reg w) <= TX_ERR (reg (snd (inc CTxErr w1))) /\
            Loadgen._rpc_counter (rpc (snd (inc CTxErr w1)))
              = Loadgen._rpc_counter (rpc w) + Z.of_nat (length [fee])).
  { intros w1 <-.
    pose proof (inc_effect CTxErr (snd (fee_call w))) as I. cbv zeta in I.
    destruct I as (S & O & X & L & C).
    rewrite L, L1, L0, !posts_app, C, C1, C0, S, O, X.
    cbn [posts app Loadgen._rpc_counter length]. rewrite !app_nil_r.
    repeat split; lia. }
  destruct (fee_call w) as [[e'|tip] w1] eqn:E1; cbn [fst snd] in *.
  - exists (snd (inc CTxErr w1)), [fee]. split; [reflexivity|]. now apply G1.
  - destruct (tip_to_int tip) as [e|tip_wei].
    + exists (snd (inc CTxErr w1)), [fee]. split; [reflexivity|]. now apply G1.
    + unfold submit_call. rewrite E1. cbn [snd].
      set (ps := tx_params _ _ _ _ _).
      pose proof (call_registry "eth_sendTransaction" ps w1) as R2.
      pose proof (call_log "eth_sendTransaction" ps w1) as L2.
      pose proof (call_rpc "eth_sendTransaction" ps w1) as C2.
      cbv zeta in R2. destruct R2 as (S2 & O2 & X2 & _).
      destruct (call "eth_sendTransaction" ps w1) as [[e|v] w2]; cbn [fst snd] in *.
      * pose proof (inc_effect CTxErr w2) as I. cbv zeta in I.
        destruct I as (S & O & X & L & C).
        exists (snd (inc CTxErr w2)), [fee; request "eth_sendTransaction" ps w1].
        split; [reflexivity|].
        rewrite L, L2, L1, L0, !posts_app, C, C2, C1, C0, S, O, X.
        cbn [posts app Loadgen._rpc_counter length]. rewrite !app_nil_r, <- !app_assoc.
        repeat split; try lia.
      * pose proof (inc_effect CTxOk w2) as I. cbv zeta in I.
        destruct I as (S & O & X & L & C).
        exists (snd (inc CTxOk w2)), [fee; request "eth_sendTransaction" ps w1].
        split; [reflexivity|].
        rewrite L, L2, L1, L0, !posts_app, C, C2, C1, C0, S, O, X.
        cbn [posts app Loadgen._rpc_counter length]. rewrite !app_nil_r, <- !app_assoc.
        repeat split; try lia.
Qed.

(** X8. Any number of units of work run to their end without raising,
    whatever the node answers.  Afterwards the attempted counter has
    grown by that number and so has the sum of the ok and error counters,
    neither of which went down: every attempt is accounted for as exactly
    one success or one failure.  Between one and two requests were posted
    per unit, and each was counted for the sampler. *)
Theorem units_accounting n sender to_addr value_eth : forall w,
  exists w' ps,
    units n sender to_addr value_eth w = (inr tt, w') /\
    posts (Loadgen.log w') = posts (Loadgen.log w) ++ ps /\
    (n <= length ps <= 2 * n)%nat /\
    TX_SENT (reg w') = TX_SENT (reg w) + Z.of_nat n /\
    TX_OK (reg w') + TX_ERR (reg w') = TX_OK (reg w) + TX_ERR (reg w) + Z.of_nat n /\
    TX_OK (reg w) <= TX_OK (reg w') /\
    TX_ERR (reg w) <= TX_ERR (reg w') /\
    Loadgen._rpc_counter (rpc w')
      = Loadgen._rpc_counter (rpc w) + Z.of_nat (length ps).
Proof.
  induction n as [|n IH]; intros w.
  - exists w, []. cbn. rewrite app_nil_r. repeat split; lia.
  - cbn [units]. unfold bind.
    destruct (one_effect sender to_addr value_eth w)
      as (w1 & ps1 & E1 & P1 & N1 & S1 & A1 & O1 & X1 & C1).
    rewrite E1.
    destruct (IH w1) as (w' & ps & E & P & N & S & A & O & X & C).
    exists w', (ps1 ++ ps). split; [exact E|].
    rewrite P, P1, C, C1, S, S1, A, A1, length_app, <- app_assoc.
    repeat split; lia.
Qed.

(** ** The sampler: a window of length zero, ranges, its own requests *)

Lemma sleeps_app l1 l2 : sleeps (l1 ++ l2) = sleeps l1 ++ sleeps l2.
Proof. induction l1 as [|[] l1 IH]; cbn; rewrite ?IH; reflexivity. Qed.

(** X9. A window of length zero ends in [ZeroDivisionError], raised by
    the division of the RPS line: the achieved-TPS gauge has been set to
    0 by then and the call counter has been drained, so the calls it
    counted are lost; the RPS and MGas/s gauges keep their values and no
    request is made. *)
Theorem sampler_window_zero W st w :
  (W == 0)%Q ->
  let r := sampler_window W st w in
  fst r = inl ZeroDivisionError /\
  ACH_TPS (reg (snd r)) = 0%Q /\
  Loadgen._rpc_counter (rpc (snd r)) = 0 /\
  RPS (reg (snd r)) = RPS (reg w) /\
  MGAS_S (reg (snd r)) = MGAS_S (reg w) /\
  posts (Loadgen.log (snd r)) = posts (Loadgen.log w).
Proof.
  intros HW. cbv zeta.
  assert (E0 : Qeq_bool W 0 = true) by now apply Qeq_bool_iff.
  assert (E1 : Qltb 0 W = false).
  { unfold Qltb. apply negb_false_iff, Qle_bool_iff. rewrite HW. apply Qle_refl. }
  enough (H : exists w',
            sampler_rates W st (snd (asyncio_sleep W w)) = (inl ZeroDivisionError, w') /\
            ACH_TPS (reg w') = 0%Q /\
            Loadgen._rpc_counter (rpc w') = 0 /\
            RPS (reg w') = RPS (reg w) /\
            MGAS_S (reg w') = MGAS_S (reg w) /\
            posts (Loadgen.log w') = posts (Loadgen.log w)).
  { destruct H as (w' & E & H).
    assert (EW : sampler_window W st w = (inl ZeroDivisionError, w')).
    { unfold sampler_window. unfold bind at 1.
      change (asyncio_sleep W w) with (inr tt : result unit, snd (asyncio_sleep W w)).
      cbv iota. unfold bind at 1. rewrite E. reflexivity. }
    rewrite EW. split; [reflexivity|exact H]. }
  unfold sampler_rates, asyncio_sleep.
  unfold bind at 1. unfold gets at 1. cbv iota beta.
  unfold bind at 1. unfold gets at 1. cbv iota beta.
  cbn [snd modify with_log reg TX_OK TX_ERR].
  set (ok := TX_OK (reg w)). set (err := TX_ERR (reg w)).
  unfold bind at 1. rewrite E1.
  destruct (0 <? ok - last_ok st + (err - last_err st)) eqn:ET.
  - apply Z.ltb_lt in ET. run_M.
    rewrite (truediv_pos _ _ (inject_Z_pos _ ET)). cbn.
    unfold truediv. rewrite E0. cbn. eexists. split; [reflexivity|]. cbn.
    rewrite posts_app, app_nil_r. repeat split.
  - run_M. unfold truediv. rewrite E0. cbn. eexists. split; [reflexivity|]. cbn.
    rewrite posts_app, app_nil_r. repeat split.
Qed.

Lemma sampler_window_zero_example :
  fst (sampler_window 0 Fixtures.seen15 (Fixtures.busy 0)) = inl ZeroDivisionError /\
  Loadgen._rpc_counter (rpc (Fixtures.busy 0)) = 300 /\
  Loadgen._rpc_counter (rpc (snd (sampler_window 0 Fixtures.seen15 (Fixtures.busy 0)))) = 0.
Proof.
  destruct (sampler_window_zero 0 Fixtures.seen15 (Fixtures.busy 0) (Qeq_refl 0))
    as (H1 & _ & H2 & _).
  split; [exact H1|]. split; [reflexivity|exact H2].
Defined.

Lemma Qdiv_nonneg a b : (0 <= a)%Q -> (0 < b)%Q -> (0 <= a / b)%Q.
Proof.
  intros Ha Hb. unfold Qdiv. apply Qmult_le_0_compat; [exact Ha|].
  apply Qlt_le_weak, Qinv_lt_0_compat, Hb.
Qed.

Lemma inject_Z_nonneg n : 0 <= n -> (0 <= inject_Z n)%Q.
Proof. intros H. change 0%Q with (inject_Z 0). now rewrite <- Zle_Qle. Qed.

(** X10. As long as the ok and error counters have not gone below the
    values of the previous snapshot, a window sets the failure rate to a
    number between 0 and 1 and the achieved TPS to a number that is not
    negative, for every window length but zero. *)
Theorem sampler_gauges_in_range W st w :
  ~ (W == 0)%Q ->
  last_ok st <= TX_OK (reg w) ->
  last_err st <= TX_ERR (reg w) ->
  let r := reg (snd (sampler_window W st w)) in
  (0 <= FAIL_RT r <= 1)%Q /\ (0 <= ACH_TPS r)%Q.
Proof.
  intros HW Hok Herr. cbv zeta. rewrite (sampler_window_unfold _ _ _ HW).
  destruct (sampler_mgas_frame (rated st w) (sampled W st w)) as (_ & _ & _ & HA & _ & HF).
  rewrite HA, HF. cbn [sampled reg ACH_TPS FAIL_RT].
  split.
  - destruct (0 <? _) eqn:ET; [|split; discriminate].
    apply Z.ltb_lt in ET.
    pose proof (inject_Z_pos _ ET) as HT.
    split.
    + apply Qdiv_nonneg; [apply inject_Z_nonneg; lia|exact HT].
    + apply Qle_shift_div_r; [exact HT|]. rewrite Qmult_1_l, <- Zle_Qle. lia.
  - destruct (Qltb 0 W) eqn:EW; [|discriminate].
    apply Qltb_lt in EW. apply Qdiv_nonneg; [apply inject_Z_nonneg; lia|exact EW].
Qed.

Lemma sampler_gauges_in_range_example :
  let r := reg (snd (sampler_window 5 Fixtures.seen15 (Fixtures.busy 0))) in
  (0 <= FAIL_RT r <= 1)%Q /\ (0 <= ACH_TPS r)%Q.
Proof.
  apply (sampler_gauges_in_range 5 Fixtures.seen15 (Fixtures.busy 0)).
  - discriminate.
  - cbn. lia.
  - cbn. lia.
Defined.

(** The requests step 3 makes: one or two, each counted. *)
Lemma sampler_mgas_posts st w r w' :
  sampler_mgas st w = (r, w') ->
  exists ps,
    posts (Loadgen.log w') = posts (Loadgen.log w) ++ ps /\
    (1 <= length ps <= 2)%nat /\
    Loadgen._rpc_counter (rpc w')
      = Loadgen._rpc_counter (rpc w) + Z.of_nat (length ps).
Proof.
  unfold sampler_mgas. unfold bind at 1.
  pose proof (call_log "eth_getBlockByNumber" latest_block w) as L1.
  pose proof (call_rpc "eth_getBlockByNumber" latest_block w) as C1.
  set (p1 := request "eth_getBlockByNumber" latest_block w) in *.
  destruct (call "eth_getBlockByNumber" latest_block w) as [r1 w1]. cbn [fst snd] in *.
  assert (H1 : posts (Loadgen.log w1) = posts (Loadgen.log w) ++ [p1] /\
               (1 <= length [p1] <= 2)%nat /\
               Loadgen._rpc_counter (rpc w1)
                 = Loadgen._rpc_counter (rpc w) + Z.of_nat (length [p1])).
  { rewrite L1, C1, posts_app. cbn. repeat split; lia. }
  destruct r1 as [e|blk]; [intros [= <- <-]; exists [p1]; exact H1|].
  step_lift; [intros [= <- <-]; exists [p1]; exact H1|].
  destruct (last_num st <? v); [|cbn; intros [= <- <-]; exists [p1]; exact H1].
  step_lift; [intros [= <- <-]; exists [p1]; exact H1|].
  unfold bind at 1.
  pose proof (call_log "eth_getBlockByHash" (JArr [v0; JBool false]) w1) as L2.
  pose proof (call_rpc "eth_getBlockByHash" (JArr [v0; JBool false]) w1) as C2.
  set (p2 := request "eth_getBlockByHash" (JArr [v0; JBool false]) w1) in *.
  destruct (call "eth_getBlockByHash" _ w1) as [r2 w2]. cbn [fst snd] in *.
  assert (H2 : posts (Loadgen.log w2) = posts (Loadgen.log w) ++ [p1; p2] /\
               (1 <= length [p1; p2] <= 2)%nat /\
               Loadgen._rpc_counter (rpc w2)
                 = Loadgen._rpc_counter (rpc w) + Z.of_nat (length [p1; p2])).
  { destruct H1 as (P1 & _ & K1).
    cbn [length] in K1.
    rewrite L2, C2, posts_app, P1, <- app_assoc. cbn. repeat split; lia. }
  destruct r2 as [e|parent]; [intros [= <- <-]; exists [p1; p2]; exact H2|].
  do 5 (step_lift; [intros [= <- <-]; exists [p1; p2]; exact H2|]).
  cbn. intros [= <- <-]. exists [p1; p2]. exact H2.
Qed.

(** X11. The sampler's own requests are in the count it turns into the
    RPS gauge.  A window drains the call counter before it asks for the
    head block, so at its end, completed or failed, the counter holds
    the one or two requests the window itself made; in a process that
    makes no other call the next window therefore reports that many
    calls over the window length, never zero. *)
Theorem sampler_counts_own_requests W st w :
  ~ (W == 0)%Q ->
  let w1 := snd (sampler_window W st w) in
  exists ps,
    posts (Loadgen.log w1) = posts (Loadgen.log w) ++ ps /\
    (1 <= length ps <= 2)%nat /\
    Loadgen._rpc_counter (rpc w1) = Z.of_nat (length ps) /\
    forall st1,
      RPS (reg (snd (sampler_window W st1 w1))) = (inject_Z (Z.of_nat (length ps)) / W)%Q.
Proof.
  intros HW. cbv zeta. rewrite (sampler_window_unfold _ _ _ HW).
  destruct (sampler_mgas (rated st w) (sampled W st w)) as [r w1] eqn:E.
  destruct (sampler_mgas_posts _ _ _ _ E) as (ps & P & N & K).
  cbn [snd]. exists ps.
  cbn [sampled Loadgen.log rpc Loadgen._rpc_counter] in P, K.
  rewrite posts_app in P. cbn [posts] in P. rewrite app_nil_r in P.
  split; [exact P|]. split; [exact N|]. split; [lia|].
  intros st1. rewrite (sampler_window_unfold _ _ _ HW).
  destruct (sampler_mgas_frame (rated st1 w1) (sampled W st1 w1)) as (_ & _ & _ & _ & HR & _).
  rewrite HR. cbn [sampled reg RPS]. rewrite K. reflexivity.
Qed.

(** In the busy process a window that finds a new block leaves 2 in the
    counter, and the window after it reports 2/5 calls per second. *)
Lemma sampler_counts_own_requests_example :
  let w1 := snd (sampler_window 5 Fixtures.seen15 (Fixtures.busy 0)) in
  Loadgen._rpc_counter (rpc w1) = 2 /\
  (RPS (reg (snd (sampler_window 5 Fixtures.seen16 w1))) == 2 # 5)%Q.
Proof.
  assert (HW : ~ (5 == 0)%Q) by discriminate.
  destruct (sampler_counts_own_requests 5 Fixtures.seen15 (Fixtures.busy 0) HW)
    as (ps & P & _ & K & R).
  cbv zeta. rewrite (R Fixtures.seen16).
  assert (L : length ps = 2%nat).
  { apply (f_equal (@length _)) in P. rewrite length_app in P.
    remember (length ps) as k. vm_compute in P. lia. }
  rewrite K, L. split; reflexivity.
Defined.

(** X12. The sampler has no handler around its requests: when the head
    request of a window fails, that failure ends the loop, however many
    windows were still to come.  The rates of that window have been
    published, the MGas/s gauge keeps its value, and the failed request
    and the one sleep before it are all the loop has done. *)
Theorem sampler_stops_at_failure W n st w e :
  ~ (W == 0)%Q ->
  decode (http w (head_request w)) = inl e ->
  let r := windows W (S n) st w in
  fst r = inl e /\
  posts (Loadgen.log (snd r)) = posts (Loadgen.log w) ++ [head_request w] /\
  sleeps (Loadgen.log (snd r)) = sleeps (Loadgen.log w) ++ [W] /\
  MGAS_S (reg (snd r)) = MGAS_S (reg w) /\
  same_rates (reg (sampled W st w)) (reg (snd r)).
Proof.
  intros HW He. cbv zeta.
  pose proof (call_result "eth_getBlockByNumber" latest_block (sampled W st w)) as R1.
  pose proof (call_log "eth_getBlockByNumber" latest_block (sampled W st w)) as L1.
  pose proof (call_same_rates "eth_getBlockByNumber" latest_block (sampled W st w)) as S1.
  destruct (call_registry "eth_getBlockByNumber" latest_block (sampled W st w))
    as (_ & _ & _ & _ & _ & M1 & _).
  change (request "eth_getBlockByNumber" latest_block (sampled W st w))
    with (head_request w) in R1, L1.
  change (http (sampled W st w)) with (http w) in R1.
  rewrite He in R1.
  assert (E : windows W (S n) st w
              = (inl e, snd (call "eth_getBlockByNumber" latest_block (sampled W st w)))).
  { cbn [windows]. unfold bind at 1.
    rewrite (sampler_window_unfold _ _ _ HW).
    unfold sampler_mgas. unfold bind at 1.
    destruct (call "eth_getBlockByNumber" latest_block (sampled W st w)) as [r1 w1].
    cbn [fst snd] in *. subst r1. reflexivity. }
  rewrite E. cbn [fst snd].
  rewrite L1, M1. cbn [sampled Loadgen.log reg MGAS_S].
  rewrite !posts_app, !sleeps_app. cbn [posts sleeps]. rewrite !app_nil_r.
  repeat split; try reflexivity; apply S1.
Qed.

Lemma sampler_stops_at_failure_example :
  fst (windows 5 3 Fixtures.seen15 (Fixtures.fresh Fixtures.rejecting_node))
    = inl (RuntimeError Fixtures.rpc_error) /\
  length (posts (Loadgen.log
            (snd (windows 5 3 Fixtures.seen15 (Fixtures.fresh Fixtures.rejecting_node)))))
    = 1%nat.
Proof.
  assert (HW : ~ (5 == 0)%Q) by discriminate.
  destruct (sampler_stops_at_failure 5 2 Fixtures.seen15
              (Fixtures.fresh Fixtures.rejecting_node) _ HW eq_refl) as (H1 & H2 & _).
  split; [exact H1|]. rewrite H2. reflexivity.
Defined.

(** ** The pacer: any rate, and a rate that is not positive *)

Lemma Qltb_ge a b : Qltb a b = false <-> (b <= a)%Q.
Proof.
  unfold Qltb. rewrite negb_false_iff. apply Qle_bool_iff.
Qed.

(** One run of the generator to its next [yield], from either state. *)
Lemma anext_effect gen w :
  exists g w' ds,
    anext gen w = (inr (AtYield g), w') /\
    rpc w' = rpc w /\ reg w' = reg w /\ http w' = http w /\ clock w' = clock w /\
    posts (Loadgen.log w') = posts (Loadgen.log w) /\
    sleeps (Loadgen.log w') = sleeps (Loadgen.log w) ++ ds /\
    Forall (fun d => (0 < d)%Q) ds /\ (length ds <= 1)%nat.
Proof.
  assert (W : forall g w0,
            exists w' ds,
              (wait_deadline g ;; ret (AtYield g)) w0 = (inr (AtYield g), w') /\
              rpc w' = rpc w0 /\ reg w' = reg w0 /\ http w' = http w0 /\
              clock w' = clock w0 /\
              posts (Loadgen.log w') = posts (Loadgen.log w0) /\
              sleeps (Loadgen.log w') = sleeps (Loadgen.log w0) ++ ds /\
              Forall (fun d => (0 < d)%Q) ds /\ (length ds <= 1)%nat).
  { intros g w0. unfold bind.
    destruct (wait_deadline_effect g w0) as (Hr & Hg & Hh & Hc & _ & Hp & Hs).
    pose proof (wait_deadline_returns g w0) as Hret.
    destruct (wait_deadline g w0) as [r0 w']. cbn [fst snd] in *. subst r0.
    exists w'. eexists. split; [reflexivity|].
    split; [exact Hr|]. split; [exact Hg|]. split; [exact Hh|]. split; [exact Hc|].
    split; [exact Hp|]. split; [exact Hs|].
    destruct (Qltb (clock w0 (reads w0)) (next_t g)) eqn:E.
    - apply Qltb_lt in E. split; [|cbn; lia].
      constructor; [|constructor].
      apply (Qplus_lt_l _ _ (clock w0 (reads w0))). ring_simplify. exact E.
    - split; [constructor|cbn; lia]. }
  destruct gen as [tps|g].
  - unfold anext.
    assert (I : exists i, (if Qltb 0 tps then lift (truediv 1 tps) else ret 0%Q) w = (inr i, w)).
    { destruct (Qltb 0 tps) eqn:E.
      - apply Qltb_lt in E. unfold lift. rewrite (truediv_pos _ _ E). eexists. reflexivity.
      - eexists. reflexivity. }
    destruct I as (i & I). unfold bind at 1. rewrite I.
    unfold bind at 1. unfold perf_counter at 1. cbv iota beta.
    set (w0 := mkWorld _ _ _ _ _ _).
    destruct (W (mkLimiter i (clock w (reads w))) w0) as (w' & ds & E & H).
    exists (mkLimiter i (clock w (reads w))), w', ds. split; [exact E|exact H].
  - unfold anext.
    destruct (W (advance g) w) as (w' & ds & E & H).
    exists (advance g), w', ds. split; [exact E|exact H].
Qed.

(** X13. The pacer never raises, at any rate, positive or not; it makes
    no request and changes no metric; and it never sleeps for a time that
    is zero or negative: each of its at most [n] sleeps in [n] ticks is
    positive. *)
Theorem pacer_only_sleeps n : forall gen w,
  exists gen' w' ds,
    ticks n gen w = (inr gen', w') /\
    rpc w' = rpc w /\ reg w' = reg w /\
    posts (Loadgen.log w') = posts (Loadgen.log w) /\
    sleeps (Loadgen.log w') = sleeps (Loadgen.log w) ++ ds /\
    Forall (fun d => (0 < d)%Q) ds /\ (length ds <= n)%nat.
Proof.
  induction n as [|n IH]; intros gen w.
  - exists gen, w, []. cbn. rewrite app_nil_r. repeat split; auto.
  - cbn [ticks]. unfold bind.
    destruct (anext_effect gen w) as (g & w1 & ds1 & E1 & R1 & G1 & _ & _ & P1 & S1 & F1 & N1).
    rewrite E1.
    destruct (IH (AtYield g) w1) as (gen' & w' & ds & E & R & G & P & S & F & N).
    exists gen', w', (ds1 ++ ds). split; [exact E|].
    rewrite R, R1, G, G1, P, P1, S, S1, <- app_assoc, length_app.
    repeat split; [apply Forall_app; split; assumption|lia].
Qed.

(** Ticks of a generator whose interval is 0 and whose deadline has
    passed, on a clock that does not run backwards. *)
Lemma ticks_unpaced n : forall g w,
  interval g = 0%Q ->
  (next_t g <= clock w (reads w))%Q ->
  monotone (clock w) ->
  exists g' w',
    ticks n (AtYield g) w = (inr (AtYield g'), w') /\
    interval g' = 0%Q /\ (next_t g' == next_t g)%Q /\
    sleeps (Loadgen.log w') = sleeps (Loadgen.log w) /\
    reads w' = (reads w + n)%nat.
Proof.
  induction n as [|n IH]; intros g w Hi Hn Hm.
  - exists g, w. cbn. repeat split; auto; try reflexivity.
  - cbn [ticks]. unfold bind at 1. unfold anext.
    assert (Ha : (next_t (advance g) == next_t g)%Q).
    { cbn [advance next_t]. rewrite Hi. ring. }
    assert (Hq : Qltb (clock w (reads w)) (next_t (advance g)) = false).
    { apply Qltb_ge. rewrite Ha. exact Hn. }
    destruct (wait_deadline_effect (advance g) w) as (_ & _ & _ & Hc & Hr & _ & Hs).
    pose proof (wait_deadline_returns (advance g) w) as Hret.
    rewrite Hq, app_nil_r in Hs.
    unfold bind at 1.
    destruct (wait_deadline (advance g) w) as [r0 w1]. cbn [fst snd] in *. subst r0.
    cbn [ret].
    destruct (IH (advance g) w1) as (g' & w' & E & Hi' & Hn' & Hs' & Hr').
    + exact Hi.
    + rewrite Ha, Hc, Hr. eapply Qle_trans; [exact Hn|]. apply Hm. lia.
    + now rewrite Hc.
    + exists g', w'. split; [exact E|]. split; [exact Hi'|].
      split; [now rewrite Hn', Ha|]. split; [congruence|lia].
Qed.

(** X14. A rate that is not positive does not stop the pacer: its
    interval is 0, so on a clock that does not run backwards its deadline
    stays at the first clock reading and every tick is let through
    without a sleep. *)
Theorem pacer_unpaced tps n w :
  (tps <= 0)%Q ->
  monotone (clock w) ->
  exists g w',
    ticks (S n) (rate_limiter tps) w = (inr (AtYield g), w') /\
    interval g = 0%Q /\
    (next_t g == clock w (reads w))%Q /\
    sleeps (Loadgen.log w') = sleeps (Loadgen.log w) /\
    reads w' = (reads w + n + 2)%nat.
Proof.
  intros Ht Hm. cbn [ticks]. unfold bind at 1. unfold rate_limiter, anext.
  assert (E0 : Qltb 0 tps = false) by now apply Qltb_ge.
  rewrite E0. unfold bind at 1. unfold ret at 1.
  unfold bind at 1. unfold perf_counter at 1. cbv iota beta.
  set (w0 := mkWorld _ _ _ _ _ _).
  set (g0 := mkLimiter 0 (clock w (reads w))).
  assert (Hq : Qltb (clock w0 (reads w0)) (next_t g0) = false).
  { apply Qltb_ge. cbn. apply Hm. lia. }
  destruct (wait_deadline_effect g0 w0) as (_ & _ & _ & Hc & Hr & _ & Hs).
  pose proof (wait_deadline_returns g0 w0) as Hret.
  rewrite Hq, app_nil_r in Hs.
  unfold bind at 1.
  destruct (wait_deadline g0 w0) as [r0 w1]. cbn [fst snd] in *. subst r0.
  cbn [ret].
  destruct (ticks_unpaced n g0 w1) as (g' & w' & E & Hi' & Hn' & Hs' & Hr').
  - reflexivity.
  - rewrite Hc, Hr. cbn. apply Hm. lia.
  - now rewrite Hc.
  - exists g', w'. split; [exact E|]. split; [exact Hi'|].
    split; [exact Hn'|]. split; [rewrite Hs', Hs; reflexivity|].
    rewrite Hr', Hr. cbn. lia.
Qed.

(** At rate 0, on the clock that advances 10 ms per reading, five ticks
    pass without a sleep. *)
Lemma pacer_unpaced_example :
  exists g w',
    ticks 5 (rate_limiter 0) (Fixtures.fresh Fixtures.rejecting_node) = (inr (AtYield g), w') /\
    sleeps (Loadgen.log w') = [] /\ reads w' = 6%nat.
Proof.
  destruct (pacer_unpaced 0 4 (Fixtures.fresh Fixtures.rejecting_node)
              ltac:(discriminate) clock10ms_monotone)
    as (g & w' & E & _ & _ & Hs & Hr).
  exists g, w'. split; [exact E|]. split; [exact Hs|exact Hr].
Defined.

(** ** Concurrent callers: mutual exclusion and progress *)

Import Liveness.

Lemma held_init : Held init.
Proof. intros H. discriminate. Qed.

Lemma held_step a s : Held s -> Held (exec1 s a).
Proof.
  intros Hh. unfold exec1, step.
  destruct a as [t|]; [|exact Hh].
  assert (Keep : forall p,
            critical (pcs s t) = critical p ->
            locked s = true -> exists t', critical (set_pc t p (pcs s) t') = true).
  { intros p Hp Hl. destruct (Hh Hl) as (t0 & H0). exists t0.
    pcs_at t0 t; [now rewrite <- Hp|exact H0]. }
  destruct (pcs s t) eqn:Et.
  - destruct (locked s) eqn:El; [exact Hh|].
    intros _. exists t. cbn. now rewrite set_pc_same.
  - intros Hl. cbn in Hl. apply Keep; [rewrite ?Et; reflexivity|exact Hl].
  - intros Hl. cbn in Hl. apply Keep; [rewrite ?Et; reflexivity|exact Hl].
  - intros Hl. cbn in Hl. discriminate.
  - intros Hl. cbn in Hl. apply Keep; [rewrite ?Et; reflexivity|exact Hl].
  - intros Hl. cbn in Hl. apply Keep; [rewrite ?Et; reflexivity|exact Hl].
  - exact Hh.
Qed.

Lemma held_exec sched : forall s, Held s -> Held (exec sched s).
Proof.
  induction sched as [|a sched IH]; intros s H; [exact H|].
  cbn. apply IH. now apply held_step.
Qed.

(** X15. Under every interleaving at most one caller is between taking
    and releasing the lock, and the lock is taken exactly while somebody
    is there: a free lock means nobody is inside, a taken lock means
    somebody is. *)
Theorem lock_mutual_exclusion sched :
  let s := exec sched init in
  (forall t1 t2,
     critical (pcs s t1) = true -> critical (pcs s t2) = true -> t1 = t2) /\
  (locked s = false -> forall t, critical (pcs s t) = false) /\
  (locked s = true -> exists t, critical (pcs s t) = true).
Proof.
  cbv zeta. destruct (inv_reachable sched) as [[Hfree Hone] _ _].
  split; [exact Hone|]. split; [exact Hfree|].
  apply held_exec, held_init.
Qed.

(** One statement of caller [t]: where it stands afterwards, and the
    lock. *)
Lemma run_pc s t :
  pcs (exec1 s (Run t)) t =
  match pcs s t with
  | Entered => if locked s then Entered else Locked
  | Locked => Bumped
  | Bumped => Holding (Schedule._id s)
  | Holding r => Unlocked r
  | Unlocked r => InFlight r
  | InFlight r | Finished r => Finished r
  end.
Proof.
  unfold exec1, step. destruct (pcs s t) eqn:Et; [destruct (locked s)|..];
    cbn; rewrite ?set_pc_same; auto.
Qed.

Lemma run_locked s t :
  locked (exec1 s (Run t)) =
  match pcs s t with
  | Entered => true
  | Holding _ => false
  | _ => locked s
  end.
Proof.
  unfold exec1, step. destruct (pcs s t) eqn:Et; [destruct (locked s) eqn:El|..];
    cbn; auto.
Qed.

(** With the lock free, six statements bring any caller to its end. *)
Lemma finish_when_free s t :
  locked s = false ->
  (forall t', critical (pcs s t') = false) ->
  exists r, pcs (exec (run t 6) s) t = Finished r.
Proof.
  intros Hl Hc. unfold run, exec. cbn [repeat fold_left].
  specialize (Hc t). rewrite !run_pc.
  destruct (pcs s t) eqn:Et; try discriminate; rewrite ?Hl; eexists; reflexivity.
Qed.

(** Three statements of the caller that is inside release the lock. *)
Lemma release_in_three s t :
  critical (pcs s t) = true ->
  locked (exec (run t 3) s) = false.
Proof.
  intros Hc. unfold run, exec. cbn [repeat fold_left].
  repeat (rewrite run_locked || rewrite run_pc).
  destruct (pcs s t) eqn:Et; try discriminate; reflexivity.
Qed.

Lemma lock_exec sched : forall s, LockInv s -> LockInv (exec sched s).
Proof.
  induction sched as [|a sched IH]; intros s H; [exact H|].
  cbn. apply IH. now apply lock_step.
Qed.

Lemma exec_app a b s : exec (a ++ b) s = exec b (exec a s).
Proof. unfold exec. apply fold_left_app. Qed.

(** From a state that keeps the lock invariants any caller can be
    brought to its end. *)
Lemma finish_from s t :
  LockInv s -> Held s ->
  exists more r, (length more <= 9)%nat /\ pcs (exec more s) t = Finished r.
Proof.
  intros HL HH. destruct (locked s) eqn:El.
  - destruct (HH El) as (t0 & H0).
    pose proof (release_in_three s t0 H0) as Hrel.
    pose proof (lock_exec (run t0 3) s HL) as [Hfree _].
    destruct (finish_when_free (exec (run t0 3) s) t Hrel (Hfree Hrel)) as (r & Hr).
    exists (run t0 3 ++ run t 6), r. split.
    + rewrite length_app. unfold run. rewrite !repeat_length. lia.
    + rewrite exec_app. exact Hr.
  - destruct HL as [Hfree _].
    destruct (finish_when_free s t El (Hfree El)) as (r & Hr).
    exists (run t 6), r. split; [|exact Hr].
    unfold run. rewrite repeat_length. lia.
Qed.

(** X16. No interleaving leaves a caller stuck at the lock: from every
    reachable state, and for every caller, the schedule can be continued
    so that this caller finishes its call with an id.  Nine more
    statements are enough: at most three of the caller that is inside,
    then six of its own. *)
Theorem call_can_finish sched t :
  exists more r,
    (length more <= 9)%nat /\
    pcs (exec (sched ++ more) init) t = Finished r.
Proof.
  destruct (finish_from (exec sched init) t) as (more & r & Hn & Hr).
  - destruct (inv_reachable sched) as [H _ _]. exact H.
  - apply held_exec, held_init.
  - exists more, r. split; [exact Hn|]. rewrite exec_app. exact Hr.
Qed.

(** ** The controller: variables of the Deployment *)

Import Deploy.

Lemma set_env_setitem {V : Type} (str : V -> string) env_list name value :
  _set_env str env_list name value
  = setitem env_list name (Some (match value with None => "" | Some v => str v end)).
Proof.
  unfold _set_env.
  induction env_list as [|[k v] l IH]; cbn; [reflexivity|].
  destruct (String.eqb k name); [reflexivity|]. now rewrite IH.
Qed.

Lemma get_setitem_same {A : Type} (d : dict A) k v : get (setitem d k v) k = Some v.
Proof.
  induction d as [|[k' v'] d IH]; cbn.
  - now rewrite String.eqb_refl.
  - destruct (String.eqb k' k) eqn:E; cbn; rewrite E; [reflexivity|exact IH].
Qed.

Lemma get_setitem_other {A : Type} (d : dict A) k v k' :
  k' <> k -> get (setitem d k v) k' = get d k'.
Proof.
  intros Hk. induction d as [|[k0 v0] d IH]; cbn.
  - destruct (String.eqb k k') eqn:E; [|reflexivity].
    apply String.eqb_eq in E. congruence.
  - destruct (String.eqb k0 k) eqn:E; cbn.
    + apply String.eqb_eq in E. subst k0.
      destruct (String.eqb k k') eqn:E'; [|reflexivity].
      apply String.eqb_eq in E'. congruence.
    + now rewrite IH.
Qed.

Lemma setitem_names {A : Type} (d : dict A) k v :
  map fst (setitem d k v)
  = if existsb (String.eqb k) (map fst d) then map fst d else map fst d ++ [k].
Proof.
  induction d as [|[k' v'] d IH]; cbn; [reflexivity|].
  rewrite (String.eqb_sym k k').
  destruct (String.eqb k' k) eqn:E; cbn; [reflexivity|].
  rewrite IH. destruct (existsb _ _); reflexivity.
Qed.

Lemma setitem_others l k v : others k (setitem l k v) = others k l.
Proof.
  unfold others. induction l as [|[k' v'] l IH]; cbn.
  - now rewrite String.eqb_refl.
  - destruct (String.eqb k' k) eqn:E; cbn; rewrite E; cbn; [reflexivity|now rewrite IH].
Qed.

Lemma existsb_names k (names : list string) :
  existsb (String.eqb k) names = true <-> In k names.
Proof.
  rewrite existsb_exists. split.
  - intros (x & Hx & E). apply String.eqb_eq in E. now subst.
  - intros H. exists k. split; [exact H|apply String.eqb_refl].
Qed.

Lemma setitem_nodup {A : Type} (d : dict A) k v :
  NoDup (map fst d) -> NoDup (map fst (setitem d k v)).
Proof.
  intros H. rewrite setitem_names.
  destruct (existsb (String.eqb k) (map fst d)) eqn:E; [exact H|].
  apply NoDup_snoc; [|exact H].
  intros Hin. apply existsb_names in Hin. congruence.
Qed.

(** X17. [_set_env] is an upsert.  The first entry with the name carries
    the new value, as a string, the empty one for [None]; no name is
    dropped or moved, and the name is appended at the end when it was
    missing; every entry with another name stays as it was, in its
    place. *)
Theorem set_env_upsert {V : Type} (str : V -> string) env_list name value :
  let l := _set_env str env_list name value in
  get l name = Some (Some (match value with None => "" | Some v => str v end)) /\
  map fst l = (if existsb (String.eqb name) (map fst env_list)
               then map fst env_list else map fst env_list ++ [name]) /\
  others name l = others name env_list /\
  (forall k, k <> name -> get l k = get env_list k).
Proof.
  cbv zeta. rewrite set_env_setitem.
  split; [apply get_setitem_same|]. split; [apply setitem_names|].
  split; [apply setitem_others|]. intros k Hk. now apply get_setitem_other.
Qed.

Lemma get_app {A : Type} (a b : list (string * A)) k :
  get (a ++ b) k = match get a k with Some v => Some v | None => get b k end.
Proof.
  induction a as [|[k' v'] a IH]; cbn; [reflexivity|].
  destruct (String.eqb k' k); [reflexivity|exact IH].
Qed.

Lemma get_none {A : Type} (d : list (string * A)) k :
  get d k = None <-> ~ In k (map fst d).
Proof.
  induction d as [|[k' v'] d IH]; cbn; [tauto|].
  destruct (String.eqb k' k) eqn:E.
  - apply String.eqb_eq in E. split; [discriminate|]. intros H. exfalso. auto.
  - apply String.eqb_neq in E. rewrite IH. tauto.
Qed.

(** The dict of [read_env] holds, for every name, the value of the last
    entry with that name. *)
Lemma env_dict_last (l : list entry) : forall (d : dict (option string)) k,
  get (fold_left (fun d e => setitem d (fst e) (snd e)) l d) k
  = match get (rev l) k with Some v => Some v | None => get d k end.
Proof.
  induction l as [|[k0 v0] l IH]; intros d k; [reflexivity|].
  cbn [fold_left rev fst snd]. rewrite IH, get_app. cbn [get].
  destruct (get (rev l) k); [reflexivity|].
  destruct (String.eqb k0 k) eqn:E.
  - apply String.eqb_eq in E. subst. apply get_setitem_same.
  - apply String.eqb_neq in E. apply get_setitem_other. congruence.
Qed.

Lemma env_dict_get l k : get (env_dict l) k = get (rev l) k.
Proof.
  unfold env_dict. rewrite env_dict_last. destruct (get (rev l) k); reflexivity.
Qed.

Lemma get_rev_nodup {A : Type} (l : list (string * A)) k :
  NoDup (map fst l) -> get (rev l) k = get l k.
Proof.
  induction l as [|[k' v'] l IH]; intros H; [reflexivity|].
  cbn [map fst] in H. inversion H as [|? ? Hn Hl]; subst.
  cbn [rev get]. rewrite get_app, (IH Hl). cbn [get].
  destruct (String.eqb k' k) eqn:E.
  - apply String.eqb_eq in E. subst.
    apply get_none in Hn. now rewrite Hn.
  - destruct (get l k); reflexivity.
Qed.

(** X18. Setting a variable and reading the environment back: when no
    name occurs twice in the list, the dict [read_env] builds from the
    list after [_set_env] gives the new value for that name and the old
    value for every other name, and still no name occurs twice. *)
Theorem set_env_read_back {V : Type} (str : V -> string) env_list name (v : V) :
  NoDup (map fst env_list) ->
  let l := _set_env str env_list name (Some v) in
  env_get (env_dict l) name "80" = Some (str v) /\
  (forall k default, k <> name ->
     env_get (env_dict l) k default = env_get (env_dict env_list) k default) /\
  NoDup (map fst l).
Proof.
  intros Hnd. cbv zeta. rewrite set_env_setitem.
  pose proof (setitem_nodup env_list name (Some (str v)) Hnd) as Hnd'.
  split; [|split; [|exact Hnd']].
  - unfold env_get. rewrite env_dict_get, (get_rev_nodup _ _ Hnd'), get_setitem_same.
    reflexivity.
  - intros k default Hk. unfold env_get.
    rewrite !env_dict_get, (get_rev_nodup _ _ Hnd'), (get_rev_nodup _ _ Hnd).
    now rewrite get_setitem_other.
Qed.

Lemma set_env_read_back_example :
  env_get (env_dict (_set_env str_int (_env_list (mkContainer "loadgen" (Some Cases.loadgen_env)))
                       "TPS" (Some 35)))
    "TPS" "80" = Some "35".
Proof.
  refine (proj1 (set_env_read_back str_int
                   (_env_list (mkContainer "loadgen" (Some Cases.loadgen_env))) "TPS" 35 _)).
  cbn. repeat constructor; cbn; intuition discriminate.
Defined.

Lemma occurrences_in l k : (1 <= occurrences l k)%nat -> In k (map fst l).
Proof.
  unfold occurrences. induction l as [|[k' v'] l IH]; cbn; [lia|].
  destruct (String.eqb k' k) eqn:E.
  - apply String.eqb_eq in E. auto.
  - intros H. right. exact (IH H).
Qed.

Lemma get_rev_in {A : Type} (l : list (string * A)) k :
  In k (map fst l) -> exists v, get (rev l) k = Some v.
Proof.
  intros H. destruct (get (rev l) k) as [v|] eqn:E; [eauto|].
  apply get_none in E. exfalso. apply E.
  rewrite map_rev. now apply in_rev in H.
Qed.

Lemma get_rev_shadowed (l : list entry) name s :
  (2 <= occurrences l name)%nat ->
  get (rev (setitem l name s)) name = get (rev l) name.
Proof.
  unfold occurrences. induction l as [|[k' v'] l IH]; cbn [filter length fst]; [lia|].
  cbn [setitem]. destruct (String.eqb k' name) eqn:E.
  - cbn [length]. intros H.
    assert (Hin : In name (map fst l)) by (apply occurrences_in; unfold occurrences; lia).
    destruct (get_rev_in l name Hin) as (v & Hv).
    cbn [rev]. rewrite !get_app, Hv. reflexivity.
  - intros H. cbn [rev]. rewrite !get_app, (IH H). reflexivity.
Qed.

(** X19. When the list names a variable more than once, [_set_env]
    rewrites the first of those entries, while the dict of [read_env]
    keeps the last: the value read back for that name is the one from
    before the call, not the one that was set. *)
Theorem set_env_shadowed {V : Type} (str : V -> string) env_list name (value : option V) :
  (2 <= occurrences env_list name)%nat ->
  forall default,
    env_get (env_dict (_set_env str env_list name value)) name default
    = env_get (env_dict env_list) name default.
Proof.
  intros H default. unfold env_get.
  rewrite !env_dict_get, set_env_setitem, (get_rev_shadowed _ _ _ H). reflexivity.
Qed.

(** TPS listed as 10 and later as 20: after it is set to 35 the
    environment still reads 20. *)
Lemma set_env_shadowed_example :
  env_get (env_dict (_set_env str_int Cases.twice "TPS" (Some 35))) "TPS" "80" = Some "20".
Proof.
  rewrite (set_env_shadowed str_int Cases.twice "TPS" (Some 35) ltac:(cbn; lia) "80").
  reflexivity.
Defined.

Lemma setitem_unmanaged l k v : In k knobs -> unmanaged (setitem l k v) = unmanaged l.
Proof.
  intros Hk. unfold unmanaged.
  assert (Hb : existsb (String.eqb k) knobs = true) by now apply existsb_names.
  induction l as [|[k' v'] l IH]; cbn [setitem filter fst].
  - now rewrite Hb.
  - destruct (String.eqb k' k) eqn:E; cbn [filter fst]; [|now rewrite IH].
    apply String.eqb_eq in E. subst k'. now rewrite Hb.
Qed.

Lemma setitem_length {A : Type} (d : dict A) k v :
  (length d <= length (setitem d k v) <= length d + 1)%nat.
Proof.
  induction d as [|[k' v'] d IH]; cbn; [lia|].
  destruct (String.eqb k' k); cbn; lia.
Qed.

Lemma setitem_in_same {A : Type} (d : dict A) k v : In k (map fst (setitem d k v)).
Proof.
  destruct (get (setitem d k v) k) eqn:E.
  - destruct (in_dec string_dec k (map fst (setitem d k v))) as [H|H]; [exact H|].
    apply get_none in H. congruence.
  - now rewrite get_setitem_same in E.
Qed.

Lemma setitem_in_other {A : Type} (d : dict A) k v k' :
  In k' (map fst d) -> In k' (map fst (setitem d k v)).
Proof.
  intros H. rewrite setitem_names. destruct (existsb _ _); [exact H|].
  apply in_or_app. now left.
Qed.

(** X20. The body [patch_env_simple] sends.  Without a container the
    default [containers[0]] raises [IndexError]; otherwise the variables
    are taken from the container named CONTAINER, or from the first
    container when none has that name, and the body is addressed to
    CONTAINER in both cases.  The body's list holds each of the five
    variables, keeps every other entry as it was and in order, and is at
    most five entries longer; the annotations carry the time stamp under
    the controller's key and every annotation the Deployment had under
    another key; and when no name occurred twice, reading the list the
    way [read_env] does gives back the five values that were passed
    in. *)
Theorem patch_env_simple_body {V : Type} (str : V -> string) CONTAINER dep now
    tps conc rps_block rps_bal rps_call :
  let sent := patch_env_simple str CONTAINER dep now tps conc rps_block rps_bal rps_call in
  (containers dep = [] -> sent = inl IndexError) /\
  (forall c0 rest, containers dep = c0 :: rest ->
   exists t b,
     target CONTAINER (containers dep) = inr t /\ sent = inr b /\
     (c_name t = CONTAINER \/
      (t = c0 /\ forall c, In c (containers dep) -> c_name c <> CONTAINER)) /\
     body_container b = CONTAINER /\
     get (body_annotations b) lastUpdate = Some (str now) /\
     (forall k, k <> lastUpdate ->
        get (body_annotations b) k
        = get (match annotations dep with Some a => a | None => [] end) k) /\
     (forall k a, annotations dep = Some a -> In k (map fst a) ->
        In k (map fst (body_annotations b))) /\
     Forall (fun k => In k (map fst (body_env b))) knobs /\
     unmanaged (body_env b) = unmanaged (_env_list t) /\
     (length (_env_list t) <= length (body_env b) <= length (_env_list t) + 5)%nat /\
     (NoDup (map fst (_env_list t)) ->
      NoDup (map fst (body_env b)) /\
      map (fun k => env_get (env_dict (body_env b)) k "") knobs
      = map (fun v => Some (str v)) [tps; conc; rps_block; rps_bal; rps_call])).
Proof.
  cbv zeta. unfold patch_env_simple. split.
  - intros ->. reflexivity.
  - intros c0 rest Hc. rewrite Hc. cbn [target].
    set (t := match find _ _ with Some c => c | None => c0 end).
    exists t. eexists. split; [reflexivity|]. split; [reflexivity|].
    cbn [body_container body_annotations body_env].
    rewrite !set_env_setitem.
    set (l0 := _env_list t).
    set (l1 := setitem l0 "TPS" (Some (str tps))).
    set (l2 := setitem l1 "CONCURRENCY" (Some (str conc))).
    set (l3 := setitem l2 "RPS_BLOCK" (Some (str rps_block))).
    set (l4 := setitem l3 "RPS_BAL" (Some (str rps_bal))).
    set (l5 := setitem l4 "RPS_CALL" (Some (str rps_call))).
    split; [|split; [reflexivity|split; [apply get_setitem_same|]]].
    2: split; [intros k Hk; now apply get_setitem_other|].
    2: split; [intros k a -> Hin; now apply setitem_in_other|].
    { subst t. destruct (find _ (c0 :: rest)) as [c|] eqn:F.
      - left. apply find_some in F. destruct F as [_ F]. now apply String.eqb_eq in F.
      - right. split; [reflexivity|]. intros c Hin E.
        pose proof (find_none _ _ F c Hin) as Hn. cbn in Hn.
        apply String.eqb_neq in Hn. contradiction. }
    split; [|split; [|split]].
    + unfold knobs. repeat constructor.
      * subst l5 l4 l3 l2. do 4 apply setitem_in_other. apply setitem_in_same.
      * subst l5 l4 l3. do 3 apply setitem_in_other. apply setitem_in_same.
      * subst l5 l4. do 2 apply setitem_in_other. apply setitem_in_same.
      * subst l5. apply setitem_in_other. apply setitem_in_same.
      * apply setitem_in_same.
    + subst l5 l4 l3 l2 l1.
      rewrite !setitem_unmanaged by (cbn; tauto). reflexivity.
    + pose proof (setitem_length l0 "TPS" (Some (str tps))).
      pose proof (setitem_length l1 "CONCURRENCY" (Some (str conc))).
      pose proof (setitem_length l2 "RPS_BLOCK" (Some (str rps_block))).
      pose proof (setitem_length l3 "RPS_BAL" (Some (str rps_bal))).
      pose proof (setitem_length l4 "RPS_CALL" (Some (str rps_call))).
      fold l1 in H. fold l2 in H0. fold l3 in H1. fold l4 in H2. fold l5 in H3. lia.
    + intros Hnd.
      assert (N5 : NoDup (map fst l5)) by (subst l5 l4 l3 l2 l1; now do 5 apply setitem_nodup).
      split; [exact N5|].
      unfold knobs, env_get. cbn [map].
      rewrite !env_dict_get, !(get_rev_nodup _ _ N5).
      subst l5 l4 l3 l2 l1.
      repeat (rewrite get_setitem_same || rewrite get_setitem_other by discriminate).
      reflexivity.
Qed.

(** The Deployment with a side-car first and the load generator second:
    the body is built from the load generator's variables, with RPC_URL
    kept and TPS replaced, and the annotation it had is still there. *)
Lemma patch_env_simple_body_example :
  exists b,
    patch_env_simple str_int "loadgen" Cases.deployed 1700000000 35 200 10 10 10 = inr b /\
    body_env b = [("RPC_URL", Some "http://geth-devnet:8545"); ("TPS", Some "35");
                  ("CONCURRENCY", Some "200"); ("RPS_BLOCK", Some "10");
                  ("RPS_BAL", Some "10"); ("RPS_CALL", Some "10")] /\
    body_annotations b = [("app", "loadgen"); (lastUpdate, "1700000000")].
Proof.
  destruct (proj2 (patch_env_simple_body str_int "loadgen" Cases.deployed 1700000000
                     35 200 10 10 10) _ _ eq_refl)
    as (t & b & _ & E & _).
  exists b. split; [exact E|]. injection E as <-. split; reflexivity.
Defined.

(** [read_env] takes its strings from the same container, and uses the
    defaults for what the list does not name. *)
Lemma read_env_strings_example :
  read_env_strings "loadgen" Cases.deployed
  = inr [("tps", Some "10"); ("concurrency", Some "200"); ("rps_block", Some "0");
         ("rps_bal", Some "0"); ("rps_call", Some "0")] /\
  read_env_strings "loadgen" (mkDeployment [] None) = inl IndexError.
Proof. split; reflexivity. Qed.

(** ** The controller: presets on whole totals *)

(** X21. On every whole total from 0 to 10000 both presets return:
    "even" gives the integer nearest to a fifth of the total, "write"
    gives rates within one half of 35% and of 10% of it, and the rates
    the write split implies, two sends (the transaction and its fee
    request) and three reads, add up to the total within 2. *)
Theorem compute_mix_whole_totals n :
  0 <= n <= 10000 ->
  exists e w,
    compute_mix (of_int n) "even" = inr e /\
    compute_mix (of_int n) "write" = inr w /\
    tps e = (n + 2) / 5 /\
    Z.abs (20 * tps w - 7 * n) <= 10 /\
    Z.abs (10 * rps_block w - n) <= 5 /\
    Z.abs (2 * tps w + 3 * rps_block w - n) <= 2.
Proof.
  intros Hn.
  assert (Hi : 0 <= n < 0 + Z.of_nat (Z.to_nat 10001)) by (rewrite Z2Nat.id; lia).
  pose proof (all_from_spec _ near 0 n near_to_10000 Hi) as H.
  clear Hi.
  unfold near in H.
  destruct (compute_mix (of_int n) "even") as [?|e]; [discriminate|].
  destruct (compute_mix (of_int n) "write") as [?|w]; [discriminate|].
  exists e, w.
  repeat (apply andb_true_iff in H; destruct H as [H ?]).
  repeat split; try reflexivity; try (apply Z.leb_le; assumption).
  now apply Z.eqb_eq.
Qed.

Lemma compute_mix_whole_totals_example :
  exists e w,
    compute_mix (of_int 90) "even" = inr e /\
    compute_mix (of_int 90) "write" = inr w /\
    tps e = 18 /\ Z.abs (20 * tps w - 630) <= 10.
Proof.
  destruct (compute_mix_whole_totals 90 ltac:(lia)) as (e & w & He & Hw & H1 & H2 & _).
  exists e, w. split; [exact He|]. split; [exact Hw|]. split; [exact H1|exact H2].
Defined.
